(* ===================================================================== *)
(*  atari800-ai: the control-protocol server of src/ai_interface.c       *)
(*                                                                       *)
(*  A shallow embedding of the socket command layer (field extraction,   *)
(*  request framing, command dispatch, frame-stepping scheduler, input   *)
(*  overrides, debug capture buffer) with the properties the design      *)
(*  document states about it.                                            *)
(* ===================================================================== *)

From Stdlib Require Import ZArith Lia Bool Ascii String List.
From stdpp Require Import base tactics option list vector strings pretty.

Local Open Scope string_scope.
Local Open Scope Z_scope.
Local Open Scope list_scope.

(* ===================================================================== *)
(** * C scalars                                                          *)
(* ===================================================================== *)

Module C.

(** [int]: 32-bit two's complement. *)
Definition to_int (z : Z) : Z := (z + 2 ^ 31) mod 2 ^ 32 - 2 ^ 31.

(** [UBYTE] and [UWORD] of atari.h: unsigned 8 and 16 bits. *)
Definition UBYTE (z : Z) : Z := z mod 256.
Definition UWORD (z : Z) : Z := z mod 65536.

Definition LONG_MAX : Z := 2 ^ 63 - 1.
Definition LONG_MIN : Z := - 2 ^ 63.

(** Characters the parsers test for. *)
Definition NUL : ascii := "000"%char.
Definition TAB : ascii := "009"%char.
Definition LF : ascii := "010"%char.
Definition SPACE : ascii := " "%char.
Definition DQUOTE : ascii := "034"%char.
Definition BSLASH : ascii := "092"%char.

Definition code (c : ascii) : Z := Z.of_nat (nat_of_ascii c).

(** [isspace] in the C locale: space and the controls 9..13. *)
Definition isspace (c : ascii) : bool :=
  (code c =? 32) || ((9 <=? code c) && (code c <=? 13)).

Definition isdigit (c : ascii) : bool :=
  (48 <=? code c) && (code c <=? 57).

(** [strlen], as a C [int]-sized quantity. *)
Definition strlen (s : string) : Z := Z.of_nat (String.length s).

(** A [char] array read as a C string stops at the first NUL. *)
Fixpoint c_str (s : string) : string :=
  match s with
  | "" => ""
  | String c s' => if Ascii.eqb c NUL then "" else String c (c_str s')
  end.

(** [strstr hay needle]: the suffix of [hay] that starts at the first
    occurrence of [needle], [None] for a NULL result. *)
Fixpoint strstr (hay needle : string) : option string :=
  if String.prefix needle hay then Some hay
  else match hay with
       | "" => None
       | String _ hay' => strstr hay' needle
       end.

(** [strchr s c] for a non-NUL [c]. *)
Fixpoint strchr (s : string) (c : ascii) : option string :=
  match s with
  | "" => None
  | String a s' => if Ascii.eqb a c then Some s else strchr s' c
  end.

(** Pointer arithmetic [p + n] inside a string. *)
Fixpoint advance (n : nat) (p : string) : string :=
  match n, p with
  | O, _ => p
  | S n', String _ p' => advance n' p'
  | S _, "" => ""
  end.

(** What [snprintf] leaves in a destination of [size] bytes: at most
    [size - 1] characters of the formatted text. *)
Fixpoint truncate (room : Z) (s : string) : string :=
  match s with
  | "" => ""
  | String c s' => if room <=? 0 then "" else String c (truncate (room - 1) s')
  end.

Definition snprintf (size : Z) (text : string) : string := truncate (size - 1) text.

(** The digits loop of [strtol], base 10. *)
Fixpoint digits (s : string) (acc : Z) : Z :=
  match s with
  | "" => acc
  | String c s' =>
      if isdigit c then digits s' (10 * acc + (code c - 48)) else acc
  end.

Fixpoint skip_space (s : string) : string :=
  match s with
  | "" => ""
  | String c s' => if isspace c then skip_space s' else s
  end.

(** [strtol (s, NULL, 10)]: white space, an optional sign, digits; the
    result saturates at the ends of [long]. *)
Definition strtol10 (s : string) : Z :=
  let v :=
    match skip_space s with
    | String "-" s' => - digits s' 0
    | String "+" s' => digits s' 0
    | s' => digits s' 0
    end in
  Z.max LONG_MIN (Z.min LONG_MAX v).

(** [atoi]: the library computes [(int) strtol (s, NULL, 10)]. *)
Definition atoi (s : string) : Z := to_int (strtol10 s).

(** [%d] of an [int]. *)
Definition dec (z : Z) : string := pretty z.

End C.

(* ===================================================================== *)
(** * Message codec: field extraction                                    *)
(* ===================================================================== *)

Definition dq : string := String C.DQUOTE "".

(** A JSON string literal: the text between two double quotes. *)
Definition quoted (s : string) : string := dq +:+ s +:+ dq.

(** [snprintf (search, sizeof (search), "\"%s\":", key)] with
    [char search[64]]. *)
Definition search_key (key : string) : string :=
  C.snprintf 64 (quoted key +:+ ":").

Fixpoint skip_blank (p : string) : string :=
  match p with
  | "" => ""
  | String c p' =>
      if Ascii.eqb c C.SPACE || Ascii.eqb c C.TAB then skip_blank p' else p
  end.

(** The common head of the three extractors: find the pattern, step over
    it, skip blanks and tabs.  [None] when [strstr] returns NULL.  [json]
    is a C string, so only the text before its first NUL is looked at. *)
Definition field_value (json key : string) : option string :=
  match C.strstr (C.c_str json) (search_key key) with
  | None => None
  | Some p => Some (skip_blank (C.advance (String.length (search_key key)) p))
  end.

(** [*p == c]. *)
Definition first_is (c : ascii) (p : string) : bool :=
  match p with
  | String a _ => Ascii.eqb a c
  | "" => false
  end.

(** The copy loop of [json_get_string]; [room] is [bufsize - 1 - i]. *)
Fixpoint copy_value (p : string) (room : Z) : string :=
  match p with
  | "" => ""
  | String c p' =>
      if Ascii.eqb c C.DQUOTE || (room <=? 0) then ""
      else if Ascii.eqb c C.BSLASH then
        match p' with
        | "" => String c ""
        | String c' p'' => String c' (copy_value p'' (room - 1))
        end
      else String c (copy_value p' (room - 1))
  end.

(** [json_get_string]: [None] is the NULL return, which leaves [buf] as
    the caller initialised it; [Some s] is the new content of [buf]. *)
Definition json_get_string (json key : string) (bufsize : Z) : option string :=
  match field_value json key with
  | None => None
  | Some p =>
      if first_is C.DQUOTE p then Some (copy_value (C.advance 1 p) (bufsize - 1))
      else None
  end.

Definition json_get_int (json key : string) (def : Z) : Z :=
  match field_value json key with
  | None => def
  | Some p =>
      if first_is C.DQUOTE p then def (* It's a string, not int *)
      else C.atoi p
  end.

Definition json_get_bool (json key : string) (def : Z) : Z :=
  match field_value json key with
  | None => def
  | Some p =>
      if String.prefix "true" p then 1
      else if String.prefix "false" p then 0
      else def
  end.

(** Reading a buffer that was initialised to the empty string and then
    handed to [json_get_string]. *)
Definition get_string_into (json key : string) (bufsize : Z) : string :=
  default "" (json_get_string json key bufsize).

(* ===================================================================== *)
(** * The emulator and the host, as this file reaches them               *)
(* ===================================================================== *)

(** The emulator globals that ai_interface.c assigns itself, and [hw] for
    everything else of the machine (CPU, memory, chips, screen, files). *)
Record machine (hw : Type) := Machine {
  PIA_PORT_input : vec Z 2;      (* UBYTE PIA_PORT_input[2] *)
  GTIA_TRIG : vec Z 4;           (* UBYTE GTIA_TRIG[4] *)
  POKEY_POT_input : vec Z 8;     (* UBYTE POKEY_POT_input[8] *)
  INPUT_key_code : Z;
  INPUT_key_shift : Z;
  INPUT_key_consol : Z;
  hardware : hw
}.
Arguments Machine {hw}.
Arguments PIA_PORT_input {hw}.
Arguments GTIA_TRIG {hw}.
Arguments POKEY_POT_input {hw}.
Arguments INPUT_key_code {hw}.
Arguments INPUT_key_shift {hw}.
Arguments INPUT_key_consol {hw}.
Arguments hardware {hw}.

(** The collaborators: functions, macros and constants of the other
    translation units (atari.h, cpu.h, memory.h, input.h, akey.h,
    screen.h, binload.h, statesav.h) and of the C library.  None of
    them can reach the [static] variables of ai_interface.c. *)
Class Collaborators := {
  hw : Type;
  (* akey.h, input.h *)
  AKEY_NONE : Z;
  INPUT_CONSOL_NONE : Z;
  INPUT_CONSOL_START : Z;
  INPUT_CONSOL_SELECT : Z;
  INPUT_CONSOL_OPTION : Z;
  (* screen.h *)
  Screen_WIDTH : Z;
  Screen_HEIGHT : Z;
  Screen_atari : machine hw -> Z -> Z;             (* ((UBYTE * ) Screen_atari)[k] *)
  Screen_SaveScreenshot : string -> machine hw -> Z;
  (* cpu.h *)
  CPU_N_FLAG : Z; CPU_V_FLAG : Z; CPU_B_FLAG : Z; CPU_D_FLAG : Z;
  CPU_I_FLAG : Z; CPU_Z_FLAG : Z; CPU_C_FLAG : Z;
  CPU_GetStatus : machine hw -> machine hw;
  CPU_PutStatus : machine hw -> machine hw;
  (* a chip or CPU global read by name, and the CPU registers written by name *)
  reg : string -> machine hw -> Z;
  set_reg : string -> Z -> machine hw -> machine hw;
  (* memory.h *)
  MEMORY_SafeGetByte : Z -> machine hw -> Z;
  MEMORY_PutByte : Z -> Z -> machine hw -> machine hw;
  (* atari.h, binload.h, statesav.h *)
  Atari800_Coldstart : machine hw -> machine hw;
  BINLOAD_Loader : string -> machine hw -> Z * machine hw;
  StateSav_SaveAtariState : string -> machine hw -> Z;
  StateSav_ReadAtariState : string -> machine hw -> Z * machine hw;
  (* C library *)
  fopen_wb : string -> machine hw -> bool;         (* fopen (path, "wb") != NULL *)
  time_now : machine hw -> Z;                       (* time (NULL) *)
  strtol0 : string -> Z                             (* strtol (s, NULL, 0) *)
}.

(** Modelled from the spec: input.h is not among the sources.  The five
    stick encodings of the README's table (center 15, up 14, down 13,
    left 11, right 7: one active-low line per direction in a four-bit
    nibble); a diagonal pulls both of its lines low. *)
Definition INPUT_STICK_CENTRE : Z := 15.
Definition INPUT_STICK_FORWARD : Z := 14.
Definition INPUT_STICK_BACK : Z := 13.
Definition INPUT_STICK_LEFT : Z := 11.
Definition INPUT_STICK_RIGHT : Z := 7.
Definition INPUT_STICK_UL : Z := Z.land INPUT_STICK_FORWARD INPUT_STICK_LEFT.
Definition INPUT_STICK_UR : Z := Z.land INPUT_STICK_FORWARD INPUT_STICK_RIGHT.
Definition INPUT_STICK_LL : Z := Z.land INPUT_STICK_BACK INPUT_STICK_LEFT.
Definition INPUT_STICK_LR : Z := Z.land INPUT_STICK_BACK INPUT_STICK_RIGHT.

(* ai_interface.h *)
Definition AI_SOCKET_PATH : string := "/tmp/atari800_ai.sock".
Definition AI_BUFFER_SIZE : Z := 65536.
Definition AI_MAX_RESPONSE : Z := 1048576.
Definition AI_DEBUG_BUFFER_SIZE : Z := 4096.

(* ===================================================================== *)
(** * The socket, as the server sees it                                  *)
(* ===================================================================== *)

(** What the attached peer will deliver, in order: a byte, a moment with
    nothing to read, the end of the stream, a transport error. *)
Inductive sock_ev : Type :=
  | Data (c : ascii)
  | WouldBlock
  | Eof
  | Fail.

(** The outcome of one non-blocking poll of the listening socket:
    nothing pending, or [accept] returning [fd] for a peer that will
    deliver [script]. *)
Inductive accept_ev : Type :=
  | Quiet
  | Incoming (fd : Z) (script : list sock_ev).

(** The result of one [read]: [r > 0] with the bytes, [r = 0],
    [r < 0] with EAGAIN or EWOULDBLOCK, [r < 0] with another errno. *)
Inductive read_result : Type :=
  | Got (c : ascii) (more : string)
  | Closed
  | Again
  | Failed.

Fixpoint take_data (count : nat) (q : list sock_ev) : string * list sock_ev :=
  match count, q with
  | S n, Data c :: q' => let (s, r) := take_data n q' in (String c s, r)
  | _, _ => ("", q)
  end.

(** [read (ai_client_fd, buf, count)] with [count >= 1]: as many of the
    bytes that are there as fit. *)
Definition sys_read (count : Z) (q : list sock_ev) : read_result * list sock_ev :=
  match q with
  | [] => (Again, [])
  | WouldBlock :: q' => (Again, q')
  | Eof :: _ => (Closed, q)
  | Fail :: q' => (Failed, q')
  | Data c :: q' =>
      let (s, r) := take_data (Z.to_nat (count - 1)) q' in (Got c s, r)
  end.

(* ===================================================================== *)
(** * The state of ai_interface.c and of the world around it             *)
(* ===================================================================== *)

Section Server.

Context {K : Collaborators}.

Record state : Type := State {
  (* configuration *)
  AI_enabled : bool;
  AI_debug_port : Z;
  AI_socket_path : string;
  (* AI input overrides (-1 = no override) *)
  AI_joy_override : vec Z 4;
  AI_trig_override : vec Z 4;
  (* static state *)
  ai_server_fd : Z;
  ai_client_fd : Z;
  ai_paused : bool;
  ai_frames_to_run : Z;
  ai_steps_to_run : Z;
  (* debug output buffer *)
  ai_debug_buffer : list Z;
  ai_debug_buffer_pos : Z;
  (* the emulator *)
  emu : machine hw;
  (* the world: what the attached peer will deliver, what the polls of
     the listening socket will find, the client descriptors that are
     open, and every response handed to write(), oldest first *)
  peer : list sock_ev;
  backlog : list accept_ev;
  open_fds : list Z;
  sent : list (Z * string)
}.

Definition set_enabled (v : bool) (s : state) : state :=
  State v (AI_debug_port s) (AI_socket_path s) (AI_joy_override s) (AI_trig_override s)
    (ai_server_fd s) (ai_client_fd s) (ai_paused s) (ai_frames_to_run s)
    (ai_steps_to_run s) (ai_debug_buffer s) (ai_debug_buffer_pos s) (emu s) (peer s)
    (backlog s) (open_fds s) (sent s).
Definition set_socket_path (v : string) (s : state) : state :=
  State (AI_enabled s) (AI_debug_port s) v (AI_joy_override s) (AI_trig_override s)
    (ai_server_fd s) (ai_client_fd s) (ai_paused s) (ai_frames_to_run s)
    (ai_steps_to_run s) (ai_debug_buffer s) (ai_debug_buffer_pos s) (emu s) (peer s)
    (backlog s) (open_fds s) (sent s).
Definition set_server_fd (v : Z) (s : state) : state :=
  State (AI_enabled s) (AI_debug_port s) (AI_socket_path s) (AI_joy_override s)
    (AI_trig_override s) v (ai_client_fd s) (ai_paused s) (ai_frames_to_run s)
    (ai_steps_to_run s) (ai_debug_buffer s) (ai_debug_buffer_pos s) (emu s) (peer s)
    (backlog s) (open_fds s) (sent s).
Definition set_debug_port (v : Z) (s : state) : state :=
  State (AI_enabled s) v (AI_socket_path s) (AI_joy_override s) (AI_trig_override s)
    (ai_server_fd s) (ai_client_fd s) (ai_paused s) (ai_frames_to_run s)
    (ai_steps_to_run s) (ai_debug_buffer s) (ai_debug_buffer_pos s) (emu s) (peer s)
    (backlog s) (open_fds s) (sent s).
Definition set_joy_override (v : vec Z 4) (s : state) : state :=
  State (AI_enabled s) (AI_debug_port s) (AI_socket_path s) v (AI_trig_override s)
    (ai_server_fd s) (ai_client_fd s) (ai_paused s) (ai_frames_to_run s)
    (ai_steps_to_run s) (ai_debug_buffer s) (ai_debug_buffer_pos s) (emu s) (peer s)
    (backlog s) (open_fds s) (sent s).
Definition set_trig_override (v : vec Z 4) (s : state) : state :=
  State (AI_enabled s) (AI_debug_port s) (AI_socket_path s) (AI_joy_override s) v
    (ai_server_fd s) (ai_client_fd s) (ai_paused s) (ai_frames_to_run s)
    (ai_steps_to_run s) (ai_debug_buffer s) (ai_debug_buffer_pos s) (emu s) (peer s)
    (backlog s) (open_fds s) (sent s).
Definition set_client_fd (v : Z) (s : state) : state :=
  State (AI_enabled s) (AI_debug_port s) (AI_socket_path s) (AI_joy_override s)
    (AI_trig_override s) (ai_server_fd s) v (ai_paused s) (ai_frames_to_run s)
    (ai_steps_to_run s) (ai_debug_buffer s) (ai_debug_buffer_pos s) (emu s) (peer s)
    (backlog s) (open_fds s) (sent s).
Definition set_paused (v : bool) (s : state) : state :=
  State (AI_enabled s) (AI_debug_port s) (AI_socket_path s) (AI_joy_override s)
    (AI_trig_override s) (ai_server_fd s) (ai_client_fd s) v (ai_frames_to_run s)
    (ai_steps_to_run s) (ai_debug_buffer s) (ai_debug_buffer_pos s) (emu s) (peer s)
    (backlog s) (open_fds s) (sent s).
Definition set_frames_to_run (v : Z) (s : state) : state :=
  State (AI_enabled s) (AI_debug_port s) (AI_socket_path s) (AI_joy_override s)
    (AI_trig_override s) (ai_server_fd s) (ai_client_fd s) (ai_paused s) v
    (ai_steps_to_run s) (ai_debug_buffer s) (ai_debug_buffer_pos s) (emu s) (peer s)
    (backlog s) (open_fds s) (sent s).
Definition set_steps_to_run (v : Z) (s : state) : state :=
  State (AI_enabled s) (AI_debug_port s) (AI_socket_path s) (AI_joy_override s)
    (AI_trig_override s) (ai_server_fd s) (ai_client_fd s) (ai_paused s)
    (ai_frames_to_run s) v (ai_debug_buffer s) (ai_debug_buffer_pos s) (emu s) (peer s)
    (backlog s) (open_fds s) (sent s).
Definition set_debug_buffer (v : list Z) (s : state) : state :=
  State (AI_enabled s) (AI_debug_port s) (AI_socket_path s) (AI_joy_override s)
    (AI_trig_override s) (ai_server_fd s) (ai_client_fd s) (ai_paused s)
    (ai_frames_to_run s) (ai_steps_to_run s) v (ai_debug_buffer_pos s) (emu s) (peer s)
    (backlog s) (open_fds s) (sent s).
Definition set_debug_buffer_pos (v : Z) (s : state) : state :=
  State (AI_enabled s) (AI_debug_port s) (AI_socket_path s) (AI_joy_override s)
    (AI_trig_override s) (ai_server_fd s) (ai_client_fd s) (ai_paused s)
    (ai_frames_to_run s) (ai_steps_to_run s) (ai_debug_buffer s) v (emu s) (peer s)
    (backlog s) (open_fds s) (sent s).
Definition set_emu (v : machine hw) (s : state) : state :=
  State (AI_enabled s) (AI_debug_port s) (AI_socket_path s) (AI_joy_override s)
    (AI_trig_override s) (ai_server_fd s) (ai_client_fd s) (ai_paused s)
    (ai_frames_to_run s) (ai_steps_to_run s) (ai_debug_buffer s) (ai_debug_buffer_pos s)
  v (peer s) (backlog s) (open_fds s) (sent s).
Definition set_peer (v : list sock_ev) (s : state) : state :=
  State (AI_enabled s) (AI_debug_port s) (AI_socket_path s) (AI_joy_override s)
    (AI_trig_override s) (ai_server_fd s) (ai_client_fd s) (ai_paused s)
    (ai_frames_to_run s) (ai_steps_to_run s) (ai_debug_buffer s) (ai_debug_buffer_pos s)
    (emu s) v (backlog s) (open_fds s) (sent s).
Definition set_backlog (v : list accept_ev) (s : state) : state :=
  State (AI_enabled s) (AI_debug_port s) (AI_socket_path s) (AI_joy_override s)
    (AI_trig_override s) (ai_server_fd s) (ai_client_fd s) (ai_paused s)
    (ai_frames_to_run s) (ai_steps_to_run s) (ai_debug_buffer s) (ai_debug_buffer_pos s)
    (emu s) (peer s) v (open_fds s) (sent s).
Definition set_open_fds (v : list Z) (s : state) : state :=
  State (AI_enabled s) (AI_debug_port s) (AI_socket_path s) (AI_joy_override s)
    (AI_trig_override s) (ai_server_fd s) (ai_client_fd s) (ai_paused s)
    (ai_frames_to_run s) (ai_steps_to_run s) (ai_debug_buffer s) (ai_debug_buffer_pos s)
    (emu s) (peer s) (backlog s) v (sent s).
Definition set_sent (v : list (Z * string)) (s : state) : state :=
  State (AI_enabled s) (AI_debug_port s) (AI_socket_path s) (AI_joy_override s)
    (AI_trig_override s) (ai_server_fd s) (ai_client_fd s) (ai_paused s)
    (ai_frames_to_run s) (ai_steps_to_run s) (ai_debug_buffer s) (ai_debug_buffer_pos s)
    (emu s) (peer s) (backlog s) (open_fds s) v.

(** [close (fd)] on a client descriptor. *)
Definition sys_close (fd : Z) (s : state) : state :=
  set_open_fds (filter (fun x => x ≠ fd) (open_fds s)) s.

(** An array subscript that the code has bounds-checked: [index n i] is
    the position [i] of an array of [n] elements, defined exactly when
    [0 <= i < n]. *)
Fixpoint index_nat (n i : nat) : option (fin n) :=
  match n with
  | O => None
  | S n' => match i with
            | O => Some Fin.F1
            | S i' => Fin.FS <$> index_nat n' i'
            end
  end.

Definition index (n : nat) (i : Z) : option (fin n) :=
  if i <? 0 then None else index_nat n (Z.to_nat i).

(* ===================================================================== *)
(** * Responses and the debug port                                       *)
(* ===================================================================== *)

Definition newline : string := String C.LF "".

(** The two writes of [AI_SendResponse], as they arrive on the wire. *)
Definition wire (json : string) : string :=
  C.dec (C.strlen json) +:+ newline +:+ json.

Definition AI_SendResponse (json : string) (s : state) : state :=
  if ai_client_fd s <? 0 then s
  else set_sent (sent s ++ [(ai_client_fd s, wire json)]) s.

(** [snprintf (ai_response, sizeof (ai_response), ...)]. *)
Definition format_response (text : string) : string :=
  C.snprintf AI_MAX_RESPONSE text.

(** Debug write hook - called when program writes to debug port. *)
Definition AI_DebugWrite (byte : Z) (s : state) : state :=
  if ai_debug_buffer_pos s <? AI_DEBUG_BUFFER_SIZE then
    set_debug_buffer_pos (ai_debug_buffer_pos s + 1)
      (set_debug_buffer
         (<[Z.to_nat (ai_debug_buffer_pos s) := C.UBYTE byte]> (ai_debug_buffer s)) s)
  else s.


(** The response literals. *)
Definition status_ok : string := quoted "status" +:+ ":" +:+ quoted "ok".
Definition status_error : string := quoted "status" +:+ ":" +:+ quoted "error".
Definition resp_ok : string := "{" +:+ status_ok +:+ "}".
Definition resp_pong : string :=
  "{" +:+ status_ok +:+ "," +:+ quoted "msg" +:+ ":" +:+ quoted "pong" +:+ "}".
Definition resp_error (msg : string) : string :=
  "{" +:+ status_error +:+ "," +:+ quoted "msg" +:+ ":" +:+ quoted msg +:+ "}".
Definition resp_frames_run : string :=
  "{" +:+ status_ok +:+ "," +:+ quoted "frames_run" +:+ ":1}".

(** ["k":%d] fields separated by commas. *)
Fixpoint int_fields (fs : list (string * Z)) : string :=
  match fs with
  | [] => ""
  | [(k, v)] => quoted k +:+ ":" +:+ C.dec v
  | (k, v) :: rest => quoted k +:+ ":" +:+ C.dec v +:+ "," +:+ int_fields rest
  end.

Definition resp_ok_with (fs : list (string * Z)) : string :=
  "{" +:+ status_ok +:+ "," +:+ int_fields fs +:+ "}".

(** A loop that appends to [ai_response] while [pos < limit]; [pos] is
    the length written so far.  Every caller's limit leaves more room
    than its longest item, so the [snprintf] inside never truncates. *)
Fixpoint append_while (limit : Z) (items : list string) (acc : string) : string :=
  match items with
  | [] => acc
  | it :: rest =>
      if C.strlen acc <? limit then append_while limit rest (acc +:+ it)
      else acc
  end.

(** ["%s%d", i ? "," : "", value] for the [i]-th element. *)
Definition nth_item (i : nat) (v : Z) : string :=
  (if decide (i = O) then "" else ",") +:+ C.dec v.

(* ===================================================================== *)
(** * Assignments to the emulator globals                                *)
(* ===================================================================== *)

Definition set_PIA_PORT_input (v : vec Z 2) (m : machine hw) : machine hw :=
  Machine v (GTIA_TRIG m) (POKEY_POT_input m) (INPUT_key_code m) (INPUT_key_shift m)
    (INPUT_key_consol m) (hardware m).
Definition set_GTIA_TRIG (v : vec Z 4) (m : machine hw) : machine hw :=
  Machine (PIA_PORT_input m) v (POKEY_POT_input m) (INPUT_key_code m)
    (INPUT_key_shift m) (INPUT_key_consol m) (hardware m).
Definition set_POKEY_POT_input (v : vec Z 8) (m : machine hw) : machine hw :=
  Machine (PIA_PORT_input m) (GTIA_TRIG m) v (INPUT_key_code m) (INPUT_key_shift m)
    (INPUT_key_consol m) (hardware m).
Definition set_INPUT_key_code (v : Z) (m : machine hw) : machine hw :=
  Machine (PIA_PORT_input m) (GTIA_TRIG m) (POKEY_POT_input m) v (INPUT_key_shift m)
    (INPUT_key_consol m) (hardware m).
Definition set_INPUT_key_shift (v : Z) (m : machine hw) : machine hw :=
  Machine (PIA_PORT_input m) (GTIA_TRIG m) (POKEY_POT_input m) (INPUT_key_code m) v
    (INPUT_key_consol m) (hardware m).
Definition set_INPUT_key_consol (v : Z) (m : machine hw) : machine hw :=
  Machine (PIA_PORT_input m) (GTIA_TRIG m) (POKEY_POT_input m) (INPUT_key_code m)
    (INPUT_key_shift m) v (hardware m).

(* ===================================================================== *)
(** * Screen export                                                      *)
(* ===================================================================== *)

Definition ramp : string := " .:-=+*#%@".

Definition glyph (k : Z) (table : string) : string :=
  match String.get (Z.to_nat k) table with
  | Some c => String c ""
  | None => ""
  end.

(** The body of the inner loop of [screen_to_ascii]: the character for
    the cell at [row], [col]. *)
Definition sample (m : machine hw) (row col : Z) : string :=
  let sx := Z.quot (col * 336) 40 + 24 in
  let sy := Z.quot (row * 192) 24 + 24 in
  let sx := if sx <? 0 then 0 else sx in
  let sx := if Screen_WIDTH <=? sx then Screen_WIDTH - 1 else sx in
  let sy := if sy <? 0 then 0 else sy in
  let sy := if Screen_HEIGHT <=? sy then Screen_HEIGHT - 1 else sy in
  let pixel := C.UBYTE (Screen_atari m (sy * Screen_WIDTH + sx)) in
  let brightness := Z.land pixel 15 in
  let char_idx := Z.quot (brightness * (C.strlen ramp - 1)) 15 in
  glyph char_idx ramp.

Definition ascii_row (m : machine hw) (outsize row : Z) (acc : string) : string :=
  let acc := acc +:+ dq in
  let acc := append_while (outsize - 50) (map (sample m row) (seqZ 0 40)) acc in
  let acc := acc +:+ dq in
  if row <? 23 then acc +:+ "," else acc.

Fixpoint ascii_rows (m : machine hw) (outsize : Z) (rows : list Z) (acc : string)
  : string :=
  match rows with
  | [] => acc
  | row :: rest =>
      if C.strlen acc <? outsize - 100
      then ascii_rows m outsize rest (ascii_row m outsize row acc)
      else acc
  end.

Definition screen_to_ascii (m : machine hw) (outsize : Z) : string :=
  ascii_rows m outsize (seqZ 0 24) "[" +:+ "]".

Definition b64_table : string :=
  "ABCDEFGHIJKLMNOPQRSTUVWXYZabcdefghijklmnopqrstuvwxyz0123456789+/".

Definition b64 (n : Z) : string := glyph (Z.land n 63) b64_table.

Fixpoint base64_encode (data : list Z) (outsize : Z) (acc : string) : string :=
  match data with
  | [] => acc
  | a :: rest =>
      if C.strlen acc <? outsize - 4 then
        match rest with
        | [] =>
            let n := Z.shiftl a 16 in
            acc +:+ b64 (Z.shiftr n 18) +:+ b64 (Z.shiftr n 12) +:+ "=="
        | b :: [] =>
            let n := Z.lor (Z.shiftl a 16) (Z.shiftl b 8) in
            acc +:+ b64 (Z.shiftr n 18) +:+ b64 (Z.shiftr n 12)
                +:+ b64 (Z.shiftr n 6) +:+ "="
        | b :: c :: rest' =>
            let n := Z.lor (Z.lor (Z.shiftl a 16) (Z.shiftl b 8)) c in
            base64_encode rest' outsize
              (acc +:+ b64 (Z.shiftr n 18) +:+ b64 (Z.shiftr n 12)
                   +:+ b64 (Z.shiftr n 6) +:+ b64 n)
        end
      else acc
  end.

(* ===================================================================== *)
(** * Command handlers                                                   *)
(* ===================================================================== *)

Definition is_empty (s : string) : bool :=
  match s with "" => true | _ => false end.

Definition stick_of_direction (dir : string) : Z :=
  if String.eqb dir "up" then INPUT_STICK_FORWARD
  else if String.eqb dir "down" then INPUT_STICK_BACK
  else if String.eqb dir "left" then INPUT_STICK_LEFT
  else if String.eqb dir "right" then INPUT_STICK_RIGHT
  else if String.eqb dir "ul" then INPUT_STICK_UL
  else if String.eqb dir "ur" then INPUT_STICK_UR
  else if String.eqb dir "ll" then INPUT_STICK_LL
  else if String.eqb dir "lr" then INPUT_STICK_LR
  else INPUT_STICK_CENTRE.

Definition cmd_joystick (cmd : string) (s : state) : state :=
  let port := json_get_int cmd "port" 0 in
  let dir := get_string_into cmd "direction" 16 in
  let fire := json_get_bool cmd "fire" 0 in
  let stick := stick_of_direction dir in
  let s :=
    if (0 <=? port) && (port <? 4) then
      match index 4 port with
      | Some i =>
          (* Use -1 (no override) for center to allow keyboard input *)
          let s := set_joy_override
                     (vinsert i (if stick =? INPUT_STICK_CENTRE then -1 else stick)
                        (AI_joy_override s)) s in
          (* 0 = pressed, -1 = no override (allows keyboard) *)
          set_trig_override
            (vinsert i (if fire =? 0 then -1 else 0) (AI_trig_override s)) s
      | None => s
      end
    else s in
  AI_SendResponse resp_ok s.

Definition cmd_paddle (cmd : string) (s : state) : state :=
  let port := json_get_int cmd "port" 0 in
  let value := json_get_int cmd "value" 128 in
  let s :=
    if (0 <=? port) && (port <? 8) then
      match index 8 port with
      | Some i =>
          set_emu (set_POKEY_POT_input
                     (vinsert i (C.UBYTE value) (POKEY_POT_input (emu s))) (emu s)) s
      | None => s
      end
    else s in
  AI_SendResponse resp_ok s.

Definition cmd_consol (cmd : string) (s : state) : state :=
  let c := INPUT_CONSOL_NONE in
  let c := if json_get_bool cmd "start" 1 =? 0
           then Z.land c (Z.lnot INPUT_CONSOL_START) else c in
  let c := if json_get_bool cmd "select" 1 =? 0
           then Z.land c (Z.lnot INPUT_CONSOL_SELECT) else c in
  let c := if json_get_bool cmd "option" 1 =? 0
           then Z.land c (Z.lnot INPUT_CONSOL_OPTION) else c in
  AI_SendResponse resp_ok (set_emu (set_INPUT_key_consol c (emu s)) s).

Definition cmd_load (cmd : string) (s : state) : state :=
  let path := get_string_into cmd "path" 512 in
  let failed := format_response (resp_error ("Failed to load " +:+ path)) in
  if is_empty path then AI_SendResponse failed s
  else
    let (r, m) := BINLOAD_Loader path (emu s) in
    if r =? 0 then AI_SendResponse failed (set_emu m s)
    else AI_SendResponse resp_ok (set_emu m s).

Definition resp_path (path : string) : string :=
  "{" +:+ status_ok +:+ "," +:+ quoted "path" +:+ ":" +:+ quoted path +:+ "}".

(** The screenshot file itself is outside the model. *)
Definition cmd_screenshot (cmd : string) (s : state) : state :=
  let path := get_string_into cmd "path" 512 in
  if is_empty path then
    (* Default path *)
    let path := C.snprintf 512
                  ("/tmp/atari800_ai_" +:+ C.dec (time_now (emu s)) +:+ ".png") in
    AI_SendResponse (format_response (resp_path path)) s
  else if Screen_SaveScreenshot path (emu s) =? 0 then
    AI_SendResponse (format_response (resp_error "Failed to save screenshot")) s
  else AI_SendResponse (format_response (resp_path path)) s.

Definition cmd_screen_ascii (s : state) : state :=
  let ascii_data := screen_to_ascii (emu s) 2048 in
  AI_SendResponse
    (format_response
       ("{" +:+ status_ok +:+ "," +:+ quoted "width" +:+ ":40,"
            +:+ quoted "height" +:+ ":24," +:+ quoted "data" +:+ ":"
            +:+ ascii_data +:+ "}")) s.

Definition cmd_screen_raw (s : state) : state :=
  let pixels := map (fun k => C.UBYTE (Screen_atari (emu s) k))
                    (seqZ 0 (Screen_WIDTH * Screen_HEIGHT)) in
  let b64_buf := base64_encode pixels (Screen_WIDTH * Screen_HEIGHT * 2) "" in
  AI_SendResponse
    (format_response
       ("{" +:+ status_ok +:+ "," +:+ quoted "width" +:+ ":" +:+ C.dec Screen_WIDTH
            +:+ "," +:+ quoted "height" +:+ ":" +:+ C.dec Screen_HEIGHT
            +:+ "," +:+ quoted "data" +:+ ":" +:+ quoted b64_buf +:+ "}")) s.

Definition cmd_peek (cmd : string) (s : state) : state :=
  let addr := json_get_int cmd "addr" 0 in
  let len := json_get_int cmd "len" 1 in
  let len := if 256 <? len then 256 else len in (* Limit *)
  let head := format_response
                ("{" +:+ status_ok +:+ "," +:+ quoted "addr" +:+ ":" +:+ C.dec addr
                     +:+ "," +:+ quoted "data" +:+ ":[") in
  let items := imap (fun i k =>
                 nth_item i (MEMORY_SafeGetByte (C.UWORD (C.to_int (addr + k))) (emu s)))
                 (seqZ 0 len) in
  AI_SendResponse (append_while (AI_MAX_RESPONSE - 20) items head +:+ "]}") s.

Fixpoint skip_sep (p : string) : string :=
  match p with
  | "" => ""
  | String c p' => if Ascii.eqb c " " || Ascii.eqb c "," then skip_sep p' else p
  end.

Fixpoint skip_digits (p : string) : string :=
  match p with
  | "" => ""
  | String c p' => if C.isdigit c then skip_digits p' else p
  end.

(** The array loop of [poke]; an iteration that does not [break]
    consumes a digit, so the length of [data] bounds the iterations. *)
Fixpoint poke_loop (fuel : nat) (data : string) (addr : Z) (m : machine hw)
  : machine hw :=
  match fuel with
  | O => m
  | S fuel' =>
      match data with
      | "" => m
      | String c _ =>
          if Ascii.eqb c "]" then m
          else
            let data := skip_sep data in
            match data with
            | "" => m
            | String d _ =>
                if C.isdigit d then
                  poke_loop fuel' (skip_digits data) (C.to_int (addr + 1))
                    (MEMORY_PutByte (C.UWORD addr) (C.UBYTE (C.atoi data)) m)
                else m
            end
      end
  end.

Definition cmd_poke (cmd : string) (s : state) : state :=
  let addr := json_get_int cmd "addr" 0 in
  let m :=
    match C.strstr (C.c_str cmd) (quoted "data" +:+ ":") with
    | None => emu s
    | Some data =>
        match C.strchr data "[" with
        | None => emu s
        | Some data =>
            let data := C.advance 1 data in
            poke_loop (String.length data) data addr (emu s)
        end
    end in
  AI_SendResponse resp_ok (set_emu m s).

(** The dumped file itself is outside the model. *)
Definition cmd_dump (cmd : string) (s : state) : state :=
  let start := json_get_int cmd "start" 0 in
  let end_ := json_get_int cmd "end" 65535 in
  let path := get_string_into cmd "path" 512 in
  if is_empty path then
    AI_SendResponse (format_response (resp_error "No path specified")) s
  else if fopen_wb path (emu s) then
    AI_SendResponse
      (format_response (resp_ok_with [("bytes", C.to_int (end_ - start + 1))])) s
  else AI_SendResponse (format_response (resp_error "Failed to open file")) s.

Definition flag (p mask : Z) : Z := if Z.land p mask =? 0 then 0 else 1.

Definition cmd_cpu (s : state) : state :=
  let m := CPU_GetStatus (emu s) in
  let p := reg "CPU_regP" m in
  AI_SendResponse
    (format_response
       (resp_ok_with
          [("pc", reg "CPU_regPC" m); ("a", reg "CPU_regA" m);
           ("x", reg "CPU_regX" m); ("y", reg "CPU_regY" m);
           ("sp", reg "CPU_regS" m); ("p", p);
           ("n", flag p CPU_N_FLAG); ("v", flag p CPU_V_FLAG);
           ("b", flag p CPU_B_FLAG); ("d", flag p CPU_D_FLAG);
           ("i", flag p CPU_I_FLAG); ("z", flag p CPU_Z_FLAG);
           ("c", flag p CPU_C_FLAG)]))
    (set_emu m s).

(** [if ((p = strstr (cmd, pattern))) r = atoi (p + strlen (pattern));] for a
    register [r] whose C type is [cast]. *)
Definition set_if_given (cmd key name : string) (cast : Z -> Z) (m : machine hw)
  : machine hw :=
  let pattern := quoted key +:+ ":" in
  match C.strstr (C.c_str cmd) pattern with
  | None => m
  | Some p => set_reg name (cast (C.atoi (C.advance (String.length pattern) p))) m
  end.

Definition cmd_cpu_set (cmd : string) (s : state) : state :=
  (* Only set values that are specified *)
  let m := set_if_given cmd "pc" "CPU_regPC" C.UWORD (emu s) in
  let m := set_if_given cmd "a" "CPU_regA" C.UBYTE m in
  let m := set_if_given cmd "x" "CPU_regX" C.UBYTE m in
  let m := set_if_given cmd "y" "CPU_regY" C.UBYTE m in
  let m := set_if_given cmd "sp" "CPU_regS" C.UBYTE m in
  AI_SendResponse resp_ok (set_emu (CPU_PutStatus m) s).

Definition named (m : machine hw) (key name : string) : string * Z :=
  (key, reg name m).

Definition cmd_antic (s : state) : state :=
  let m := emu s in
  AI_SendResponse
    (format_response
       (resp_ok_with
          [named m "dmactl" "ANTIC_DMACTL"; named m "chactl" "ANTIC_CHACTL";
           named m "dlist" "ANTIC_dlist"; named m "hscrol" "ANTIC_HSCROL";
           named m "vscrol" "ANTIC_VSCROL"; named m "pmbase" "ANTIC_PMBASE";
           named m "chbase" "ANTIC_CHBASE"; named m "nmien" "ANTIC_NMIEN";
           named m "nmist" "ANTIC_NMIST"; named m "ypos" "ANTIC_ypos";
           named m "xpos" "ANTIC_xpos"])) s.

Definition cmd_gtia (s : state) : state :=
  let m := emu s in
  AI_SendResponse
    (format_response
       (resp_ok_with
          [named m "hposp0" "GTIA_HPOSP0"; named m "hposp1" "GTIA_HPOSP1";
           named m "hposp2" "GTIA_HPOSP2"; named m "hposp3" "GTIA_HPOSP3";
           named m "hposm0" "GTIA_HPOSM0"; named m "hposm1" "GTIA_HPOSM1";
           named m "hposm2" "GTIA_HPOSM2"; named m "hposm3" "GTIA_HPOSM3";
           named m "sizep0" "GTIA_SIZEP0"; named m "sizep1" "GTIA_SIZEP1";
           named m "sizep2" "GTIA_SIZEP2"; named m "sizep3" "GTIA_SIZEP3";
           named m "sizem" "GTIA_SIZEM";
           named m "grafp0" "GTIA_GRAFP0"; named m "grafp1" "GTIA_GRAFP1";
           named m "grafp2" "GTIA_GRAFP2"; named m "grafp3" "GTIA_GRAFP3";
           named m "grafm" "GTIA_GRAFM";
           named m "colpm0" "GTIA_COLPM0"; named m "colpm1" "GTIA_COLPM1";
           named m "colpm2" "GTIA_COLPM2"; named m "colpm3" "GTIA_COLPM3";
           named m "colpf0" "GTIA_COLPF0"; named m "colpf1" "GTIA_COLPF1";
           named m "colpf2" "GTIA_COLPF2"; named m "colpf3" "GTIA_COLPF3";
           named m "colbk" "GTIA_COLBK";
           named m "prior" "GTIA_PRIOR"; named m "gractl" "GTIA_GRACTL";
           ("trig0", GTIA_TRIG m !!! 0%fin); ("trig1", GTIA_TRIG m !!! 1%fin);
           ("trig2", GTIA_TRIG m !!! 2%fin); ("trig3", GTIA_TRIG m !!! 3%fin)])) s.

Definition cmd_pokey (s : state) : state :=
  let m := emu s in
  let pot := POKEY_POT_input m in
  AI_SendResponse
    (format_response
       (resp_ok_with
          [named m "audf1" "POKEY_AUDF[0]"; named m "audc1" "POKEY_AUDC[0]";
           named m "audf2" "POKEY_AUDF[1]"; named m "audc2" "POKEY_AUDC[1]";
           named m "audf3" "POKEY_AUDF[2]"; named m "audc3" "POKEY_AUDC[2]";
           named m "audf4" "POKEY_AUDF[3]"; named m "audc4" "POKEY_AUDC[3]";
           named m "audctl" "POKEY_AUDCTL[0]"; named m "kbcode" "POKEY_KBCODE";
           named m "irqen" "POKEY_IRQEN"; named m "irqst" "POKEY_IRQST";
           named m "skstat" "POKEY_SKSTAT"; named m "skctl" "POKEY_SKCTL";
           ("pot0", pot !!! 0%fin); ("pot1", pot !!! 1%fin);
           ("pot2", pot !!! 2%fin); ("pot3", pot !!! 3%fin);
           ("pot4", pot !!! 4%fin); ("pot5", pot !!! 5%fin);
           ("pot6", pot !!! 6%fin); ("pot7", pot !!! 7%fin)])) s.

Definition cmd_pia (s : state) : state :=
  let m := emu s in
  AI_SendResponse
    (format_response
       (resp_ok_with
          [named m "porta" "PIA_PORTA"; named m "portb" "PIA_PORTB";
           named m "pactl" "PIA_PACTL"; named m "pbctl" "PIA_PBCTL";
           ("port_input0", PIA_PORT_input m !!! 0%fin);
           ("port_input1", PIA_PORT_input m !!! 1%fin)])) s.

Definition printable (c : Z) : string :=
  if (32 <=? c) && (c <? 127) && negb (c =? 34) && negb (c =? 92)
  then String (ascii_of_nat (Z.to_nat c)) ""
  else ".".

(** [debug_read]: the bytes below [ai_debug_buffer_pos] as a number array
    and as text, and the buffer cleared. *)
Definition debug_head : string := "{" +:+ status_ok +:+ "," +:+ quoted "data" +:+ ":[".
Definition debug_middle : string := "]," +:+ quoted "ascii" +:+ ":" +:+ dq.
Definition debug_tail : string := dq +:+ "}".

Definition debug_read_response (data : list Z) : string :=
  let acc := format_response debug_head in
  let acc := append_while (AI_MAX_RESPONSE - 100) (imap nth_item data) acc in
  let acc := acc +:+ debug_middle in
  let acc := append_while (AI_MAX_RESPONSE - 10) (map printable data) acc in
  acc +:+ debug_tail.

Definition cmd_debug_read (s : state) : state :=
  let data := take (Z.to_nat (ai_debug_buffer_pos s)) (ai_debug_buffer s) in
  AI_SendResponse (debug_read_response data)
    (set_debug_buffer_pos 0 s). (* Clear buffer *)

Definition cmd_save_state (cmd : string) (s : state) : state :=
  let path := get_string_into cmd "path" 512 in
  if is_empty path then AI_SendResponse (resp_error "Failed to save state") s
  else if StateSav_SaveAtariState path (emu s) =? 0
  then AI_SendResponse (resp_error "Failed to save state") s
  else AI_SendResponse resp_ok s.

Definition cmd_load_state (cmd : string) (s : state) : state :=
  let path := get_string_into cmd "path" 512 in
  if is_empty path then AI_SendResponse (resp_error "Failed to load state") s
  else
    let (r, m) := StateSav_ReadAtariState path (emu s) in
    if r =? 0 then AI_SendResponse (resp_error "Failed to load state") (set_emu m s)
    else AI_SendResponse resp_ok (set_emu m s).

(** The command name: [char cmd_type[32] = ""] after
    [json_get_string (cmd, "cmd", cmd_type, sizeof (cmd_type))]. *)
Definition command_name (cmd : string) : string := get_string_into cmd "cmd" 32.

(** Process a command. *)
Definition process_command (cmd : string) (s : state) : state :=
  let cmd_type := command_name cmd in
  (* === CONTROL === *)
  if String.eqb cmd_type "ping" then AI_SendResponse resp_pong s
  else if String.eqb cmd_type "load" then cmd_load cmd s
  else if String.eqb cmd_type "run" then
    (* Response sent after frames complete *)
    set_paused false (set_frames_to_run (json_get_int cmd "frames" 1) s)
  else if String.eqb cmd_type "step" then
    (* Response sent after steps complete *)
    set_paused false (set_steps_to_run (json_get_int cmd "instructions" 1) s)
  else if String.eqb cmd_type "pause" then
    AI_SendResponse resp_ok (set_paused true s)
  else if String.eqb cmd_type "reset" then
    AI_SendResponse resp_ok (set_emu (Atari800_Coldstart (emu s)) s)
  (* === INPUT === *)
  else if String.eqb cmd_type "key" then
    AI_SendResponse resp_ok
      (set_emu (set_INPUT_key_shift (json_get_bool cmd "shift" 0)
                  (set_INPUT_key_code (json_get_int cmd "code" AKEY_NONE) (emu s))) s)
  else if String.eqb cmd_type "key_release" then
    AI_SendResponse resp_ok
      (set_emu (set_INPUT_key_shift 0 (set_INPUT_key_code AKEY_NONE (emu s))) s)
  else if String.eqb cmd_type "joystick" then cmd_joystick cmd s
  else if String.eqb cmd_type "paddle" then cmd_paddle cmd s
  else if String.eqb cmd_type "consol" then cmd_consol cmd s
  (* === SCREEN === *)
  else if String.eqb cmd_type "screenshot" then cmd_screenshot cmd s
  else if String.eqb cmd_type "screen_ascii" then cmd_screen_ascii s
  else if String.eqb cmd_type "screen_raw" then cmd_screen_raw s
  (* === MEMORY === *)
  else if String.eqb cmd_type "peek" then cmd_peek cmd s
  else if String.eqb cmd_type "poke" then cmd_poke cmd s
  else if String.eqb cmd_type "dump" then cmd_dump cmd s
  (* === CPU === *)
  else if String.eqb cmd_type "cpu" then cmd_cpu s
  else if String.eqb cmd_type "cpu_set" then cmd_cpu_set cmd s
  (* === CHIPS === *)
  else if String.eqb cmd_type "antic" then cmd_antic s
  else if String.eqb cmd_type "gtia" then cmd_gtia s
  else if String.eqb cmd_type "pokey" then cmd_pokey s
  else if String.eqb cmd_type "pia" then cmd_pia s
  (* === DEBUG === *)
  else if String.eqb cmd_type "debug_enable" then
    AI_SendResponse resp_ok (set_debug_port (json_get_int cmd "addr" 55295) s)
  else if String.eqb cmd_type "debug_read" then cmd_debug_read s
  (* === STATE === *)
  else if String.eqb cmd_type "save_state" then cmd_save_state cmd s
  else if String.eqb cmd_type "load_state" then cmd_load_state cmd s
  (* Unknown command *)
  else
    AI_SendResponse
      (format_response (resp_error ("Unknown command: " +:+ cmd_type))) s.


(* ===================================================================== *)
(** * Connection manager                                                 *)
(* ===================================================================== *)

(** What the header loop of [read_command] ends with. *)
Inductive header_result : Type :=
  | Header (text : string)   (* a line, or 31 bytes without a newline *)
  | NoHeader                 (* r <= 0 with EAGAIN: return 0 *)
  | Disconnected.            (* r == 0 or another errno: close, return 0 *)

(** [while (hpos < sizeof (header) - 1)] with [char header[32]]; [room]
    is [31 - hpos] and [acc] the bytes stored so far.  When the loop
    ends by its bound, [header[31]] was never written; the model reads
    the 31 bytes as the whole text. *)
Fixpoint read_header (room : nat) (q : list sock_ev) (acc : string)
  : header_result * list sock_ev :=
  match room with
  | O => (Header acc, q)
  | S room' =>
      match sys_read 1 q with
      | (Got c _, q') =>
          if Ascii.eqb c C.LF then (Header acc, q')
          else read_header room' q' (acc +:+ String c "")
      | (Closed, q') => (Disconnected, q')
      | (Failed, q') => (Disconnected, q')
      | (Again, q') => (NoHeader, q')
      end
  end.

(** [while (total < len)]: [need] is [len - total].  Every read that
    does not end the loop delivers a byte, so [len] bounds the
    iterations. *)
Fixpoint read_body (fuel : nat) (need : Z) (q : list sock_ev) (acc : string)
  : option string * list sock_ev :=
  if need <=? 0 then (Some acc, q)
  else
    match fuel with
    | O => (None, q)
    | S fuel' =>
        match sys_read need q with
        | (Got c more, q') =>
            read_body fuel' (need - 1 - C.strlen more) q' (acc +:+ String c more)
        | (_, q') => (None, q')
        end
    end.

(** Read command from client: the return value, the buffer when the
    return value is positive, and the state. *)
Definition read_command (bufsize : Z) (s : state) : Z * string * state :=
  if ai_client_fd s <? 0 then (0, "", s)
  else
    match read_header 31 (peer s) "" with
    | (Disconnected, q) =>
        (* Client disconnected *)
        (0, "", set_client_fd (-1) (sys_close (ai_client_fd s) (set_peer q s)))
    | (NoHeader, q) => (0, "", set_peer q s)
    | (Header header, q) =>
        let len := C.atoi header in
        if (len <=? 0) || (bufsize <=? len) then (0, "", set_peer q s)
        else
          match read_body (Z.to_nat len) len q "" with
          | (None, q') => (0, "", set_peer q' s)
          | (Some buf, q') => (len, buf, set_peer q' s)
          end
    end.

(** Check for and accept new connections. *)
Definition check_connections (s : state) : state :=
  if ai_server_fd s <? 0 then s
  else
    match backlog s with
    | [] => s
    | Quiet :: rest => set_backlog rest s
    | Incoming client script :: rest =>
        let s := set_backlog rest s in
        if 0 <=? client then
          let s := set_open_fds (client :: open_fds s) s in
          let s := if 0 <=? ai_client_fd s
                   then sys_close (ai_client_fd s) s (* Only one client at a time *)
                   else s in
          let s := set_peer script (set_client_fd client s) in
          set_paused true s (* Pause and wait for commands *)
        else s
    end.

(* ===================================================================== *)
(** * Start-up and shut-down                                             *)
(* ===================================================================== *)

(** The variables as their initialisers leave them, around an emulator
    [m] and a world in which [attempts] are the connection attempts that
    the polls of the listening socket will find. *)
Definition boot (m : machine hw) (attempts : list accept_ev) : state :=
  {| AI_enabled := false;
     AI_debug_port := 0;
     AI_socket_path := AI_SOCKET_PATH;
     AI_joy_override := [# -1; -1; -1; -1];
     AI_trig_override := [# -1; -1; -1; -1];
     ai_server_fd := -1;
     ai_client_fd := -1;
     ai_paused := true; (* Start paused, waiting for AI *)
     ai_frames_to_run := 0;
     ai_steps_to_run := 0;
     ai_debug_buffer := replicate (Z.to_nat AI_DEBUG_BUFFER_SIZE) 0;
     ai_debug_buffer_pos := 0;
     emu := m;
     peer := [];
     backlog := attempts;
     open_fds := [];
     sent := [] |}.

(** The argument loop of [AI_Initialise] from [argv[i]] on: the
    arguments that are left for the emulator, and the state. *)
Fixpoint parse_args (args : list string) (s : state) : list string * state :=
  match args with
  | [] => ([], s)
  | a :: rest =>
      if String.eqb a "-ai" then parse_args rest (set_enabled true s)
      else if String.eqb a "-ai-run" then
        parse_args rest (set_paused false (set_enabled true s)) (* Don't start paused *)
      else
        match rest with
        | v :: rest' =>
            if String.eqb a "-ai-socket" then
              parse_args rest' (set_socket_path (C.truncate 255 (C.c_str v)) s)
            else if String.eqb a "-ai-debug-port" then
              parse_args rest' (set_debug_port (C.to_int (strtol0 v)) s)
            else let (kept, s) := parse_args rest s in (a :: kept, s)
        | [] => ([a], s)
        end
  end.

(** [listening] is the descriptor that socket(), bind() and listen()
    produce, negative when one of them fails. *)
Definition setup_server_socket (listening : Z) (s : state) : Z * state :=
  if listening <? 0 then (0, set_server_fd (-1) s)
  else (1, set_server_fd listening s).

(** Initialize AI interface: the return value, the new [argv], the state. *)
Definition AI_Initialise (argv : list string) (listening : Z) (s : state)
  : Z * list string * state :=
  let '(kept, s) := parse_args (tail argv) s in
  let argv := take 1 argv ++ kept in
  if AI_enabled s then
    let (ok, s) := setup_server_socket listening s in
    if ok =? 0 then (0, argv, set_enabled false s) else (1, argv, s)
  else (1, argv, s).

(** Cleanup. *)
Definition AI_Exit (s : state) : state :=
  let s := if 0 <=? ai_client_fd s
           then set_client_fd (-1) (sys_close (ai_client_fd s) s) else s in
  if 0 <=? ai_server_fd s then set_server_fd (-1) s else s.

(* ===================================================================== *)
(** * Frame-stepping scheduler                                           *)
(* ===================================================================== *)

(** If we were running frames, decrement and check. *)
Definition AI_Frame_countdown (s : state) : state :=
  if 0 <? ai_frames_to_run s then
    let s := set_frames_to_run (ai_frames_to_run s - 1) s in
    if ai_frames_to_run s =? 0 then
      AI_SendResponse (format_response resp_frames_run) (set_paused true s)
    else s
  else s.

(** The guard of the loop that processes commands while paused. *)
Definition waiting (s : state) : bool :=
  ai_paused s && (0 <=? ai_client_fd s).

(** One iteration of that loop. *)
Definition AI_Frame_poll (s : state) : state :=
  let '(len, cmd_buf, s) := read_command AI_BUFFER_SIZE s in
  let s := if 0 <? len then process_command cmd_buf s
           else s (* No command available, wait a bit *) in
  check_connections s.

(** The loop; [None] when it is still waiting after [fuel] iterations. *)
Fixpoint AI_Frame_loop (fuel : nat) (s : state) : option state :=
  if waiting s then
    match fuel with
    | O => None
    | S fuel' => AI_Frame_loop fuel' (AI_Frame_poll s)
    end
  else Some s.

(** Process AI commands each frame. *)
Definition AI_Frame (fuel : nat) (s : state) : option state :=
  if negb (AI_enabled s) then Some s
  else AI_Frame_loop fuel (AI_Frame_countdown (check_connections s)).

(** Check if AI is paused. *)
Definition AI_IsPaused (s : state) : bool := AI_enabled s && ai_paused s.

(** [k] calls of [AI_Frame], the emulator running a frame after each. *)
Fixpoint frames (k : nat) (fuel : nat) (s : state) : option state :=
  match k with
  | O => Some s
  | S k' => AI_Frame fuel s ≫= frames k' fuel
  end.

(* ===================================================================== *)
(** * Input override layer                                               *)
(* ===================================================================== *)

(** [b &= ~(0x0F << shift); b |= (v << shift);] on a [UBYTE] [b]. *)
Definition replace_nibble (b v shift : Z) : Z :=
  C.UBYTE (Z.lor (C.UBYTE (Z.land b (Z.lnot (Z.shiftl 15 shift)))) (Z.shiftl v shift)).

(** [pia_idx = (i < 2) ? 0 : 1] and [shift = (i & 1) * 4]. *)
Definition pia_index (i : fin 4) : fin 2 :=
  if Z.of_nat (fin_to_nat i) <? 2 then 0%fin else 1%fin.
Definition pia_shift (i : fin 4) : Z := Z.land (Z.of_nat (fin_to_nat i)) 1 * 4.

(** The body of the loop of [AI_ApplyInput] for port [i]: it reads the
    two override tables and writes the emulator's input registers. *)
Definition apply_port (joy trig : vec Z 4) (m : machine hw) (i : fin 4)
  : machine hw :=
  let m :=
    (* Apply joystick override *)
    if 0 <=? joy !!! i then
      set_PIA_PORT_input
        (vinsert (pia_index i)
           (replace_nibble (PIA_PORT_input m !!! pia_index i) (joy !!! i) (pia_shift i))
           (PIA_PORT_input m)) m
    else m in
  (* Apply trigger override *)
  if 0 <=? trig !!! i then
    set_GTIA_TRIG (vinsert i (C.UBYTE (trig !!! i)) (GTIA_TRIG m)) m
  else m.

Definition ports : list (fin 4) := [0%fin; 1%fin; 2%fin; 3%fin].

(** Apply AI input overrides - call AFTER INPUT_Frame. *)
Definition AI_ApplyInput (s : state) : state :=
  if negb (AI_enabled s) then s
  else set_emu (foldl (apply_port (AI_joy_override s) (AI_trig_override s))
                  (emu s) ports) s.

(** The four direction lines of port [i], as the chips read them. *)
Definition nibble (b shift : Z) : Z := Z.land (Z.shiftr b shift) 15.

Definition stick_lines (m : machine hw) (i : fin 4) : Z :=
  nibble (PIA_PORT_input m !!! pia_index i) (pia_shift i).

(* ===================================================================== *)
(** * Executions                                                         *)
(* ===================================================================== *)

(** What can happen to the state between start-up and shut-down: the
    three parts of [AI_Frame], the two hooks the emulator calls, the
    emulator changing its own state, and the world changing what the
    peer and the listening socket hold. *)
Inductive op : Type :=
  | Connections
  | Countdown
  | Poll
  | ApplyInput
  | DebugWrite (byte : Z)
  | Emulator (m : machine hw)
  | Network (q : list sock_ev) (attempts : list accept_ev).

Definition run_op (o : op) (s : state) : state :=
  match o with
  | Connections => check_connections s
  | Countdown => AI_Frame_countdown s
  | Poll => if waiting s then AI_Frame_poll s else s
  | ApplyInput => AI_ApplyInput s
  | DebugWrite byte => AI_DebugWrite byte s
  | Emulator m => set_emu m s
  | Network q attempts => set_backlog attempts (set_peer q s)
  end.

Definition exec (ops : list op) (s : state) : state :=
  foldl (fun s o => run_op o s) s ops.

(** The states the program can be in: any execution from any start-up. *)
Definition reachable (s : state) : Prop :=
  exists m attempts argv listening ops,
    s = exec ops (AI_Initialise argv listening (boot m attempts)).2.

(* ===================================================================== *)
(** * The vocabulary of the properties                                  *)
(* ===================================================================== *)

(** ** What a handler can change, and what start-up leaves *)

(** A handler that stays outside the scheduler, the override table and
    the debug buffer: it changes the emulator and sends one response. *)
Definition emulator_only s s' : Prop :=
  exists json m, s' = AI_SendResponse json (set_emu m s).

(** What start-up leaves as the initialisers set it. *)
Definition pristine s : Prop :=
  AI_joy_override s = [# -1; -1; -1; -1] /\
  AI_trig_override s = [# -1; -1; -1; -1] /\
  ai_client_fd s = -1 /\
  ai_frames_to_run s = 0 /\
  ai_steps_to_run s = 0 /\
  ai_debug_buffer_pos s = 0 /\
  length (ai_debug_buffer s) = Z.to_nat AI_DEBUG_BUFFER_SIZE /\
  open_fds s = [] /\
  sent s = [].

(** ** The override table *)

Definition joy_ok (v : Z) : Prop := v = -1 \/ 0 <= v < 15.

Definition trig_ok (v : Z) : Prop := v = -1 \/ v = 0.

Definition overrides_ok s : Prop :=
  forall i : fin 4,
    joy_ok (AI_joy_override s !!! i) /\ trig_ok (AI_trig_override s !!! i).

(** The entries of port [p] in the two tables. *)
Definition entry (p : fin 4) s : Z * Z :=
  (AI_joy_override s !!! p, AI_trig_override s !!! p).

(** The request that the next iteration of the paused loop hands to
    [process_command], if it gets one. *)
Definition next_command s : option string :=
  if waiting s then
    if 0 <? (read_command AI_BUFFER_SIZE s).1.1
    then Some (read_command AI_BUFFER_SIZE s).1.2
    else None
  else None.

(** A joystick command that addresses port [p]. *)
Definition joystick_for (p : fin 4) cmd : Prop :=
  command_name cmd = "joystick" /\ index 4 (json_get_int cmd "port" 0) = Some p.

(** An execution in which no joystick command for port [p] is
    processed. *)
Fixpoint spares (p : fin 4) (ops : list op) s : Prop :=
  match ops with
  | [] => True
  | o :: rest =>
      (o = Poll -> forall cmd, next_command s = Some cmd -> ~ joystick_for p cmd) /\
      spares p rest (run_op o s)
  end.

(** ** The debug capture buffer *)

(** Strings written one after the other, and their total length. *)
Definition join (items : list string) : string := foldr String.append "" items.

Definition total (items : list string) : Z :=
  foldr (fun it n => C.strlen it + n) 0 items.


(** ** Protocol errors *)

(** A header line is a text without a line feed. *)
Fixpoint one_line (text : string) : bool :=
  match text with
  | "" => true
  | String c rest => negb (Ascii.eqb c C.LF) && one_line rest
  end.

(** ** The scheduler *)

(** Polls of the listening socket that find no connection. *)
Definition quiet_attempts (b : list accept_ev) : Prop := Forall (fun e => e = Quiet) b.

(** An operation that brings no new connection attempt. *)
Definition calm (o : op) : Prop :=
  match o with
  | Network _ b => quiet_attempts b
  | _ => True
  end.

(** Counting down [n] frames for the session on [fd], with [out] sent so
    far and no connection attempt ahead. *)
Definition running (n : Z) (out : list (Z * string)) (fd : Z) s : Prop :=
  AI_enabled s = true /\ ai_paused s = false /\ ai_frames_to_run s = n /\
  backlog s = [] /\ sent s = out /\ ai_client_fd s = fd.

(** Left running by a step command for [n] instructions, with [out]
    sent so far. *)
Definition stepping (n : Z) (out : list (Z * string)) s : Prop :=
  ai_paused s = false /\ ai_frames_to_run s = 0 /\ ai_steps_to_run s = n /\
  sent s = out /\ quiet_attempts (backlog s).

(** The scheduler within one session: either no instruction count is
    pending and a paused scheduler has no frame count pending, or no
    frame count is pending and the scheduler is not paused. *)
Definition one_pending s : Prop :=
  (ai_steps_to_run s = 0 /\ (ai_paused s = true -> ai_frames_to_run s = 0)) \/
  (ai_frames_to_run s = 0 /\ ai_paused s = false).

Definition single_session s : Prop := one_pending s /\ quiet_attempts (backlog s).

(** The response that would report [n] frames. *)
Definition frames_run_report (n : Z) : string :=
  "{" +:+ status_ok +:+ "," +:+ quoted "frames_run" +:+ ":" +:+ C.dec n +:+ "}".

End Server.

(* ===================================================================== *)
(** * A test bench                                                       *)
(* ===================================================================== *)

(** An emulator with no hardware behind it, for running the server on
    concrete inputs: constants with the values of the atari800 headers,
    registers and memory that read as zero, loaders that fail. *)
Definition bench : Collaborators :=
  {| hw := unit;
     AKEY_NONE := -1;
     INPUT_CONSOL_NONE := 7;
     INPUT_CONSOL_START := 1;
     INPUT_CONSOL_SELECT := 2;
     INPUT_CONSOL_OPTION := 4;
     Screen_WIDTH := 384;
     Screen_HEIGHT := 240;
     Screen_atari := fun _ _ => 0;
     Screen_SaveScreenshot := fun _ _ => 0;
     CPU_N_FLAG := 128; CPU_V_FLAG := 64; CPU_B_FLAG := 16; CPU_D_FLAG := 8;
     CPU_I_FLAG := 4; CPU_Z_FLAG := 2; CPU_C_FLAG := 1;
     CPU_GetStatus := fun m => m;
     CPU_PutStatus := fun m => m;
     reg := fun _ _ => 0;
     set_reg := fun _ _ m => m;
     MEMORY_SafeGetByte := fun _ _ => 0;
     MEMORY_PutByte := fun _ _ m => m;
     Atari800_Coldstart := fun m => m;
     BINLOAD_Loader := fun _ m => (0, m);
     StateSav_SaveAtariState := fun _ _ => 0;
     StateSav_ReadAtariState := fun _ m => (0, m);
     fopen_wb := fun _ _ => false;
     time_now := fun _ => 0;
     strtol0 := fun _ => 0 |}.

(** The bench machine after a hardware poll with nothing pressed: both
    sticks of each PIA port centred, triggers released. *)
Definition idle : machine unit :=
  {| PIA_PORT_input := [# 255; 255];
     GTIA_TRIG := [# 1; 1; 1; 1];
     POKEY_POT_input := [# 228; 228; 228; 228; 228; 228; 228; 228];
     INPUT_key_code := -1;
     INPUT_key_shift := 0;
     INPUT_key_consol := 7;
     hardware := tt |}.

(** A request as the peer writes it: the length line, then the payload. *)
Definition script_of (text : string) : list sock_ev :=
  map Data (list_ascii_of_string text).

Definition request (payload : string) : list sock_ev :=
  script_of (wire payload).

(** The bench server started with [-ai], listening on descriptor 3, with
    the connection attempts [attempts] ahead of it. *)
Definition started (attempts : list accept_ev) : state (K := bench) :=
  (AI_Initialise (K := bench) ["atari800"; "-ai"] 3 (boot (K := bench) idle attempts)).2.

(** Requests used as concrete inputs. *)
Definition object (fields : list (string * string)) : string :=
  "{" +:+ String.concat "," (map (fun kv => quoted kv.1 +:+ ":" +:+ kv.2) fields) +:+ "}".

Definition run_cmd (n : string) : string :=
  object [("cmd", quoted "run"); ("frames", n)].
Definition step_cmd (n : string) : string :=
  object [("cmd", quoted "step"); ("instructions", n)].
Definition joystick_cmd (port dir fire : string) : string :=
  object [("cmd", quoted "joystick"); ("port", port);
          ("direction", quoted dir); ("fire", fire)].
Definition paddle_cmd (port value : string) : string :=
  object [("cmd", quoted "paddle"); ("port", port); ("value", value)].

(** The bench server with the peer on descriptor 5 attached, paused and
    waiting for a request; the peer will deliver [script]. *)
Definition attached (script : list sock_ev) : state (K := bench) :=
  check_connections (K := bench) (started [Incoming 5 script]).

(** Whether a response carries the error status. *)
Definition is_error (json : string) : bool :=
  String.prefix ("{" +:+ status_error) json.

(* ===================================================================== *)
(** * The vocabulary of the further properties                           *)
(* ===================================================================== *)

(** ** Messages as a client writes them *)

(** A string value as a client writes it between the quotes: a backslash
    before every double quote and every backslash. *)
Fixpoint escape (v : string) : string :=
  match v with
  | "" => ""
  | String c v' =>
      if Ascii.eqb c C.DQUOTE || Ascii.eqb c C.BSLASH
      then String C.BSLASH (String c (escape v'))
      else String c (escape v')
  end.

(** A text without a NUL character. *)
Fixpoint nul_free (s : string) : bool :=
  match s with
  | "" => true
  | String c s' => negb (Ascii.eqb c C.NUL) && nul_free s'
  end.

(** Blanks and tabs only. *)
Fixpoint blank (s : string) : bool :=
  match s with
  | "" => true
  | String c s' => (Ascii.eqb c C.SPACE || Ascii.eqb c C.TAB) && blank s'
  end.

(** The first occurrence of [needle] in [pre ++ needle] is the one at
    the end: [needle] does not occur earlier, not even overlapping. *)
Definition first_at (pre needle : string) : bool :=
  match C.strstr (pre +:+ needle) needle with
  | Some p => String.eqb p needle
  | None => false
  end.

(** The text does not go on with a digit. *)
Definition ends_number (rest : string) : bool :=
  match rest with
  | "" => true
  | String c _ => negb (C.isdigit c)
  end.

(** A number array as a client writes it. *)
Definition array_text (values : list Z) : string :=
  "[" +:+ String.concat "," (map C.dec values) +:+ "]".

(** The text after the first value of an array: more values, each
    after a comma, then the closing bracket. *)
Fixpoint more_values (values : list Z) (post : string) : string :=
  match values with
  | [] => "]" +:+ post
  | v :: rest => "," +:+ C.dec v +:+ more_values rest post
  end.


(** ** Reading Base64 back *)

(** The position of a character in the alphabet. *)
Fixpoint b64_find (c : ascii) (table : string) (k : Z) : option Z :=
  match table with
  | "" => None
  | String a rest => if Ascii.eqb a c then Some k else b64_find c rest (k + 1)
  end.

Definition b64_value (c : ascii) : option Z := b64_find c b64_table 0.

(** The three bytes that four 6-bit values stand for. *)
Definition b64_group (x y z w : Z) : list Z :=
  let n := ((x * 64 + y) * 64 + z) * 64 + w in
  [n / 65536; n / 256 mod 256; n mod 256].

(** A decoder for groups of four characters, with "=" in a last group
    for the bytes it lacks. *)
Fixpoint base64_decode (text : string) : option (list Z) :=
  match text with
  | "" => Some []
  | String a (String b (String c (String d rest))) =>
      match b64_value a, b64_value b with
      | Some x, Some y =>
          if Ascii.eqb c "=" then
            if Ascii.eqb d "=" && is_empty rest
            then Some (take 1 (b64_group x y 0 0)) else None
          else
            match b64_value c with
            | Some z =>
                if Ascii.eqb d "=" then
                  if is_empty rest then Some (take 2 (b64_group x y z 0)) else None
                else
                  match b64_value d, base64_decode rest with
                  | Some w, Some bytes => Some (b64_group x y z w ++ bytes)
                  | _, _ => None
                  end
            | None => None
            end
      | _, _ => None
      end
  | _ => None
  end.

(** The number of groups for [len] bytes. *)
Definition b64_groups (len : nat) : Z := (Z.of_nat len + 2) / 3.

(** ** The state of the server *)

(** The options that [AI_Initialise] takes out of the command line. *)
Definition ai_options : list string :=
  ["-ai"; "-ai-socket"; "-ai-debug-port"; "-ai-run"].

Section Vocabulary.

Context {K : Collaborators}.
Implicit Types (s : state) (cmd json : string) (m : machine hw).


(** What a handler leaves alone: the session and the start-up settings. *)
Definition same_session s s' : Prop :=
  ai_client_fd s' = ai_client_fd s /\ ai_server_fd s' = ai_server_fd s /\
  peer s' = peer s /\ backlog s' = backlog s /\ open_fds s' = open_fds s /\
  AI_enabled s' = AI_enabled s /\ AI_socket_path s' = AI_socket_path s.



(** The debug buffer within its array. *)
Definition debug_buffer_ok s : Prop :=
  0 <= ai_debug_buffer_pos s <= AI_DEBUG_BUFFER_SIZE /\
  length (ai_debug_buffer s) = Z.to_nat AI_DEBUG_BUFFER_SIZE /\
  Forall (fun b => 0 <= b < 256) (ai_debug_buffer s).

(** At most one client descriptor is open, and it is the current one. *)
Definition fds_ok s : Prop :=
  -1 <= ai_client_fd s /\ -1 <= ai_server_fd s /\
  (open_fds s = [] \/ (open_fds s = [ai_client_fd s] /\ 0 <= ai_client_fd s)).

(** Paused with a client attached that has nothing to say, and no
    connection attempt ahead. *)
Definition idle_wait s : Prop :=
  ai_paused s = true /\ 0 <= ai_client_fd s /\ peer s = [] /\ backlog s = [].

(** Running with no frame count to count down, [out] sent so far and no
    connection attempt ahead. *)
Definition free_running (out : list (Z * string)) s : Prop :=
  ai_paused s = false /\ ai_frames_to_run s <= 0 /\ sent s = out /\
  quiet_attempts (backlog s).

(** The offset into the screen buffer that [sample] reads for the cell
    at [row], [col]: the clamped coordinates of lines 191 to 200. *)
Definition pixel_offset (row col : Z) : Z :=
  let sx := Z.quot (col * 336) 40 + 24 in
  let sy := Z.quot (row * 192) 24 + 24 in
  let sx := if sx <? 0 then 0 else sx in
  let sx := if Screen_WIDTH <=? sx then Screen_WIDTH - 1 else sx in
  let sy := if sy <? 0 then 0 else sy in
  let sy := if Screen_HEIGHT <=? sy then Screen_HEIGHT - 1 else sy in
  sy * Screen_WIDTH + sx.

(** One row of the picture as a JSON string of 40 characters. *)
Definition ascii_line m (row : Z) : string :=
  quoted (join (map (sample m row) (seqZ 0 40))).

(** The screen buffer as bytes. *)
Definition screen_bytes m : list Z :=
  map (fun k => C.UBYTE (Screen_atari m k)) (seqZ 0 (Screen_WIDTH * Screen_HEIGHT)).

(** The response to [screen_raw] that carries the text [b64]. *)
Definition screen_raw_text (b64 : string) : string :=
  "{" +:+ status_ok +:+ "," +:+ quoted "width" +:+ ":" +:+ C.dec Screen_WIDTH
      +:+ "," +:+ quoted "height" +:+ ":" +:+ C.dec Screen_HEIGHT
      +:+ "," +:+ quoted "data" +:+ ":" +:+ quoted b64 +:+ "}".

(** The path that [screenshot] falls back to. *)
Definition default_screenshot_path m : string :=
  C.snprintf 512 ("/tmp/atari800_ai_" +:+ C.dec (time_now m) +:+ ".png").

(** Writing [values] to consecutive addresses from [addr] on, in the
    64K address space. *)
Fixpoint put_bytes (addr : Z) (values : list Z) m : machine hw :=
  match values with
  | [] => m
  | v :: rest =>
      put_bytes (addr + 1) rest (MEMORY_PutByte (addr mod 65536) (v mod 256) m)
  end.

(** The response to [peek] for the bytes [data] read from [addr] on,
    with nothing cut short. *)
Definition peek_text (addr : Z) (data : list Z) : string :=
  "{" +:+ status_ok +:+ "," +:+ quoted "addr" +:+ ":" +:+ C.dec addr
      +:+ "," +:+ quoted "data" +:+ ":[" +:+ join (imap nth_item data) +:+ "]}".

End Vocabulary.

(* ===================================================================== *)
(** * Properties of the message codec                                    *)
(* ===================================================================== *)

Lemma truncate_all (room : Z) (s : string) :
  C.strlen s <= room -> C.truncate room s = s.
Proof.
  unfold C.strlen. revert room.
  induction s as [|c s IH]; intros room Hlen; simpl in *; [reflexivity|].
  destruct (Z.leb_spec room 0); [lia|].
  f_equal. apply IH. lia.
Qed.

Lemma copy_value_length (p : string) (room : Z) :
  0 <= room -> C.strlen (copy_value p room) <= room.
Proof.
  unfold C.strlen.
  remember (String.length p) as n eqn:Hn.
  revert p room Hn.
  induction (lt_wf n) as [n _ IH]; intros p room -> Hroom.
  destruct p as [|c p]; simpl; [lia|].
  destruct (Ascii.eqb c C.DQUOTE); simpl; [lia|].
  destruct (Z.leb_spec room 0); simpl; [lia|].
  destruct (Ascii.eqb c C.BSLASH).
  - destruct p as [|c' p]; simpl; [lia|].
    specialize (IH (String.length p) ltac:(simpl; lia) p (room - 1) eq_refl). lia.
  - specialize (IH (String.length p) ltac:(simpl; lia) p (room - 1) eq_refl).
    simpl. lia.
Qed.


Lemma append_nil (b : string) : "" +:+ b = b.
Proof. reflexivity. Qed.

Lemma append_cons (c : ascii) (a b : string) : String c a +:+ b = String c (a +:+ b).
Proof. reflexivity. Qed.

Lemma append_assoc (a b c : string) : (a +:+ b) +:+ c = a +:+ (b +:+ c).
Proof.
  induction a as [|x a IH]; [reflexivity|].
  rewrite !append_cons, IH. reflexivity.
Qed.

Lemma append_nil_r (a : string) : a +:+ "" = a.
Proof.
  induction a as [|x a IH]; [reflexivity|]. rewrite append_cons, IH. reflexivity.
Qed.

Lemma strlen_app (a b : string) : C.strlen (a +:+ b) = C.strlen a + C.strlen b.
Proof.
  unfold C.strlen. induction a as [|c a IH].
  - rewrite append_nil. simpl String.length. lia.
  - rewrite append_cons. simpl String.length. lia.
Qed.








(* ===================================================================== *)
(** * What the handlers change                                           *)
(* ===================================================================== *)

Section Properties.

Context {K : Collaborators}.
Implicit Types (s : state) (cmd json : string) (m : machine hw).

Lemma AI_SendResponse_attached json s :
  0 <= ai_client_fd s ->
  AI_SendResponse json s = set_sent (sent s ++ [(ai_client_fd s, wire json)]) s.
Proof.
  intros Hfd. unfold AI_SendResponse.
  destruct (Z.ltb_spec (ai_client_fd s) 0); [lia|reflexivity].
Qed.

Ltac emulator_only_tac :=
  solve [ eexists _, _; reflexivity
        | eexists _, _; unfold AI_SendResponse, set_emu; cbn; reflexivity ].

Lemma process_command_cases cmd s :
  (command_name cmd = "run" /\
   process_command cmd s
   = set_paused false (set_frames_to_run (json_get_int cmd "frames" 1) s)) \/
  (command_name cmd = "step" /\
   process_command cmd s
   = set_paused false (set_steps_to_run (json_get_int cmd "instructions" 1) s)) \/
  (command_name cmd = "pause" /\
   process_command cmd s = AI_SendResponse resp_ok (set_paused true s)) \/
  (command_name cmd = "joystick" /\ process_command cmd s = cmd_joystick cmd s) \/
  (command_name cmd = "debug_enable" /\
   process_command cmd s
   = AI_SendResponse resp_ok (set_debug_port (json_get_int cmd "addr" 55295) s)) \/
  (command_name cmd = "debug_read" /\ process_command cmd s = cmd_debug_read s) \/
  (command_name cmd <> "run" /\ command_name cmd <> "step" /\
   command_name cmd <> "pause" /\ command_name cmd <> "joystick" /\
   command_name cmd <> "debug_enable" /\ command_name cmd <> "debug_read" /\
   emulator_only s (process_command cmd s)).
Proof.
  destruct s. unfold process_command.
  repeat match goal with
         | |- context [String.eqb (command_name cmd) ?lit] =>
             destruct (String.eqb_spec (command_name cmd) lit) as [?E|?N]
         end;
    try (match goal with E : command_name cmd = _ |- _ => rewrite E in * end);
    first
      [ left; split; reflexivity
      | do 1 right; left; split; reflexivity
      | do 2 right; left; split; reflexivity
      | do 3 right; left; split; reflexivity
      | do 4 right; left; split; reflexivity
      | do 5 right; left; split; reflexivity
      | do 6 right; repeat (split; [discriminate || assumption|]) ];
    unfold cmd_load, cmd_paddle, cmd_consol, cmd_screenshot, cmd_screen_ascii,
      cmd_screen_raw, cmd_peek, cmd_poke, cmd_dump, cmd_cpu, cmd_cpu_set,
      cmd_antic, cmd_gtia, cmd_pokey, cmd_pia, cmd_save_state, cmd_load_state;
    repeat case_match; emulator_only_tac.
Qed.

(** Executions preserve what every operation preserves. *)
Lemma exec_invariant (P : state -> Prop) :
  (forall o s, P s -> P (run_op o s)) ->
  forall ops s, P s -> P (exec ops s).
Proof.
  intros Hstep ops. unfold exec.
  induction ops as [|o ops IH]; intros s Hs; simpl; [exact Hs|].
  apply IH, Hstep, Hs.
Qed.

Lemma exec_app (ops1 ops2 : list op) s :
  exec (ops1 ++ ops2) s = exec ops2 (exec ops1 s).
Proof. unfold exec. apply foldl_app. Qed.

(** Start-up preserves what the assignments of the flags preserve. *)
Lemma parse_args_preserves (P : state -> Prop) :
  (forall v s, P s -> P (set_enabled v s)) ->
  (forall v s, P s -> P (set_paused v s)) ->
  (forall v s, P s -> P (set_socket_path v s)) ->
  (forall v s, P s -> P (set_debug_port v s)) ->
  forall args s, P s -> P (parse_args args s).2.
Proof.
  intros He Hp Hs Hd args.
  remember (length args) as n eqn:Hn. revert args Hn.
  induction (lt_wf n) as [n _ IH]; intros args -> s HP.
  destruct args as [|a rest]; simpl; [exact HP|].
  destruct (String.eqb a "-ai").
  { apply (IH (length rest)); simpl; auto with lia. }
  destruct (String.eqb a "-ai-run").
  { apply (IH (length rest)); simpl; auto with lia. }
  destruct rest as [|v rest']; [exact HP|].
  destruct (String.eqb a "-ai-socket").
  { apply (IH (length rest')); simpl; auto with lia. }
  destruct (String.eqb a "-ai-debug-port").
  { apply (IH (length rest')); simpl; auto with lia. }
  specialize (IH (length (v :: rest')) ltac:(simpl; lia) (v :: rest') eq_refl s HP).
  destruct (parse_args (v :: rest') s) as [kept s']. exact IH.
Qed.

Lemma AI_Initialise_preserves (P : state -> Prop) :
  (forall v s, P s -> P (set_enabled v s)) ->
  (forall v s, P s -> P (set_paused v s)) ->
  (forall v s, P s -> P (set_socket_path v s)) ->
  (forall v s, P s -> P (set_debug_port v s)) ->
  (forall v s, P s -> P (set_server_fd v s)) ->
  forall argv listening s, P s -> P (AI_Initialise argv listening s).2.
Proof.
  intros He Hp Hs Hd Hf argv listening s HP. unfold AI_Initialise.
  pose proof (parse_args_preserves P He Hp Hs Hd (tail argv) s HP) as Hargs.
  destruct (parse_args (tail argv) s) as [kept s']. simpl in Hargs.
  destruct (AI_enabled s'); [|exact Hargs].
  unfold setup_server_socket.
  destruct (listening <? 0); simpl; auto.
Qed.

Lemma AI_Initialise_pristine argv listening m attempts :
  pristine (AI_Initialise argv listening (boot m attempts)).2.
Proof.
  apply AI_Initialise_preserves; try (intros v s H; exact H).
  unfold pristine, boot; simpl.
  repeat split; first [apply length_replicate | reflexivity].
Qed.

(** ** The override table *)

Lemma stick_of_direction_range (dir : string) :
  5 <= stick_of_direction dir <= 15.
Proof.
  unfold stick_of_direction.
  repeat case_match; vm_compute; split; discriminate.
Qed.

(** The tables after a joystick command, entry by entry. *)
Lemma cmd_joystick_tables cmd s (j : fin 4) :
  let stick := stick_of_direction (get_string_into cmd "direction" 16) in
  let hit := bool_decide (index 4 (json_get_int cmd "port" 0) = Some j) in
  AI_joy_override (cmd_joystick cmd s) !!! j
  = (if hit then (if stick =? INPUT_STICK_CENTRE then -1 else stick)
     else AI_joy_override s !!! j) /\
  AI_trig_override (cmd_joystick cmd s) !!! j
  = (if hit then (if json_get_bool cmd "fire" 0 =? 0 then -1 else 0)
     else AI_trig_override s !!! j).
Proof.
  intros stick hit. subst stick hit. unfold cmd_joystick.
  destruct (index 4 (json_get_int cmd "port" 0)) as [i|] eqn:Hi.
  - assert (Hr : (0 <=? json_get_int cmd "port" 0) && (json_get_int cmd "port" 0 <? 4)
                 = true).
    { unfold index in Hi.
      destruct (Z.ltb_spec (json_get_int cmd "port" 0) 0); [discriminate|].
      apply andb_true_intro; split; [lia|].
      apply Z.ltb_lt.
      destruct (Z.to_nat (json_get_int cmd "port" 0)) as [|[|[|[|n]]]] eqn:Hn;
        try lia. simpl in Hi. discriminate. }
    rewrite Hr. unfold AI_SendResponse.
    case_bool_decide as Hd.
    + injection Hd as ->.
      destruct (ai_client_fd _ <? 0); simpl; rewrite !vlookup_insert; auto.
    + assert (i <> j) by congruence.
      destruct (ai_client_fd _ <? 0); simpl; rewrite !vlookup_insert_ne; auto.
  - rewrite bool_decide_eq_false_2 by discriminate.
    unfold AI_SendResponse.
    destruct ((0 <=? _) && _); destruct (ai_client_fd _ <? 0); auto.
Qed.

Lemma AI_SendResponse_tables json s :
  AI_joy_override (AI_SendResponse json s) = AI_joy_override s /\
  AI_trig_override (AI_SendResponse json s) = AI_trig_override s.
Proof. unfold AI_SendResponse. destruct (_ <? _); auto. Qed.

(** Only the joystick command writes the override table. *)
Lemma process_command_tables cmd s :
  command_name cmd <> "joystick" ->
  AI_joy_override (process_command cmd s) = AI_joy_override s /\
  AI_trig_override (process_command cmd s) = AI_trig_override s.
Proof.
  intros Hne.
  destruct (process_command_cases cmd s)
    as [[_ ->]|[[_ ->]|[[_ ->]|[[E _]|[[_ ->]|[[_ ->]|(_&_&_&_&_&_&json&m&->)]]]]]];
    try unfold cmd_debug_read;
    first [ exact (AI_SendResponse_tables _ _) | split; reflexivity | congruence ].
Qed.

Lemma process_command_joystick cmd s :
  command_name cmd = "joystick" -> process_command cmd s = cmd_joystick cmd s.
Proof. unfold process_command. intros ->. reflexivity. Qed.

Lemma process_command_paddle cmd s :
  command_name cmd = "paddle" -> process_command cmd s = cmd_paddle cmd s.
Proof. unfold process_command. intros ->. reflexivity. Qed.

Lemma process_command_run cmd s :
  command_name cmd = "run" ->
  process_command cmd s
  = set_paused false (set_frames_to_run (json_get_int cmd "frames" 1) s).
Proof. unfold process_command. intros ->. reflexivity. Qed.

Lemma process_command_step cmd s :
  command_name cmd = "step" ->
  process_command cmd s
  = set_paused false (set_steps_to_run (json_get_int cmd "instructions" 1) s).
Proof. unfold process_command. intros ->. reflexivity. Qed.


(** Reads a field through the field assignments around it. *)
Ltac fields :=
  cbn [AI_enabled AI_debug_port AI_socket_path AI_joy_override AI_trig_override
       ai_server_fd ai_client_fd ai_paused ai_frames_to_run ai_steps_to_run
       ai_debug_buffer ai_debug_buffer_pos emu peer backlog open_fds sent
       set_enabled set_socket_path set_server_fd set_debug_port set_joy_override
       set_trig_override set_client_fd set_paused set_frames_to_run
       set_steps_to_run set_debug_buffer set_debug_buffer_pos set_emu set_peer
       set_backlog set_open_fds set_sent].

(** [read_command] touches the session only: the pending input, the
    client descriptor and the set of open descriptors. *)
Lemma read_command_shape (bufsize : Z) s :
  exists q c o,
    (read_command bufsize s).2 = set_open_fds o (set_client_fd c (set_peer q s)).
Proof.
  unfold read_command, sys_close.
  destruct (ai_client_fd s <? 0).
  { exists (peer s), (ai_client_fd s), (open_fds s). destruct s; reflexivity. }
  destruct (read_header 31 (peer s) "") as [[header| |] q].
  - destruct (_ || _).
    { exists q, (ai_client_fd s), (open_fds s). destruct s; reflexivity. }
    destruct (read_body _ _ _ _) as [[buf|] q'];
      exists q', (ai_client_fd s), (open_fds s); destruct s; reflexivity.
  - exists q, (ai_client_fd s), (open_fds s). destruct s; reflexivity.
  - exists q, (-1), (filter (fun x => x ≠ ai_client_fd s) (open_fds s)).
    destruct s; reflexivity.
Qed.

(** [check_connections] touches the session and the pause flag. *)
Lemma check_connections_shape s :
  exists b q c o p,
    check_connections s
    = set_paused p (set_open_fds o (set_client_fd c (set_peer q (set_backlog b s)))).
Proof.
  unfold check_connections.
  destruct (ai_server_fd s <? 0).
  { exists (backlog s), (peer s), (ai_client_fd s), (open_fds s), (ai_paused s).
    destruct s; reflexivity. }
  destruct (backlog s) as [|[|client script] rest] eqn:Hb.
  - exists [], (peer s), (ai_client_fd s), (open_fds s), (ai_paused s).
    destruct s; simpl in *; subst; reflexivity.
  - exists rest, (peer s), (ai_client_fd s), (open_fds s), (ai_paused s).
    destruct s; reflexivity.
  - destruct (0 <=? client).
    + unfold sys_close. destruct (0 <=? ai_client_fd _).
      * exists rest, script, client,
          (filter (fun x => x ≠ ai_client_fd s) (client :: open_fds s)), true.
        destruct s; reflexivity.
      * exists rest, script, client, (client :: open_fds s), true.
        destruct s; reflexivity.
    + exists rest, (peer s), (ai_client_fd s), (open_fds s), (ai_paused s).
      destruct s; reflexivity.
Qed.

(** The countdown touches the frame counter and the pause flag, and may
    send a response. *)
Lemma AI_Frame_countdown_shape s :
  exists n p out,
    AI_Frame_countdown s = set_sent out (set_paused p (set_frames_to_run n s)).
Proof.
  unfold AI_Frame_countdown.
  destruct (0 <? ai_frames_to_run s).
  - destruct (ai_frames_to_run _ =? 0).
    + unfold AI_SendResponse. destruct (ai_client_fd _ <? 0).
      * exists (ai_frames_to_run s - 1), true, (sent s). destruct s; reflexivity.
      * exists (ai_frames_to_run s - 1), true,
          (sent s ++ [(ai_client_fd s, wire (format_response resp_frames_run))]).
        destruct s; reflexivity.
    + exists (ai_frames_to_run s - 1), (ai_paused s), (sent s).
      destruct s; reflexivity.
  - exists (ai_frames_to_run s), (ai_paused s), (sent s). destruct s; reflexivity.
Qed.

(** [AI_ApplyInput] touches the emulator only. *)
Lemma AI_ApplyInput_shape s : exists m, AI_ApplyInput s = set_emu m s.
Proof.
  unfold AI_ApplyInput. destruct (negb (AI_enabled s)); [|eexists; reflexivity].
  exists (emu s). destruct s. reflexivity.
Qed.

(** The debug hook touches the debug buffer only. *)
Lemma AI_DebugWrite_shape (byte : Z) s :
  exists buf pos,
    AI_DebugWrite byte s = set_debug_buffer_pos pos (set_debug_buffer buf s).
Proof.
  unfold AI_DebugWrite. destruct (_ <? _).
  - exists (<[Z.to_nat (ai_debug_buffer_pos s) := C.UBYTE byte]> (ai_debug_buffer s)),
      (ai_debug_buffer_pos s + 1).
    destruct s; reflexivity.
  - exists (ai_debug_buffer s), (ai_debug_buffer_pos s). destruct s; reflexivity.
Qed.

(** One iteration of the paused loop in terms of its parts. *)
Lemma AI_Frame_poll_unfold s :
  AI_Frame_poll s
  = check_connections
      (if 0 <? (read_command AI_BUFFER_SIZE s).1.1
       then process_command (read_command AI_BUFFER_SIZE s).1.2
                            (read_command AI_BUFFER_SIZE s).2
       else (read_command AI_BUFFER_SIZE s).2).
Proof.
  unfold AI_Frame_poll. destruct (read_command AI_BUFFER_SIZE s) as [[len buf] s1].
  reflexivity.
Qed.

Lemma process_command_overrides_ok cmd s :
  overrides_ok s -> overrides_ok (process_command cmd s).
Proof.
  intros Hok i. destruct (Hok i) as [Hj Ht].
  destruct (decide (command_name cmd = "joystick")) as [E|N].
  - rewrite (process_command_joystick _ _ E).
    destruct (cmd_joystick_tables cmd s i) as [-> ->].
    pose proof (stick_of_direction_range (get_string_into cmd "direction" 16)).
    unfold joy_ok, trig_ok, INPUT_STICK_CENTRE.
    split; repeat case_match; auto; lia.
  - destruct (process_command_tables cmd s N) as [-> ->]. auto.
Qed.

Lemma run_op_overrides_ok (o : op) s : overrides_ok s -> overrides_ok (run_op o s).
Proof.
  intros Hok. destruct o; simpl.
  - destruct (check_connections_shape s) as (b&q&c&o&p&->). exact Hok.
  - destruct (AI_Frame_countdown_shape s) as (n&p&out&->). exact Hok.
  - destruct (waiting s); [|exact Hok].
    rewrite AI_Frame_poll_unfold.
    destruct (read_command_shape AI_BUFFER_SIZE s) as (q&c&o&Hs1).
    set (s1 := (read_command AI_BUFFER_SIZE s).2) in *.
    assert (Hok1 : overrides_ok s1) by (rewrite Hs1; exact Hok).
    match goal with |- overrides_ok (check_connections ?x) =>
      assert (Hx : overrides_ok x)
        by (destruct (0 <? _); [apply process_command_overrides_ok|]; exact Hok1);
      destruct (check_connections_shape x) as (b&q'&c'&o'&p'&->); exact Hx
    end.
  - destruct (AI_ApplyInput_shape s) as [m ->]. exact Hok.
  - destruct (AI_DebugWrite_shape byte s) as (buf&pos&->). exact Hok.
  - exact Hok.
  - exact Hok.
Qed.

Lemma reachable_overrides_ok s : reachable s -> overrides_ok s.
Proof.
  intros (m&attempts&argv&listening&ops&->).
  apply exec_invariant; [apply run_op_overrides_ok|].
  destruct (AI_Initialise_pristine argv listening m attempts) as (Hj&Ht&_).
  intros i. rewrite Hj, Ht. unfold joy_ok, trig_ok.
  inv_fin i; [|intros i; inv_fin i; [|intros i; inv_fin i; [|intros i; inv_fin i;
    [|intros i; inv_fin i]]]]; simpl; auto.
Qed.

(** ** The override nibble, bit by bit *)

Lemma UBYTE_testbit (a n : Z) :
  0 <= n -> Z.testbit (C.UBYTE a) n = (n <? 8) && Z.testbit a n.
Proof.
  intros Hn. unfold C.UBYTE. change 256 with (2 ^ 8).
  destruct (Z.ltb_spec n 8).
  - rewrite Z.mod_pow2_bits_low by lia. reflexivity.
  - rewrite Z.mod_pow2_bits_high by lia. reflexivity.
Qed.

Lemma fifteen_testbit (n : Z) : 0 <= n -> Z.testbit 15 n = (n <? 4).
Proof.
  intros Hn. change 15 with (Z.ones 4).
  destruct (Z.ltb_spec n 4).
  - apply Z.ones_spec_low. lia.
  - apply Z.ones_spec_high. lia.
Qed.

Lemma nibble_value_testbit (v n : Z) :
  0 <= v < 16 -> 4 <= n -> Z.testbit v n = false.
Proof.
  intros Hv Hn. destruct (Z.eq_dec v 0) as [->|Hz]; [apply Z.bits_0|].
  apply Z.bits_above_log2; [lia|].
  assert (Z.log2 v < 4); [|lia].
  apply Z.log2_lt_pow2; lia.
Qed.

Lemma replace_nibble_testbit (b v shift n : Z) :
  0 <= shift -> 0 <= n -> 0 <= v < 16 ->
  Z.testbit (replace_nibble b v shift) n
  = (n <? 8) && (if (shift <=? n) && (n <? shift + 4)
                 then Z.testbit v (n - shift) else Z.testbit b n).
Proof.
  intros Hsh Hn Hv. unfold replace_nibble.
  rewrite UBYTE_testbit by lia. rewrite Z.lor_spec.
  rewrite UBYTE_testbit by lia. rewrite Z.land_spec.
  rewrite Z.lnot_spec by lia. rewrite !Z.shiftl_spec by lia.
  destruct (Z.ltb_spec n 8); cbn [andb orb negb]; [|reflexivity].
  destruct (Z.leb_spec shift n); cbn [andb orb negb].
  - rewrite fifteen_testbit by lia.
    destruct (Z.ltb_spec n (shift + 4)), (Z.ltb_spec (n - shift) 4);
      try lia; cbn [andb orb negb].
    + rewrite andb_false_r. reflexivity.
    + rewrite andb_true_r. rewrite (nibble_value_testbit v) by lia.
      apply orb_false_r.
  - rewrite (Z.testbit_neg_r 15) by lia. rewrite (Z.testbit_neg_r v) by lia.
    cbn [andb orb negb]. rewrite andb_true_r, orb_false_r. reflexivity.
Qed.

Lemma nibble_testbit (b shift n : Z) :
  0 <= n -> Z.testbit (nibble b shift) n = (n <? 4) && Z.testbit b (n + shift).
Proof.
  intros Hn. unfold nibble.
  rewrite Z.land_spec, Z.shiftr_spec, fifteen_testbit by lia. apply andb_comm.
Qed.

(** All four bits of the nibble are the override's. *)
Lemma nibble_replaced (b v shift : Z) :
  shift = 0 \/ shift = 4 -> 0 <= v < 16 ->
  nibble (replace_nibble b v shift) shift = v.
Proof.
  intros Hsh Hv. apply Z.bits_inj'. intros n Hn.
  rewrite nibble_testbit, replace_nibble_testbit by lia.
  destruct (Z.ltb_spec n 4); cbn [andb orb negb].
  - replace (n + shift <? 8) with true by (symmetry; apply Z.ltb_lt; lia).
    replace (shift <=? n + shift) with true by (symmetry; apply Z.leb_le; lia).
    replace (n + shift <? shift + 4) with true by (symmetry; apply Z.ltb_lt; lia).
    cbn [andb orb negb]. f_equal. lia.
  - symmetry. apply nibble_value_testbit; lia.
Qed.

(** The other nibble of the byte keeps its four bits. *)
Lemma nibble_kept (b v shift : Z) :
  shift = 0 \/ shift = 4 -> 0 <= v < 16 ->
  nibble (replace_nibble b v shift) (4 - shift) = nibble b (4 - shift).
Proof.
  intros Hsh Hv. apply Z.bits_inj'. intros n Hn.
  rewrite !nibble_testbit, replace_nibble_testbit by lia.
  destruct (Z.ltb_spec n 4); cbn [andb orb negb]; [|reflexivity].
  replace (n + (4 - shift) <? 8) with true by (symmetry; apply Z.ltb_lt; lia).
  replace ((shift <=? n + (4 - shift)) && (n + (4 - shift) <? shift + 4))
    with false; [reflexivity|].
  symmetry. apply andb_false_iff.
  destruct Hsh as [-> | ->]; [right; apply Z.ltb_ge; lia|left; apply Z.leb_gt; lia].
Qed.

(** ** Applying the overrides *)

Lemma pia_shift_cases (i : fin 4) : pia_shift i = 0 \/ pia_shift i = 4.
Proof.
  inv_fin i; [|intros i; inv_fin i; [|intros i; inv_fin i; [|intros i; inv_fin i;
    [|intros i; inv_fin i]]]]; vm_compute; auto.
Qed.

(** Two ports either sit in different PIA bytes or in the two halves of
    the same byte. *)
Lemma ports_layout (i j : fin 4) :
  i <> j ->
  pia_index i <> pia_index j \/
  (pia_index i = pia_index j /\ pia_shift i = 4 - pia_shift j).
Proof.
  inv_fin i; [|intros i; inv_fin i; [|intros i; inv_fin i; [|intros i; inv_fin i;
    [|intros i; inv_fin i]]]];
  (inv_fin j; [|intros j; inv_fin j; [|intros j; inv_fin j; [|intros j; inv_fin j;
    [|intros j; inv_fin j]]]]);
  intros Hne; try congruence;
  first [ right; split; reflexivity | left; vm_compute; discriminate ].
Qed.

Lemma all_ports (i : fin 4) : i ∈ ports.
Proof.
  unfold ports.
  inv_fin i; [|intros i; inv_fin i; [|intros i; inv_fin i; [|intros i; inv_fin i;
    [|intros i; inv_fin i]]]]; repeat constructor.
Qed.

Lemma bool_decide_elem_of_cons (i j : fin 4) (l : list (fin 4)) :
  bool_decide (i ∈ j :: l) = bool_decide (i = j) || bool_decide (i ∈ l).
Proof.
  rewrite <- bool_decide_or. apply bool_decide_ext, elem_of_cons.
Qed.

Lemma apply_port_lines (joy trig : vec Z 4) m (j i : fin 4) :
  joy !!! j < 16 ->
  stick_lines (apply_port joy trig m j) i
  = if bool_decide (i = j) && (0 <=? joy !!! j) then joy !!! j else stick_lines m i.
Proof.
  intros Hr. unfold apply_port, stick_lines.
  assert (Hpia : forall m', PIA_PORT_input
            (if 0 <=? trig !!! j
             then set_GTIA_TRIG (vinsert j (C.UBYTE (trig !!! j)) (GTIA_TRIG m')) m'
             else m') = PIA_PORT_input m')
    by (intros m'; destruct (0 <=? trig !!! j); reflexivity).
  rewrite Hpia. clear Hpia.
  destruct (Z.leb_spec 0 (joy !!! j)) as [Hj|Hj];
    [|rewrite andb_false_r; reflexivity].
  rewrite andb_true_r. cbn [PIA_PORT_input set_PIA_PORT_input].
  case_bool_decide as Hij.
  - subst i. rewrite vlookup_insert.
    apply nibble_replaced; [apply pia_shift_cases|lia].
  - destruct (ports_layout i j Hij) as [Hne|[He Hs]].
    + rewrite vlookup_insert_ne by congruence. reflexivity.
    + rewrite He, vlookup_insert, Hs.
      apply nibble_kept; [apply pia_shift_cases|lia].
Qed.

Lemma apply_port_trig (joy trig : vec Z 4) m (j i : fin 4) :
  GTIA_TRIG (apply_port joy trig m j) !!! i
  = if bool_decide (i = j) && (0 <=? trig !!! j) then C.UBYTE (trig !!! j)
    else GTIA_TRIG m !!! i.
Proof.
  unfold apply_port.
  destruct (0 <=? joy !!! j), (0 <=? trig !!! j);
    rewrite ?andb_false_r, ?andb_true_r; cbn [GTIA_TRIG set_GTIA_TRIG set_PIA_PORT_input];
    try reflexivity;
    (case_bool_decide as Hij;
     [subst i; apply vlookup_insert|apply vlookup_insert_ne; congruence]).
Qed.

(** The loop of [AI_ApplyInput] over any list of ports. *)
Lemma apply_ports_lines (joy trig : vec Z 4) (l : list (fin 4)) m (i : fin 4) :
  (forall k, joy !!! k < 16) ->
  stick_lines (foldl (apply_port joy trig) m l) i
  = if bool_decide (i ∈ l) && (0 <=? joy !!! i) then joy !!! i else stick_lines m i.
Proof.
  intros Hr. revert m. induction l as [|j l IH]; intros m; cbn [foldl].
  - rewrite bool_decide_eq_false_2 by apply not_elem_of_nil. reflexivity.
  - rewrite IH, apply_port_lines, bool_decide_elem_of_cons by apply Hr.
    destruct (bool_decide (i = j)) eqn:Hd;
      [apply bool_decide_eq_true in Hd; subst i|];
      destruct (bool_decide (_ ∈ l)), (0 <=? joy !!! _); reflexivity.
Qed.

Lemma apply_ports_trig (joy trig : vec Z 4) (l : list (fin 4)) m (i : fin 4) :
  GTIA_TRIG (foldl (apply_port joy trig) m l) !!! i
  = if bool_decide (i ∈ l) && (0 <=? trig !!! i) then C.UBYTE (trig !!! i)
    else GTIA_TRIG m !!! i.
Proof.
  revert m. induction l as [|j l IH]; intros m; cbn [foldl].
  - rewrite bool_decide_eq_false_2 by apply not_elem_of_nil. reflexivity.
  - rewrite IH, apply_port_trig, bool_decide_elem_of_cons.
    destruct (bool_decide (i = j)) eqn:Hd;
      [apply bool_decide_eq_true in Hd; subst i|];
      destruct (bool_decide (_ ∈ l)), (0 <=? trig !!! _); reflexivity.
Qed.

(** What the chips read after [AI_ApplyInput]: for every port, the
    override where one is set, the polled value where none is. *)
Lemma AI_ApplyInput_lines s (i : fin 4) :
  AI_enabled s = true -> (forall k, AI_joy_override s !!! k < 16) ->
  stick_lines (emu (AI_ApplyInput s)) i
  = if 0 <=? AI_joy_override s !!! i then AI_joy_override s !!! i
    else stick_lines (emu s) i.
Proof.
  intros He Hr. unfold AI_ApplyInput. rewrite He. cbn [negb emu set_emu].
  rewrite apply_ports_lines by exact Hr.
  rewrite bool_decide_eq_true_2 by apply all_ports. reflexivity.
Qed.

Lemma AI_ApplyInput_trig s (i : fin 4) :
  GTIA_TRIG (emu (AI_ApplyInput s)) !!! i
  = if AI_enabled s && (0 <=? AI_trig_override s !!! i)
    then C.UBYTE (AI_trig_override s !!! i)
    else GTIA_TRIG (emu s) !!! i.
Proof.
  unfold AI_ApplyInput. destruct (AI_enabled s); cbn [negb andb emu set_emu];
    [|reflexivity].
  rewrite apply_ports_trig.
  rewrite bool_decide_eq_true_2 by apply all_ports. reflexivity.
Qed.

(* ===================================================================== *)
(** * Trigger overrides, port ranges and reconnection                     *)
(* ===================================================================== *)

(** C10.  In every reachable state each entry of the trigger override
    table is -1 (no override) or 0 (pressed), never 1 (not pressed): a
    joystick command with fire false clears the entry of its port, and
    [AI_ApplyInput] leaves every trigger either as the hardware poll set
    it or pressed. *)
Theorem trigger_override_never_released s (i : fin 4) :
  reachable s ->
  (AI_trig_override s !!! i = -1 \/ AI_trig_override s !!! i = 0) /\
  (forall cmd,
     command_name cmd = "joystick" ->
     index 4 (json_get_int cmd "port" 0) = Some i ->
     json_get_bool cmd "fire" 0 = 0 ->
     AI_trig_override (process_command cmd s) !!! i = -1) /\
  (GTIA_TRIG (emu (AI_ApplyInput s)) !!! i = GTIA_TRIG (emu s) !!! i \/
   GTIA_TRIG (emu (AI_ApplyInput s)) !!! i = 0).
Proof.
  intros Hreach.
  destruct (reachable_overrides_ok s Hreach i) as [_ Ht].
  split; [exact Ht|split].
  - intros cmd Hname Hport Hfire.
    rewrite (process_command_joystick _ _ Hname).
    destruct (cmd_joystick_tables cmd s i) as [_ ->].
    rewrite bool_decide_eq_true_2 by exact Hport.
    rewrite Hfire. reflexivity.
  - rewrite AI_ApplyInput_trig.
    destruct Ht as [-> | ->].
    + left. rewrite andb_false_r. reflexivity.
    + destruct (AI_enabled s); [right|left]; reflexivity.
Qed.

(** C9 (as amended).  A joystick command whose port is outside 0..3 and
    a paddle command whose port is outside 0..7 change nothing: neither
    override table, nor a paddle input, nor anything else of the
    emulator or of the scheduler.  The state after the command is the
    state before it with one response added, and that response is the
    ok status. *)
Theorem bad_port_is_noop cmd s :
  0 <= ai_client_fd s ->
  (command_name cmd = "joystick" ->
   ~ (0 <= json_get_int cmd "port" 0 < 4) ->
   process_command cmd s
   = set_sent (sent s ++ [(ai_client_fd s, wire resp_ok)]) s) /\
  (command_name cmd = "paddle" ->
   ~ (0 <= json_get_int cmd "port" 0 < 8) ->
   process_command cmd s
   = set_sent (sent s ++ [(ai_client_fd s, wire resp_ok)]) s).
Proof.
  intros Hfd. split; intros Hname Hport.
  - rewrite (process_command_joystick _ _ Hname). unfold cmd_joystick.
    replace ((0 <=? json_get_int cmd "port" 0) && (json_get_int cmd "port" 0 <? 4))
      with false
      by (symmetry; apply andb_false_iff; rewrite Z.leb_gt, Z.ltb_ge; lia).
    apply AI_SendResponse_attached, Hfd.
  - rewrite (process_command_paddle _ _ Hname). unfold cmd_paddle.
    replace ((0 <=? json_get_int cmd "port" 0) && (json_get_int cmd "port" 0 <? 8))
      with false
      by (symmetry; apply andb_false_iff; rewrite Z.leb_gt, Z.ltb_ge; lia).
    apply AI_SendResponse_attached, Hfd.
Qed.

(** C6.  When [accept] hands over a new connection while a session is
    attached, the old descriptor is closed before the new one is stored
    in [ai_client_fd], the new one is the only client descriptor left
    open, and [ai_paused] is set, whatever the pause flag and the two
    counters were. *)
Theorem reconnect_supersedes s (client : Z) (script : list sock_ev)
    (rest : list accept_ev) :
  0 <= ai_server_fd s ->
  backlog s = Incoming client script :: rest ->
  0 <= client ->
  0 <= ai_client_fd s ->
  open_fds s = [ai_client_fd s] ->
  client <> ai_client_fd s ->
  check_connections s
  = set_paused true
      (set_peer script
         (set_client_fd client
            (sys_close (ai_client_fd s)
               (set_open_fds (client :: open_fds s) (set_backlog rest s))))) /\
  ai_client_fd (check_connections s) = client /\
  open_fds (check_connections s) = [client] /\
  ai_paused (check_connections s) = true /\
  ai_frames_to_run (check_connections s) = ai_frames_to_run s /\
  ai_steps_to_run (check_connections s) = ai_steps_to_run s.
Proof.
  intros Hsrv Hback Hclient Hold Hopen Hfresh.
  assert (Heq : check_connections s
    = set_paused true
      (set_peer script
         (set_client_fd client
            (sys_close (ai_client_fd s)
               (set_open_fds (client :: open_fds s) (set_backlog rest s)))))).
  { unfold check_connections. rewrite Hback.
    destruct (Z.ltb_spec (ai_server_fd s) 0); [lia|].
    destruct (Z.leb_spec 0 client); [|lia].
    cbn. destruct (0 <=? _) eqn:Hb; [reflexivity|].
    apply Z.leb_gt in Hb. lia. }
  rewrite Heq. repeat split.
  unfold sys_close. cbn [open_fds set_paused set_peer set_client_fd set_open_fds set_backlog].
  rewrite Hopen.
  rewrite filter_cons_True by exact Hfresh.
  rewrite filter_cons_False by (intros Hne; apply Hne; reflexivity).
  reflexivity.
Qed.

(* ===================================================================== *)
(** * Persistence of an override                                         *)
(* ===================================================================== *)

Lemma AI_SendResponse_enabled json s :
  AI_enabled (AI_SendResponse json s) = AI_enabled s.
Proof. unfold AI_SendResponse. destruct (_ <? _); reflexivity. Qed.

Lemma process_command_enabled cmd s :
  AI_enabled (process_command cmd s) = AI_enabled s.
Proof.
  destruct (process_command_cases cmd s)
    as [[_ ->]|[[_ ->]|[[_ ->]|[[_ ->]|[[_ ->]|[[_ ->]|(_&_&_&_&_&_&json&m&->)]]]]]];
    try unfold cmd_debug_read;
    first [ exact (AI_SendResponse_enabled _ _) | reflexivity | idtac ].
  unfold cmd_joystick. rewrite AI_SendResponse_enabled.
  repeat case_match; reflexivity.
Qed.

Lemma run_op_enabled (o : op) s : AI_enabled (run_op o s) = AI_enabled s.
Proof.
  destruct o; simpl.
  - destruct (check_connections_shape s) as (b&q&c&o&p&->). reflexivity.
  - destruct (AI_Frame_countdown_shape s) as (n&p&out&->). reflexivity.
  - destruct (waiting s); [|reflexivity].
    rewrite AI_Frame_poll_unfold.
    destruct (read_command_shape AI_BUFFER_SIZE s) as (q&c&o&Hs1).
    match goal with |- AI_enabled (check_connections ?x) = _ =>
      destruct (check_connections_shape x) as (b&q'&c'&o'&p'&->)
    end.
    simpl. destruct (0 <? _); rewrite ?process_command_enabled, Hs1; reflexivity.
  - destruct (AI_ApplyInput_shape s) as [m ->]. reflexivity.
  - destruct (AI_DebugWrite_shape byte s) as (buf&pos&->). reflexivity.
  - reflexivity.
  - reflexivity.
Qed.

Lemma exec_enabled (ops : list op) s : AI_enabled (exec ops s) = AI_enabled s.
Proof.
  apply (exec_invariant (fun s' => AI_enabled s' = AI_enabled s)); [|reflexivity].
  intros o s' <-. apply run_op_enabled.
Qed.

(** An operation that is not a joystick command for port [p] leaves the
    entries of port [p] alone. *)
Lemma run_op_entry (p : fin 4) (o : op) s :
  (o = Poll -> forall cmd, next_command s = Some cmd -> ~ joystick_for p cmd) ->
  entry p (run_op o s) = entry p s.
Proof.
  intros Hspare. unfold entry. destruct o; simpl.
  - destruct (check_connections_shape s) as (b&q&c&o&pp&->). reflexivity.
  - destruct (AI_Frame_countdown_shape s) as (n&pp&out&->). reflexivity.
  - specialize (Hspare eq_refl). unfold next_command in Hspare.
    destruct (waiting s); [|reflexivity].
    rewrite AI_Frame_poll_unfold.
    destruct (read_command_shape AI_BUFFER_SIZE s) as (q&c&o&Hs1).
    match goal with |- context [check_connections ?x] =>
      destruct (check_connections_shape x) as (b&q'&c'&o'&p'&->)
    end.
    simpl. destruct (0 <? _); [|rewrite Hs1; reflexivity].
    set (cmd := (read_command AI_BUFFER_SIZE s).1.2) in *.
    set (s1 := (read_command AI_BUFFER_SIZE s).2) in *.
    destruct (decide (command_name cmd = "joystick")) as [E|N].
    + rewrite (process_command_joystick _ _ E).
      destruct (cmd_joystick_tables cmd s1 p) as [-> ->].
      rewrite bool_decide_eq_false_2; [rewrite Hs1; reflexivity|].
      intros Hp. apply (Hspare cmd eq_refl). split; assumption.
    + destruct (process_command_tables cmd s1 N) as [-> ->].
      rewrite Hs1. reflexivity.
  - destruct (AI_ApplyInput_shape s) as [m ->]. reflexivity.
  - destruct (AI_DebugWrite_shape byte s) as (buf&pos&->). reflexivity.
  - reflexivity.
  - reflexivity.
Qed.

Lemma exec_entry (p : fin 4) (ops : list op) s :
  spares p ops s -> entry p (exec ops s) = entry p s.
Proof.
  revert s. induction ops as [|o ops IH]; intros s Hs; [reflexivity|].
  destruct Hs as [Ho Hrest]. unfold exec. simpl.
  change (entry p (exec ops (run_op o s)) = entry p s).
  rewrite (IH _ Hrest). apply run_op_entry, Ho.
Qed.

Lemma exec_overrides_ok (ops : list op) s : overrides_ok s -> overrides_ok (exec ops s).
Proof. apply exec_invariant. apply run_op_overrides_ok. Qed.

Lemma overrides_ok_lt s : overrides_ok s -> forall k, AI_joy_override s !!! k < 16.
Proof. intros Hok k. destruct (Hok k) as [[?|?] _]; lia. Qed.

(** C3 (as amended).  After a joystick command for port p with a
    direction other than center and fire true, and for as long as no
    further joystick command for port p is processed -- whatever else
    happens: frame ticks, other commands, a disconnect of the session, a
    new connection -- every [AI_ApplyInput] after the hardware poll
    leaves all four direction lines of port p at the override's encoding
    and the trigger of port p at 0 (pressed), while a port without a
    directional override, the other port in the same PIA byte in
    particular, keeps the lines the poll gave it.  A joystick command
    for port p with direction center and fire false clears both entries,
    after which the polled values of port p pass through.  A disconnect
    does not reset the table. *)
Theorem joystick_override_persists s cmd (p : fin 4) (ops : list op) m :
  reachable s ->
  AI_enabled s = true ->
  command_name cmd = "joystick" ->
  index 4 (json_get_int cmd "port" 0) = Some p ->
  stick_of_direction (get_string_into cmd "direction" 16) <> INPUT_STICK_CENTRE ->
  json_get_bool cmd "fire" 0 = 1 ->
  spares p ops (process_command cmd s) ->
  let later := exec ops (process_command cmd s) in
  let applied := emu (AI_ApplyInput (set_emu m later)) in
  stick_lines applied p = stick_of_direction (get_string_into cmd "direction" 16) /\
  GTIA_TRIG applied !!! p = 0 /\
  (forall i, AI_joy_override later !!! i = -1 ->
             stick_lines applied i = stick_lines m i) /\
  (forall clear m',
     command_name clear = "joystick" ->
     index 4 (json_get_int clear "port" 0) = Some p ->
     stick_of_direction (get_string_into clear "direction" 16) = INPUT_STICK_CENTRE ->
     json_get_bool clear "fire" 0 = 0 ->
     let cleared := emu (AI_ApplyInput (set_emu m' (process_command clear later))) in
     stick_lines cleared p = stick_lines m' p /\
     GTIA_TRIG cleared !!! p = GTIA_TRIG m' !!! p).
Proof.
  intros Hreach Hen Hname Hport Hdir Hfire Hspare later applied.
  pose proof (stick_of_direction_range (get_string_into cmd "direction" 16)) as Hrange.
  assert (Hok : overrides_ok later).
  { apply exec_overrides_ok, process_command_overrides_ok, reachable_overrides_ok, Hreach. }
  assert (Hen' : AI_enabled later = true).
  { unfold later. rewrite exec_enabled, process_command_enabled. exact Hen. }
  assert (Hentry : entry p later
                   = (stick_of_direction (get_string_into cmd "direction" 16), 0)).
  { unfold later. rewrite (exec_entry p ops _ Hspare). unfold entry.
    rewrite (process_command_joystick _ _ Hname).
    destruct (cmd_joystick_tables cmd s p) as [-> ->].
    rewrite bool_decide_eq_true_2 by exact Hport. rewrite Hfire.
    destruct (Z.eqb_spec (stick_of_direction (get_string_into cmd "direction" 16))
                INPUT_STICK_CENTRE); [contradiction|reflexivity]. }
  unfold entry in Hentry. injection Hentry as Hjoy Htrig.
  repeat split.
  - unfold applied. rewrite AI_ApplyInput_lines;
      [|exact Hen'|exact (overrides_ok_lt _ Hok)].
    cbn [AI_joy_override set_emu emu]. rewrite Hjoy.
    destruct (Z.leb_spec 0 (stick_of_direction (get_string_into cmd "direction" 16)));
      [reflexivity|lia].
  - unfold applied. rewrite AI_ApplyInput_trig.
    cbn [AI_enabled AI_trig_override set_emu emu]. rewrite Hen', Htrig. reflexivity.
  - intros i Hi. unfold applied. rewrite AI_ApplyInput_lines;
      [|exact Hen'|exact (overrides_ok_lt _ Hok)].
    cbn [AI_joy_override set_emu emu]. rewrite Hi. reflexivity.
  - rewrite AI_ApplyInput_lines.
    + cbn [AI_joy_override set_emu emu].
      rewrite (process_command_joystick _ _ H).
      destruct (cmd_joystick_tables clear later p) as [-> _].
      rewrite bool_decide_eq_true_2 by assumption.
      rewrite H1. reflexivity.
    + cbn [AI_enabled set_emu]. rewrite process_command_enabled. exact Hen'.
    + apply (overrides_ok_lt (set_emu m' (process_command clear later))).
      apply (process_command_overrides_ok clear later Hok).
  - rewrite AI_ApplyInput_trig.
    cbn [AI_enabled AI_trig_override set_emu emu].
    rewrite (process_command_joystick _ _ H).
    destruct (cmd_joystick_tables clear later p) as [_ ->].
    rewrite bool_decide_eq_true_2 by assumption.
    rewrite H2. cbn. rewrite andb_false_r. reflexivity.
Qed.

(* ===================================================================== *)
(** * The debug capture buffer                                           *)
(* ===================================================================== *)

Lemma strlen_nonneg (a : string) : 0 <= C.strlen a.
Proof. unfold C.strlen. lia. Qed.

Lemma total_nonneg (items : list string) : 0 <= total items.
Proof.
  induction items as [|it items IH]; simpl; [lia|].
  pose proof (strlen_nonneg it). lia.
Qed.

Lemma strlen_join (items : list string) : C.strlen (join items) = total items.
Proof.
  induction items as [|it items IH]; simpl; [reflexivity|].
  rewrite strlen_app, IH. reflexivity.
Qed.

(** A loop whose output stays below its limit appends every item. *)
Lemma append_while_all (limit : Z) (items : list string) (acc : string) :
  C.strlen acc + total items < limit ->
  append_while limit items acc = acc +:+ join items.
Proof.
  revert acc. induction items as [|it items IH]; intros acc Hlen; simpl.
  - symmetry. apply append_nil_r.
  - simpl in Hlen.
    pose proof (total_nonneg items). pose proof (strlen_nonneg it).
    destruct (Z.ltb_spec (C.strlen acc) limit); [|lia].
    rewrite IH by (rewrite strlen_app; lia).
    apply append_assoc.
Qed.

Lemma total_bound (c : Z) (items : list string) :
  Forall (fun it => C.strlen it <= c) items ->
  total items <= c * Z.of_nat (length items).
Proof.
  induction 1 as [|it items Hit _ IH]; simpl length; simpl total; lia.
Qed.

Lemma dec_byte_length (v : Z) : 0 <= v < 256 -> C.strlen (C.dec v) <= 3.
Proof.
  intros Hv.
  assert (Hall : forallb (fun v => C.strlen (C.dec v) <=? 3) (seqZ 0 256) = true)
    by (vm_compute; reflexivity).
  rewrite forallb_forall in Hall.
  apply Z.leb_le, Hall, list_elem_of_In, elem_of_seqZ. lia.
Qed.

Lemma nth_item_length (i : nat) (v : Z) :
  0 <= v < 256 -> C.strlen (nth_item i v) <= 4.
Proof.
  intros Hv. unfold nth_item. rewrite strlen_app.
  pose proof (dec_byte_length v Hv).
  destruct (decide (i = 0%nat)); unfold C.strlen at 1; simpl String.length; lia.
Qed.

Lemma imap_items_bound (f : nat -> Z -> string) (data : list Z) :
  (forall i v, 0 <= v < 256 -> C.strlen (f i v) <= 4) ->
  Forall (fun b => 0 <= b < 256) data ->
  Forall (fun it => C.strlen it <= 4) (imap f data).
Proof.
  intros Hf Hdata. revert f Hf.
  induction Hdata as [|b data Hb _ IH]; intros f Hf; [constructor|].
  rewrite imap_cons. constructor; [apply Hf, Hb|].
  apply IH. intros i v Hv. apply Hf, Hv.
Qed.








(* ===================================================================== *)
(** * Protocol errors                                                    *)
(* ===================================================================== *)

Lemma prefix_append (a b : string) : String.prefix a (a +:+ b) = true.
Proof.
  induction a as [|c a IH]; [destruct b; reflexivity|].
  rewrite append_cons. simpl.
  destruct (Ascii.ascii_dec c c); [exact IH|congruence].
Qed.




Lemma script_of_app (a b : string) : script_of (a +:+ b) = script_of a ++ script_of b.
Proof.
  unfold script_of. induction a as [|c a IH]; [reflexivity|].
  rewrite append_cons. simpl. rewrite IH. reflexivity.
Qed.

(** The header loop on a complete line that fits the header array. *)
Lemma read_header_line (header : string) (rest : list sock_ev) (room : nat)
    (acc : string) :
  one_line header = true ->
  (String.length header < room)%nat ->
  read_header room (script_of header ++ Data C.LF :: rest) acc
  = (Header (acc +:+ header), rest).
Proof.
  revert room acc. induction header as [|c header IH]; intros room acc Hline Hroom.
  - destruct room as [|room]; [simpl in Hroom; lia|].
    simpl. rewrite append_nil_r. reflexivity.
  - destruct room as [|room]; [simpl in Hroom; lia|].
    simpl in Hline. apply andb_true_iff in Hline as [Hc Hline].
    apply negb_true_iff in Hc.
    change (script_of (String c header)) with (Data c :: script_of header).
    cbn [read_header app sys_read].
    change (Z.to_nat (1 - 1)) with 0%nat. cbn [take_data].
    rewrite Hc. rewrite IH by (simpl in Hroom; auto with lia).
    rewrite append_assoc. reflexivity.
Qed.



(* ===================================================================== *)
(** * The scheduler                                                      *)
(* ===================================================================== *)

Lemma check_connections_idle s : backlog s = [] -> check_connections s = s.
Proof.
  intros Hb. unfold check_connections. rewrite Hb. destruct (_ <? _); reflexivity.
Qed.

Lemma AI_Frame_loop_running (fuel : nat) s :
  ai_paused s = false -> AI_Frame_loop fuel s = Some s.
Proof.
  intros Hp. destruct fuel; simpl; unfold waiting; rewrite Hp; reflexivity.
Qed.

Lemma frames_run_fits : format_response resp_frames_run = resp_frames_run.
Proof. vm_compute. reflexivity. Qed.

(** A frame tick in the middle of a run. *)
Lemma AI_Frame_running (n : Z) out fd (fuel : nat) s :
  running n out fd s -> 2 <= n ->
  exists s', AI_Frame fuel s = Some s' /\ running (n - 1) out fd s'.
Proof.
  intros (He & Hp & Hn & Hb & Hs & Hc) Hn2.
  exists (set_frames_to_run (n - 1) s). split.
  - unfold AI_Frame. rewrite He. cbn [negb].
    rewrite (check_connections_idle _ Hb). unfold AI_Frame_countdown. rewrite Hn.
    destruct (Z.ltb_spec 0 n); [|lia]. fields.
    destruct (Z.eqb_spec (n - 1) 0); [lia|].
    apply AI_Frame_loop_running. exact Hp.
  - unfold running. fields. repeat split; auto.
Qed.

Lemma frames_running (k : nat) (n : Z) out fd (fuel : nat) s :
  running n out fd s -> Z.of_nat k < n ->
  exists s', frames k fuel s = Some s' /\ running (n - Z.of_nat k) out fd s'.
Proof.
  revert n s. induction k as [|k IH]; intros n s Hrun Hk.
  - exists s. split; [reflexivity|]. replace (n - Z.of_nat 0) with n by lia. exact Hrun.
  - destruct (AI_Frame_running n out fd fuel s Hrun) as (s1 & Hs1 & Hrun1); [lia|].
    destruct (IH (n - 1) s1 Hrun1) as (s' & Hs' & Hrun'); [lia|].
    exists s'. split.
    + simpl. rewrite Hs1. exact Hs'.
    + replace (n - Z.of_nat (S k)) with (n - 1 - Z.of_nat k) by lia. exact Hrun'.
Qed.

(** The frame tick that ends a run, up to the point where the paused
    loop starts. *)
Lemma AI_Frame_countdown_last out fd s :
  running 1 out fd s -> 0 <= fd ->
  AI_Frame_countdown (check_connections s)
  = set_sent (out ++ [(fd, wire resp_frames_run)])
      (set_paused true (set_frames_to_run 0 s)).
Proof.
  intros (He & Hp & Hn & Hb & Hs & Hc) Hfd.
  rewrite (check_connections_idle _ Hb). unfold AI_Frame_countdown. rewrite Hn.
  cbn [Z.ltb Z.compare Z.sub Z.add Z.opp Z.pos_sub]. fields. cbn [Z.eqb].
  rewrite frames_run_fits, AI_SendResponse_attached by (fields; lia).
  fields. rewrite Hs, Hc. reflexivity.
Qed.

(** C1.  What the code does for a run command with frames = n >= 1,
    with no connection attempt during the run: nothing is sent when the
    command is dispatched nor during the first n - 1 frame ticks, which
    leave the scheduler running; the n-th tick sends one response and
    pauses.  That response is the fixed text with frames_run 1, whatever
    n is. *)
Theorem run_reports_one_frame cmd s (n : Z) (fuel : nat) :
  AI_enabled s = true ->
  0 <= ai_client_fd s ->
  backlog s = [] ->
  command_name cmd = "run" ->
  json_get_int cmd "frames" 1 = n ->
  1 <= n ->
  let run := process_command cmd s in
  sent run = sent s /\
  (forall k : nat,
     Z.of_nat k < n ->
     exists sk, frames k fuel run = Some sk /\
                sent sk = sent s /\ ai_paused sk = false /\
                ai_frames_to_run sk = n - Z.of_nat k) /\
  (exists sk,
     frames (Z.to_nat (n - 1)) fuel run = Some sk /\
     let last := AI_Frame_countdown (check_connections sk) in
     sent last = sent s ++ [(ai_client_fd s, wire resp_frames_run)] /\
     ai_paused last = true /\
     ai_frames_to_run last = 0).
Proof.
  intros He Hfd Hb Hname Hframes Hn run.
  assert (Hrun : running n (sent s) (ai_client_fd s) run).
  { unfold run. rewrite (process_command_run _ _ Hname), Hframes.
    unfold running. fields. repeat split; auto. }
  split; [apply Hrun|split].
  - intros k Hk.
    destruct (frames_running k n _ _ fuel run Hrun Hk) as (sk & Hsk & Hr).
    exists sk. split; [exact Hsk|]. unfold running in Hr. tauto.
  - destruct (frames_running (Z.to_nat (n - 1)) n _ _ fuel run Hrun) as (sk & Hsk & Hr);
      [lia|].
    exists sk. split; [exact Hsk|].
    replace (n - Z.of_nat (Z.to_nat (n - 1))) with 1 in Hr by lia.
    rewrite (AI_Frame_countdown_last _ _ _ Hr Hfd). fields. repeat split; auto.
Qed.

Lemma check_connections_quiet s :
  quiet_attempts (backlog s) ->
  exists rest, check_connections s = set_backlog rest s /\ quiet_attempts rest.
Proof.
  intros Hq. unfold check_connections.
  destruct (_ <? _).
  { exists (backlog s). split; [destruct s; reflexivity|exact Hq]. }
  destruct (backlog s) as [|[|client script] rest] eqn:Hb.
  - exists []. split; [destruct s; simpl in *; subst; reflexivity|constructor].
  - exists rest. split; [reflexivity|]. apply Forall_cons in Hq as [_ Hq]. exact Hq.
  - apply Forall_cons in Hq as [Hq _]. discriminate Hq.
Qed.

Lemma run_op_stepping (n : Z) out (o : op) s :
  calm o -> stepping n out s -> stepping n out (run_op o s).
Proof.
  intros Hcalm (Hp & Hf & Hst & Hs & Hq). destruct o; simpl.
  - destruct (check_connections_quiet s Hq) as (rest & -> & Hrest).
    unfold stepping. fields. repeat split; auto.
  - unfold AI_Frame_countdown. rewrite Hf. cbn [Z.ltb Z.compare].
    unfold stepping. repeat split; auto.
  - unfold waiting. rewrite Hp. cbn [andb]. unfold stepping. repeat split; auto.
  - destruct (AI_ApplyInput_shape s) as [m ->]. unfold stepping. fields. repeat split; auto.
  - destruct (AI_DebugWrite_shape byte s) as (buf & pos & ->).
    unfold stepping. fields. repeat split; auto.
  - unfold stepping. fields. repeat split; auto.
  - unfold stepping. fields. repeat split; auto.
Qed.

Lemma exec_stepping (n : Z) out (ops : list op) s :
  Forall calm ops -> stepping n out s -> stepping n out (exec ops s).
Proof.
  intros Hops. revert s. induction Hops as [|o ops Ho _ IH]; intros s Hs; [exact Hs|].
  unfold exec. simpl. apply IH, run_op_stepping; assumption.
Qed.

Lemma AI_Frame_stepping (n : Z) out (fuel : nat) s :
  stepping n out s -> exists s', AI_Frame fuel s = Some s' /\ stepping n out s'.
Proof.
  intros Hs. unfold AI_Frame. destruct (negb (AI_enabled s)); [eauto|].
  assert (Hs' : stepping n out (AI_Frame_countdown (check_connections s))).
  { apply (run_op_stepping n out Countdown); [exact I|].
    apply (run_op_stepping n out Connections); [exact I|exact Hs]. }
  eexists. split; [|exact Hs'].
  apply AI_Frame_loop_running, Hs'.
Qed.

Lemma frames_stepping (k : nat) (n : Z) out (fuel : nat) s :
  stepping n out s -> exists s', frames k fuel s = Some s' /\ stepping n out s'.
Proof.
  revert s. induction k as [|k IH]; intros s Hs; [eauto|].
  destruct (AI_Frame_stepping n out fuel s Hs) as (s1 & Hs1 & Hst1).
  destruct (IH s1 Hst1) as (s' & Hs' & Hst').
  exists s'. split; [|exact Hst']. simpl. rewrite Hs1. exact Hs'.
Qed.

(** C2.  What the code does for a step command with instructions = n:
    it stores n, clears the pause flag and sends nothing; after that, as
    long as no new connection arrives, nothing that can happen -- frame
    ticks, the emulator executing instructions, the hooks -- changes the
    stored count, sets the pause flag again or sends a response. *)
Theorem step_never_completes cmd s (n : Z) (ops : list op) (k fuel : nat) :
  command_name cmd = "step" ->
  json_get_int cmd "instructions" 1 = n ->
  ai_frames_to_run s = 0 ->
  quiet_attempts (backlog s) ->
  Forall calm ops ->
  let step := process_command cmd s in
  (ai_paused (exec ops step) = false /\
   ai_steps_to_run (exec ops step) = n /\
   sent (exec ops step) = sent s) /\
  (exists sk, frames k fuel step = Some sk /\
              ai_paused sk = false /\ ai_steps_to_run sk = n /\ sent sk = sent s).
Proof.
  intros Hname Hn Hf Hq Hops step.
  assert (Hstep : stepping n (sent s) step).
  { unfold step. rewrite (process_command_step _ _ Hname), Hn.
    unfold stepping. fields. repeat split; auto. }
  split.
  - destruct (exec_stepping n _ ops step Hops Hstep) as (Hp & _ & Hst & Hs & _). auto.
  - destruct (frames_stepping k n _ fuel step Hstep) as (sk & Hsk & Hp & _ & Hst & Hs & _).
    eauto.
Qed.

(** ** The two counters *)

Lemma AI_SendResponse_scheduler json s :
  ai_paused (AI_SendResponse json s) = ai_paused s /\
  ai_frames_to_run (AI_SendResponse json s) = ai_frames_to_run s /\
  ai_steps_to_run (AI_SendResponse json s) = ai_steps_to_run s /\
  backlog (AI_SendResponse json s) = backlog s.
Proof. unfold AI_SendResponse. destruct (_ <? _); auto. Qed.

Lemma cmd_joystick_scheduler cmd s :
  ai_paused (cmd_joystick cmd s) = ai_paused s /\
  ai_frames_to_run (cmd_joystick cmd s) = ai_frames_to_run s /\
  ai_steps_to_run (cmd_joystick cmd s) = ai_steps_to_run s /\
  backlog (cmd_joystick cmd s) = backlog s.
Proof.
  unfold cmd_joystick.
  match goal with
  | |- context [AI_SendResponse resp_ok ?x] =>
      destruct (AI_SendResponse_scheduler resp_ok x) as (-> & -> & -> & ->)
  end.
  destruct (_ && _); [destruct (index 4 _)|]; auto.
Qed.

(** What a command other than run and step does to the scheduler. *)
Lemma process_command_scheduler cmd s :
  command_name cmd <> "run" -> command_name cmd <> "step" ->
  ai_frames_to_run (process_command cmd s) = ai_frames_to_run s /\
  ai_steps_to_run (process_command cmd s) = ai_steps_to_run s /\
  (ai_paused (process_command cmd s) = ai_paused s \/
   ai_paused (process_command cmd s) = true).
Proof.
  intros Hrun Hstep.
  destruct (process_command_cases cmd s)
    as [[E _]|[[E _]|[[_ ->]|[[_ ->]|[[_ ->]|[[_ ->]|(_&_&_&_&_&_&json&m&->)]]]]]];
    try contradiction.
  all: try unfold cmd_debug_read;
    try match goal with
        | |- context [AI_SendResponse ?j ?x] =>
            destruct (AI_SendResponse_scheduler j x) as (-> & -> & -> & _)
        end;
    auto.
  destruct (cmd_joystick_scheduler cmd s) as (-> & -> & -> & _). auto.
Qed.

Lemma process_command_backlog cmd s : backlog (process_command cmd s) = backlog s.
Proof.
  destruct (process_command_cases cmd s)
    as [[_ ->]|[[_ ->]|[[_ ->]|[[_ ->]|[[_ ->]|[[_ ->]|(_&_&_&_&_&_&json&m&->)]]]]]];
    try unfold cmd_debug_read;
    first [ reflexivity
          | apply cmd_joystick_scheduler
          | match goal with
            | |- context [AI_SendResponse ?j ?x] =>
                apply (AI_SendResponse_scheduler j x)
            end ].
Qed.

(** A command dispatched while paused with nothing pending. *)
Lemma process_command_one_pending cmd s :
  ai_paused s = true -> ai_frames_to_run s = 0 -> ai_steps_to_run s = 0 ->
  one_pending (process_command cmd s).
Proof.
  intros Hp Hf Hs. unfold one_pending.
  destruct (decide (command_name cmd = "run")) as [E|Nrun].
  { rewrite (process_command_run _ _ E). fields. left. split; [exact Hs|discriminate]. }
  destruct (decide (command_name cmd = "step")) as [E|Nstep].
  { rewrite (process_command_step _ _ E). fields. right. auto. }
  destruct (process_command_scheduler cmd s Nrun Nstep) as (-> & -> & _).
  left. auto.
Qed.

Lemma run_op_single_session (o : op) s :
  calm o -> single_session s -> single_session (run_op o s).
Proof.
  intros Hcalm [Hone Hq]. destruct o; simpl.
  - destruct (check_connections_quiet s Hq) as (rest & -> & Hrest).
    split; [exact Hone|exact Hrest].
  - split; [|destruct (AI_Frame_countdown_shape s) as (n & p & out & ->); exact Hq].
    unfold AI_Frame_countdown.
    destruct (Z.ltb_spec 0 (ai_frames_to_run s)) as [Hpos|_]; [|exact Hone].
    fields. destruct (Z.eqb_spec (ai_frames_to_run s - 1) 0) as [Hz|Hnz].
    + destruct (AI_SendResponse_scheduler (format_response resp_frames_run)
                  (set_paused true (set_frames_to_run (ai_frames_to_run s - 1) s)))
        as (Hp' & Hf' & Hs' & _).
      unfold one_pending. rewrite Hp', Hf', Hs'. fields.
      destruct Hone as [[Hs _]|[Hf _]]; [left; auto|lia].
    + unfold one_pending. fields.
      destruct Hone as [[Hs Hpz]|[Hf _]]; [|lia].
      left. split; [exact Hs|]. intros Hp. specialize (Hpz Hp). lia.
  - unfold waiting. destruct (ai_paused s) eqn:Hp; cbn [andb];
      [|split; [exact Hone|exact Hq]].
    destruct (0 <=? ai_client_fd s); [|split; [exact Hone|exact Hq]].
    assert (Hz : ai_frames_to_run s = 0 /\ ai_steps_to_run s = 0).
    { destruct Hone as [[Hs Hpz]|[_ Hn]]; [auto|congruence]. }
    destruct Hz as [Hf Hs].
    rewrite AI_Frame_poll_unfold.
    destruct (read_command_shape AI_BUFFER_SIZE s) as (q & c & o & Hs1).
    set (s1 := (read_command AI_BUFFER_SIZE s).2) in *.
    set (cmd := (read_command AI_BUFFER_SIZE s).1.2) in *.
    assert (Hmid : single_session
                     (if 0 <? (read_command AI_BUFFER_SIZE s).1.1
                      then process_command cmd s1 else s1)).
    { destruct (0 <? _).
      - split.
        + apply process_command_one_pending; rewrite Hs1; fields; assumption.
        + rewrite process_command_backlog, Hs1. exact Hq.
      - rewrite Hs1. split; [exact Hone|exact Hq]. }
    destruct Hmid as [Hone' Hq'].
    destruct (check_connections_quiet _ Hq') as (rest & -> & Hrest).
    split; [exact Hone'|exact Hrest].
  - destruct (AI_ApplyInput_shape s) as [m ->]. split; [exact Hone|exact Hq].
  - destruct (AI_DebugWrite_shape byte s) as (buf & pos & ->).
    split; [exact Hone|exact Hq].
  - split; [exact Hone|exact Hq].
  - split; [exact Hone|exact Hcalm].
Qed.

Lemma exec_single_session (ops : list op) s :
  Forall calm ops -> single_session s -> single_session (exec ops s).
Proof.
  intros Hops. revert s. induction Hops as [|o ops Ho _ IH]; intros s Hs; [exact Hs|].
  unfold exec. simpl. apply IH, run_op_single_session; assumption.
Qed.

(** C7 (as amended).  A run command overwrites the frames-remaining
    counter and leaves the instructions-remaining counter as it is; a
    step command overwrites the instructions-remaining counter and
    leaves the frames-remaining counter as it is; no other command
    writes either.  Within one session, that is from a state with both
    counters at zero and as long as no new connection arrives, at most
    one of the two is non-zero. *)
Theorem counters_set_separately cmd s (ops : list op) :
  (command_name cmd = "run" ->
   ai_frames_to_run (process_command cmd s) = json_get_int cmd "frames" 1 /\
   ai_steps_to_run (process_command cmd s) = ai_steps_to_run s) /\
  (command_name cmd = "step" ->
   ai_steps_to_run (process_command cmd s) = json_get_int cmd "instructions" 1 /\
   ai_frames_to_run (process_command cmd s) = ai_frames_to_run s) /\
  (command_name cmd <> "run" -> command_name cmd <> "step" ->
   ai_frames_to_run (process_command cmd s) = ai_frames_to_run s /\
   ai_steps_to_run (process_command cmd s) = ai_steps_to_run s) /\
  (ai_frames_to_run s = 0 -> ai_steps_to_run s = 0 ->
   quiet_attempts (backlog s) -> Forall calm ops ->
   ai_frames_to_run (exec ops s) = 0 \/ ai_steps_to_run (exec ops s) = 0).
Proof.
  repeat split.
  - rewrite (process_command_run _ _ H). reflexivity.
  - rewrite (process_command_run _ _ H). reflexivity.
  - rewrite (process_command_step _ _ H). reflexivity.
  - rewrite (process_command_step _ _ H). reflexivity.
  - apply (process_command_scheduler cmd s H H0).
  - apply (process_command_scheduler cmd s H H0).
  - intros Hf Hs Hq Hops.
    destruct (exec_single_session ops s Hops) as [[[Hs' _]|[Hf' _]] _]; auto.
    split; [|exact Hq]. left. auto.
Qed.

(** ** Calls of [AI_Frame] are executions *)

Lemma AI_Frame_loop_exec (fuel : nat) s s' :
  AI_Frame_loop fuel s = Some s' ->
  exists ops, s' = exec ops s /\ Forall calm ops.
Proof.
  revert s. induction fuel as [|fuel IH]; intros s; simpl.
  - destruct (waiting s); [discriminate|].
    intros [= <-]. exists []. split; [reflexivity|constructor].
  - destruct (waiting s) eqn:Hw.
    + intros Hloop. destruct (IH _ Hloop) as (ops & -> & Hops).
      exists (Poll :: ops). split; [|constructor; [exact I|exact Hops]].
      unfold exec. simpl. rewrite Hw. reflexivity.
    + intros [= <-]. exists []. split; [reflexivity|constructor].
Qed.

Lemma AI_Frame_exec (fuel : nat) s s' :
  AI_Frame fuel s = Some s' ->
  exists ops, s' = exec ops s /\ Forall calm ops.
Proof.
  unfold AI_Frame. destruct (negb (AI_enabled s)).
  - intros [= <-]. exists []. split; [reflexivity|constructor].
  - intros Hloop. destruct (AI_Frame_loop_exec _ _ _ Hloop) as (ops & -> & Hops).
    exists (Connections :: Countdown :: ops).
    split; [reflexivity|repeat constructor; exact Hops].
Qed.

(** A call of [AI_Frame] that returns leads from a reachable state to a
    reachable state. *)
Lemma AI_Frame_reachable (fuel : nat) s s' :
  reachable s -> AI_Frame fuel s = Some s' -> reachable s'.
Proof.
  intros (m & attempts & argv & listening & ops & ->) Hframe.
  destruct (AI_Frame_exec _ _ _ Hframe) as (ops' & -> & _).
  exists m, attempts, argv, listening, (ops ++ ops').
  symmetry. apply exec_app.
Qed.

End Properties.

(** [trigger_override_never_released] on the bench, after the peer sent
    a joystick command with fire true for port 0. *)
Lemma trigger_override_never_released_witness :
  let s := exec (K := bench) [Connections; Poll]
             (started [Incoming 5 (request (joystick_cmd "0" "up" "true"))]) in
  reachable s /\
  (AI_trig_override s !!! 0%fin = -1 \/ AI_trig_override s !!! 0%fin = 0).
Proof.
  intros s.
  assert (Hs : reachable s).
  { exists idle, [Incoming 5 (request (joystick_cmd "0" "up" "true"))],
      ["atari800"; "-ai"], 3, [Connections; Poll]. reflexivity. }
  split; [exact Hs|].
  exact (proj1 (trigger_override_never_released s 0%fin Hs)).
Defined.

(** [bad_port_is_noop] on the bench: port 7 for the joystick, port 9
    for the paddle. *)
Lemma bad_port_is_noop_witness :
  process_command (K := bench) (joystick_cmd "7" "up" "true") (attached [])
  = set_sent [(5, wire resp_ok)] (attached []) /\
  process_command (K := bench) (paddle_cmd "9" "100") (attached [])
  = set_sent [(5, wire resp_ok)] (attached []).
Proof.
  split.
  - refine (proj1 (bad_port_is_noop (K := bench) (joystick_cmd "7" "up" "true")
                     (attached []) _) _ _).
    + vm_compute. discriminate.
    + reflexivity.
    + vm_compute. intros [_ H]. discriminate H.
  - refine (proj2 (bad_port_is_noop (K := bench) (paddle_cmd "9" "100")
                     (attached []) _) _ _).
    + vm_compute. discriminate.
    + reflexivity.
    + vm_compute. intros [_ H]. discriminate H.
Defined.

(** C9, counterexample.  A joystick command for port 7 and a paddle
    command for port 9 are answered with the ok status, not with an
    error status. *)
Lemma bad_port_answered_ok :
  sent (process_command (K := bench) (joystick_cmd "7" "up" "true") (attached []))
  = [(5, wire resp_ok)] /\
  sent (process_command (K := bench) (paddle_cmd "9" "100") (attached []))
  = [(5, wire resp_ok)] /\
  is_error resp_ok = false.
Proof. repeat split; vm_compute; reflexivity. Qed.

(** [reconnect_supersedes] on the bench: a second peer on descriptor 6
    while the first is in the middle of a run of 5 frames. *)
Lemma reconnect_supersedes_witness :
  let s := set_backlog (K := bench) [Incoming 6 []]
             (process_command (K := bench) (run_cmd "5") (attached [])) in
  ai_paused s = false /\
  ai_client_fd (check_connections s) = 6 /\
  open_fds (check_connections s) = [6] /\
  ai_paused (check_connections s) = true /\
  ai_frames_to_run (check_connections s) = ai_frames_to_run s /\
  ai_steps_to_run (check_connections s) = ai_steps_to_run s.
Proof.
  intros s. split; [reflexivity|].
  refine (proj2 (reconnect_supersedes (K := bench) s 6 [] [] _ _ _ _ _ _)).
  1-3: vm_compute; first [discriminate | reflexivity].
  - vm_compute. discriminate.
  - reflexivity.
  - vm_compute. discriminate.
Defined.

(** [joystick_override_persists] on the bench: left and fire on port 1,
    then the peer hangs up, and the override still decides what the
    chips read after the next poll. *)
Lemma joystick_override_persists_witness :
  let later := exec (K := bench) [Poll; Connections; Countdown]
                 (process_command (joystick_cmd "1" "left" "true") (attached [Eof])) in
  let applied := emu (AI_ApplyInput (set_emu (K := bench) idle later)) in
  ai_client_fd later = -1 /\
  stick_lines applied 1%fin = INPUT_STICK_LEFT /\
  GTIA_TRIG applied !!! 1%fin = 0.
Proof.
  intros later applied. split; [vm_compute; reflexivity|].
  assert (Hreach : reachable (attached [Eof])).
  { exists idle, [Incoming 5 [Eof]], ["atari800"; "-ai"], 3, [Connections].
    reflexivity. }
  assert (Hspare : spares 1%fin [Poll; Connections; Countdown]
                     (process_command (joystick_cmd "1" "left" "true") (attached [Eof]))).
  { cbn [spares]. split; [|split; [|split]].
    - intros _ cmd Hcmd. vm_compute in Hcmd. discriminate Hcmd.
    - intros Hop. discriminate Hop.
    - intros Hop. discriminate Hop.
    - exact I. }
  destruct (joystick_override_persists (K := bench) (attached [Eof])
              (joystick_cmd "1" "left" "true") 1%fin [Poll; Connections; Countdown] idle
              Hreach eq_refl eq_refl eq_refl ltac:(vm_compute; discriminate) eq_refl
              Hspare) as (Hlines & Htrig & _).
  split; [exact Hlines|exact Htrig].
Defined.

(** C3, counterexample.  The peer sets up and fire on port 0 and then
    disconnects.  The session is gone, the entries of port 0 are still
    set, and [AI_ApplyInput] still replaces what the poll reported
    (centred, released) by the override. *)
Lemma disconnect_keeps_override :
  (fun s => (ai_client_fd s,
             AI_joy_override s !!! 0%fin,
             AI_trig_override s !!! 0%fin,
             stick_lines (emu (AI_ApplyInput (set_emu (K := bench) idle s))) 0%fin,
             GTIA_TRIG (emu (AI_ApplyInput (set_emu (K := bench) idle s))) !!! 0%fin))
    <$> AI_Frame (K := bench) 3
          (started [Incoming 5 (request (joystick_cmd "0" "up" "true") ++ [Eof])])
  = Some (-1, 14, 0, 14, 0) /\
  stick_lines (K := bench) idle 0%fin = 15 /\
  GTIA_TRIG idle !!! 0%fin = 1.
Proof. repeat split; vm_compute; reflexivity. Qed.




(** [run_reports_one_frame] on the bench, for a run of 2 frames: the
    response after the second tick is not the report of 2 frames. *)
Lemma run_reports_one_frame_witness :
  json_get_int (run_cmd "2") "frames" 1 = 2 /\
  (exists sk,
     frames (K := bench) 1 0 (process_command (run_cmd "2") (attached [])) = Some sk /\
     let last := AI_Frame_countdown (check_connections sk) in
     sent last = [(5, wire resp_frames_run)] /\
     ai_paused last = true /\
     ai_frames_to_run last = 0) /\
  resp_frames_run = frames_run_report 1 /\
  resp_frames_run <> frames_run_report 2.
Proof.
  split; [reflexivity|]. split.
  - refine (proj2 (proj2 (run_reports_one_frame (K := bench) (run_cmd "2") (attached [])
                            2 0 _ _ _ _ _ _))).
    + reflexivity.
    + vm_compute. discriminate.
    + reflexivity.
    + reflexivity.
    + reflexivity.
    + lia.
  - split; vm_compute; [reflexivity|discriminate].
Defined.

(** [step_never_completes] on the bench: one instruction requested, then
    three frames with the input hooks in between. *)
Lemma step_never_completes_witness :
  let step := process_command (K := bench) (step_cmd "1") (attached []) in
  let ops := [Connections; Countdown; Poll; Emulator (K := bench) idle; ApplyInput] in
  (ai_paused (exec ops step) = false /\
   ai_steps_to_run (exec ops step) = 1 /\
   sent (exec ops step) = []) /\
  (exists sk, frames 3 0 step = Some sk /\
              ai_paused sk = false /\ ai_steps_to_run sk = 1 /\ sent sk = []).
Proof.
  refine (step_never_completes (K := bench) (step_cmd "1") (attached []) 1
            [Connections; Countdown; Poll; Emulator (K := bench) idle; ApplyInput]
            3 0 _ _ _ _ _).
  - reflexivity.
  - reflexivity.
  - reflexivity.
  - constructor.
  - repeat constructor.
Defined.

(** [counters_set_separately] on the bench: a run of 3 frames sets only
    the frame counter, and a session that runs 3 frames keeps one of the
    two counters at zero. *)
Lemma counters_set_separately_witness :
  (ai_frames_to_run (process_command (K := bench) (run_cmd "3") (attached [])) = 3 /\
   ai_steps_to_run (process_command (K := bench) (run_cmd "3") (attached [])) = 0) /\
  (ai_frames_to_run
     (exec (K := bench) [Poll; Countdown; Connections]
        (attached (request (run_cmd "3")))) = 0 \/
   ai_steps_to_run
     (exec (K := bench) [Poll; Countdown; Connections]
        (attached (request (run_cmd "3")))) = 0).
Proof.
  split.
  - apply (proj1 (counters_set_separately (K := bench) (run_cmd "3") (attached []) [])).
    reflexivity.
  - apply (proj2 (proj2 (proj2
             (counters_set_separately (K := bench) (run_cmd "3")
                (attached (request (run_cmd "3"))) [Poll; Countdown; Connections])))).
    + reflexivity.
    + reflexivity.
    + constructor.
    + repeat constructor.
Defined.

(** C7, counterexample.  A peer requests one instruction step and is
    superseded by a second peer, which requests a run of 2 frames: the
    state in which that call of [AI_Frame] returns is reachable and has
    both counters non-zero, the run having left the pending instruction
    count in place. *)
Lemma both_counters_pending :
  let s0 := started [Incoming 5 (request (step_cmd "1"));
                     Incoming 6 (request (run_cmd "2"))] in
  let s := exec (K := bench) [Connections; Countdown; Poll; Poll] s0 in
  AI_Frame 4 s0 = Some s /\
  reachable s /\
  ai_frames_to_run s = 2 /\
  ai_steps_to_run s = 1.
Proof.
  intros s0 s. split; [vm_compute; reflexivity|]. split.
  - exists idle, [Incoming 5 (request (step_cmd "1")); Incoming 6 (request (run_cmd "2"))],
      ["atari800"; "-ai"], 3, [Connections; Countdown; Poll; Poll].
    reflexivity.
  - split; vm_compute; reflexivity.
Qed.

(* ===================================================================== *)
(** * Decimal text                                                       *)
(* ===================================================================== *)

(** What [%d] writes, [atoi] reads back: the link between the numbers in
    a message and their text. *)

Lemma length_append (a b : string) :
  String.length (a +:+ b) = (String.length a + String.length b)%nat.
Proof.
  induction a as [|c a IH]; [reflexivity|]. rewrite append_cons. simpl. lia.
Qed.

Lemma digits_pretty_N_go (x : N) :
  exists k : Z, 0 <= k /\ forall (s : string) (acc : Z),
    C.digits (pretty_N_go x s) acc = C.digits s (acc * 10 ^ k + Z.of_N x).
Proof.
  induction (N.lt_wf_0 x) as [x _ IH].
  destruct (decide (x = 0%N)) as [->|Hx].
  - exists 0. split; [lia|]. intros s acc. rewrite pretty_N_go_0. f_equal. lia.
  - destruct (IH (x `div` 10)%N) as (k & Hk & IHk).
    { apply N.div_lt; lia. }
    exists (k + 1). split; [lia|]. intros s acc.
    rewrite pretty_N_go_step by lia. rewrite IHk.
    assert (Hd : forall r : N, (r < 10)%N ->
                 exists d, pretty_N_char r = d /\ C.isdigit d = true
                           /\ C.code d - 48 = Z.of_N r).
    { intros r Hr.
      assert (r = 0 \/ r = 1 \/ r = 2 \/ r = 3 \/ r = 4 \/ r = 5 \/ r = 6 \/
              r = 7 \/ r = 8 \/ r = 9)%N as Hc by lia.
      destruct Hc as [-> | [-> | [-> | [-> | [-> | [-> | [-> | [-> | [-> | ->]]]]]]]]];
        eexists; (split; [reflexivity|]); split; reflexivity. }
    specialize (Hd (x `mod` 10)%N ltac:(apply N.mod_lt; discriminate)).
    destruct Hd as (d & -> & Hdig & Hval).
    simpl C.digits. rewrite Hdig. f_equal.
    rewrite Hval. rewrite Z.pow_add_r by lia.
    rewrite N2Z.inj_mod. rewrite N2Z.inj_div.
    assert (Z.of_N x = 10 * (Z.of_N x / 10) + Z.of_N x mod 10) by (apply Z.div_mod; lia).
    change (Z.of_N 10) with 10. lia.
Qed.

Lemma pretty_N_go_app (x : N) (s rest : string) :
  pretty_N_go x s +:+ rest = pretty_N_go x (s +:+ rest).
Proof.
  revert s. induction (N.lt_wf_0 x) as [x _ IH]; intros s.
  destruct (decide (x = 0%N)) as [->|Hx].
  - rewrite !pretty_N_go_0. reflexivity.
  - rewrite (pretty_N_go_step x s), (pretty_N_go_step x (s +:+ rest)) by lia.
    rewrite IH by (apply N.div_lt; lia). reflexivity.
Qed.

Lemma pretty_N_char_digit (r : N) : C.isdigit (pretty_N_char r) = true.
Proof.
  unfold pretty_N_char.
  repeat match goal with |- context [match ?x with _ => _ end] => destruct x end;
    reflexivity.
Qed.

(** The decimal text of a positive number starts with a digit. *)
Lemma pretty_N_go_head (x : N) (s : string) :
  (0 < x)%N -> exists d t, pretty_N_go x s = String d t /\ C.isdigit d = true.
Proof.
  revert s. induction (N.lt_wf_0 x) as [x _ IH]; intros s Hx.
  rewrite pretty_N_go_step by lia.
  destruct (decide (x `div` 10 = 0)%N) as [E|E].
  - rewrite E, pretty_N_go_0. eexists _, _. split; [reflexivity|].
    apply pretty_N_char_digit.
  - apply IH; [apply N.div_lt; lia|apply N.neq_0_lt_0, E].
Qed.

Lemma dec_nonneg_head (n : Z) :
  0 <= n -> exists d t, C.dec n = String d t /\ C.isdigit d = true.
Proof.
  intros Hn. unfold C.dec, pretty, pretty_Z.
  destruct n as [|p|p]; [|  |lia].
  - exists "0"%char, "". split; reflexivity.
  - unfold pretty, pretty_positive, pretty, pretty_N.
    destruct (decide (N.pos p = 0%N)); [discriminate|].
    apply pretty_N_go_head. lia.
Qed.

Lemma dec_neg (n : Z) : n < 0 -> C.dec n = "-" +:+ C.dec (- n).
Proof.
  intros Hn. destruct n as [|p|p]; try lia. reflexivity.
Qed.

Lemma digits_end (rest : string) (acc : Z) :
  ends_number rest = true -> C.digits rest acc = acc.
Proof.
  destruct rest as [|c rest]; [reflexivity|]. simpl.
  intros H. apply negb_true_iff in H. rewrite H. reflexivity.
Qed.

Lemma digits_dec (n : Z) (rest : string) :
  0 <= n -> ends_number rest = true -> C.digits (C.dec n +:+ rest) 0 = n.
Proof.
  intros Hn Hrest. unfold C.dec, pretty, pretty_Z.
  destruct n as [|p|p]; [| |lia].
  - rewrite append_cons, append_nil. simpl. apply digits_end, Hrest.
  - unfold pretty, pretty_positive, pretty, pretty_N.
    destruct (decide (N.pos p = 0%N)); [discriminate|].
    rewrite pretty_N_go_app, append_nil.
    destruct (digits_pretty_N_go (N.pos p)) as (k & _ & Hk).
    rewrite Hk, digits_end by exact Hrest. simpl. reflexivity.
Qed.

Lemma digit_head_strtol (d : ascii) (t : string) :
  C.isdigit d = true ->
  C.strtol10 (String d t) = Z.max C.LONG_MIN (Z.min C.LONG_MAX (C.digits (String d t) 0)).
Proof.
  intros Hd.
  destruct d as [[] [] [] [] [] [] [] []]; try discriminate Hd; reflexivity.
Qed.

Lemma strtol10_dec (n : Z) (rest : string) :
  ends_number rest = true ->
  C.strtol10 (C.dec n +:+ rest) = Z.max C.LONG_MIN (Z.min C.LONG_MAX n).
Proof.
  intros Hrest. destruct (Z.le_gt_cases 0 n) as [Hn|Hn].
  - destruct (dec_nonneg_head n Hn) as (d & t & E & Hd).
    pose proof (digits_dec n rest Hn Hrest) as Hdig.
    rewrite E, append_cons in *. rewrite digit_head_strtol by exact Hd.
    rewrite Hdig. reflexivity.
  - rewrite dec_neg by lia. rewrite append_assoc.
    change ("-" +:+ (C.dec (- n) +:+ rest)) with (String "-" (C.dec (- n) +:+ rest)).
    unfold C.strtol10. cbn [C.skip_space]. change (C.isspace "-") with false. cbv iota.
    rewrite digits_dec by (auto with lia). f_equal. f_equal. lia.
Qed.

(** Decimal text read back by [atoi]. *)
Lemma atoi_dec (n : Z) (rest : string) :
  - 2 ^ 31 <= n < 2 ^ 31 -> ends_number rest = true ->
  C.atoi (C.dec n +:+ rest) = n.
Proof.
  intros Hn Hrest. unfold C.atoi. rewrite strtol10_dec by exact Hrest.
  unfold C.LONG_MIN, C.LONG_MAX, C.to_int.
  rewrite Z.min_r, Z.max_r by lia.
  rewrite Z.mod_small by lia. lia.
Qed.

Lemma digit_plain (d : ascii) :
  C.isdigit d = true ->
  Ascii.eqb d C.SPACE = false /\ Ascii.eqb d C.TAB = false /\
  Ascii.eqb d C.DQUOTE = false /\ Ascii.eqb d C.NUL = false /\
  Ascii.eqb d C.LF = false.
Proof.
  intros Hd.
  destruct d as [[] [] [] [] [] [] [] []]; try discriminate Hd; repeat split; reflexivity.
Qed.

Lemma nul_free_pretty_N_go (x : N) (s : string) :
  nul_free s = true -> nul_free (pretty_N_go x s) = true.
Proof.
  revert s. induction (N.lt_wf_0 x) as [x _ IH]; intros s Hs.
  destruct (decide (x = 0%N)) as [->|Hx]; [rewrite pretty_N_go_0; exact Hs|].
  rewrite pretty_N_go_step by lia. apply IH; [apply N.div_lt; lia|].
  simpl. rewrite Hs, andb_true_r.
  destruct (digit_plain _ (pretty_N_char_digit (x `mod` 10))) as (_ & _ & _ & -> & _).
  reflexivity.
Qed.

Lemma nul_free_dec (n : Z) : nul_free (C.dec n) = true.
Proof.
  unfold C.dec, pretty, pretty_Z. destruct n as [|p|p]; [reflexivity| |];
    unfold pretty, pretty_positive, pretty, pretty_N;
    (destruct (decide (N.pos p = 0%N)); [discriminate|]).
  - apply nul_free_pretty_N_go. reflexivity.
  - rewrite append_cons, append_nil. simpl. apply nul_free_pretty_N_go. reflexivity.
Qed.

(** A decimal text starts with a digit or a minus sign. *)
Lemma dec_head (n : Z) :
  exists d t, C.dec n = String d t /\
    Ascii.eqb d C.SPACE = false /\ Ascii.eqb d C.TAB = false /\
    Ascii.eqb d C.DQUOTE = false.
Proof.
  destruct (Z.le_gt_cases 0 n) as [Hn|Hn].
  - destruct (dec_nonneg_head n Hn) as (d & t & E & Hd).
    exists d, t. split; [exact E|]. destruct (digit_plain d Hd) as (? & ? & ? & _).
    auto.
  - rewrite dec_neg by lia. eexists _, _. split; [reflexivity|]. auto.
Qed.

Lemma one_line_pretty_N_go (x : N) (s : string) :
  one_line s = true -> one_line (pretty_N_go x s) = true.
Proof.
  revert s. induction (N.lt_wf_0 x) as [x _ IH]; intros s Hs.
  destruct (decide (x = 0%N)) as [->|Hx]; [rewrite pretty_N_go_0; exact Hs|].
  rewrite pretty_N_go_step by lia. apply IH; [apply N.div_lt; lia|].
  simpl. rewrite Hs, andb_true_r.
  destruct (digit_plain _ (pretty_N_char_digit (x `mod` 10))) as (_ & _ & _ & _ & ->).
  reflexivity.
Qed.

Lemma one_line_dec (n : Z) : one_line (C.dec n) = true.
Proof.
  unfold C.dec, pretty, pretty_Z. destruct n as [|p|p]; [reflexivity| |];
    unfold pretty, pretty_positive, pretty, pretty_N;
    (destruct (decide (N.pos p = 0%N)); [discriminate|]).
  - apply one_line_pretty_N_go. reflexivity.
  - rewrite append_cons, append_nil. simpl. apply one_line_pretty_N_go. reflexivity.
Qed.

Lemma length_pretty_N_go (k : nat) (x : N) (s : string) :
  (x < 10 ^ N.of_nat k)%N ->
  (String.length (pretty_N_go x s) <= String.length s + k)%nat.
Proof.
  revert x s. induction k as [|k IH]; intros x s Hx.
  - assert (x = 0%N) as -> by (simpl in Hx; lia). rewrite pretty_N_go_0. lia.
  - destruct (decide (x = 0%N)) as [->|Hx0]; [rewrite pretty_N_go_0; lia|].
    rewrite pretty_N_go_step by lia.
    etrans; [apply IH|simpl; lia].
    apply N.Div0.div_lt_upper_bound.
    rewrite Nat2N.inj_succ, N.pow_succ_r' in Hx. exact Hx.
Qed.

(** A non-negative [int] prints in at most ten characters. *)
Lemma length_dec (n : Z) : 0 <= n < 2 ^ 31 -> (String.length (C.dec n) <= 10)%nat.
Proof.
  intros Hn. unfold C.dec, pretty, pretty_Z. destruct n as [|p|p]; [simpl; lia| |lia].
  unfold pretty, pretty_positive, pretty, pretty_N.
  destruct (decide (N.pos p = 0%N)); [discriminate|].
  apply (length_pretty_N_go 10 (N.pos p) ""). lia.
Qed.

Lemma length_dec_int (n : Z) : - 2 ^ 31 <= n < 2 ^ 31 -> C.strlen (C.dec n) <= 11.
Proof.
  intros Hn. unfold C.strlen.
  assert (Hpos : forall p : Z, 0 <= p <= 2 ^ 31 -> (String.length (C.dec p) <= 10)%nat).
  { intros p Hp. unfold C.dec, pretty, pretty_Z. destruct p as [|p|p]; [simpl; lia| |lia].
    unfold pretty, pretty_positive, pretty, pretty_N.
    destruct (decide (N.pos p = 0%N)); [discriminate|].
    apply (length_pretty_N_go 10 (N.pos p) ""). lia. }
  destruct (Z.le_gt_cases 0 n).
  - specialize (Hpos n ltac:(lia)). lia.
  - rewrite dec_neg by lia. specialize (Hpos (- n) ltac:(lia)).
    rewrite length_append. simpl String.length. lia.
Qed.

Lemma to_int_range (z : Z) : - 2 ^ 31 <= C.to_int z < 2 ^ 31.
Proof. unfold C.to_int. Z.to_euclidean_division_equations; lia. Qed.

Lemma UWORD_to_int (z : Z) : C.UWORD (C.to_int z) = z mod 65536.
Proof. unfold C.UWORD, C.to_int. Z.to_euclidean_division_equations; lia. Qed.

Lemma skip_digits_pretty_N_go (x : N) (t : string) :
  skip_digits (pretty_N_go x t) = skip_digits t.
Proof.
  revert t. induction (N.lt_wf_0 x) as [x _ IH]; intros t.
  destruct (decide (x = 0%N)) as [->|Hx]; [rewrite pretty_N_go_0; reflexivity|].
  rewrite pretty_N_go_step by lia. rewrite IH by (apply N.div_lt; lia).
  simpl. rewrite pretty_N_char_digit. reflexivity.
Qed.

Lemma skip_digits_dec (v : Z) (rest : string) :
  0 <= v -> ends_number rest = true -> skip_digits (C.dec v +:+ rest) = rest.
Proof.
  intros Hv Hrest.
  assert (Hend : skip_digits rest = rest).
  { destruct rest as [|c rest]; [reflexivity|]. simpl in *.
    apply negb_true_iff in Hrest. rewrite Hrest. reflexivity. }
  unfold C.dec, pretty, pretty_Z. destruct v as [|p|p]; [exact Hend| |lia].
  unfold pretty, pretty_positive, pretty, pretty_N.
  destruct (decide (N.pos p = 0%N)); [discriminate|].
  rewrite pretty_N_go_app, append_nil, skip_digits_pretty_N_go. exact Hend.
Qed.

Lemma digit_not_sep (d : ascii) :
  C.isdigit d = true ->
  Ascii.eqb d "]" = false /\ Ascii.eqb d " " = false /\ Ascii.eqb d "," = false.
Proof.
  intros Hd.
  destruct d as [[] [] [] [] [] [] [] []]; try discriminate Hd; repeat split; reflexivity.
Qed.

(* ===================================================================== *)
(** * Field extraction on well-formed messages                           *)
(* ===================================================================== *)

Lemma nul_free_app (a b : string) :
  nul_free (a +:+ b) = nul_free a && nul_free b.
Proof.
  induction a as [|c a IH]; [reflexivity|].
  rewrite append_cons. simpl. rewrite IH, andb_assoc. reflexivity.
Qed.

Lemma c_str_app (a b : string) :
  nul_free a = true -> C.c_str (a +:+ b) = a +:+ C.c_str b.
Proof.
  induction a as [|c a IH]; intros Ha; [reflexivity|].
  simpl in Ha. apply andb_true_iff in Ha as [Hc Ha]. apply negb_true_iff in Hc.
  rewrite !append_cons. simpl. rewrite Hc, IH by exact Ha. reflexivity.
Qed.

Lemma nul_free_escape (v : string) : nul_free v = true -> nul_free (escape v) = true.
Proof.
  induction v as [|c v IH]; intros Hv; [reflexivity|].
  simpl in Hv. apply andb_true_iff in Hv as [Hc Hv].
  simpl. destruct (_ || _); simpl; rewrite ?Hc, IH by exact Hv; reflexivity.
Qed.

Lemma blank_nul_free (pad : string) : blank pad = true -> nul_free pad = true.
Proof.
  induction pad as [|c pad IH]; intros Hp; [reflexivity|].
  simpl in Hp. apply andb_true_iff in Hp as [Hc Hp].
  simpl. rewrite IH by exact Hp. rewrite andb_true_r.
  apply orb_true_iff in Hc as [Hc|Hc]; apply Ascii.eqb_eq in Hc; subst; reflexivity.
Qed.

(** The prefix test looks at no more of the text than the pattern is long. *)
Lemma prefix_extend (needle a b : string) :
  (String.length needle <= String.length a)%nat ->
  String.prefix needle (a +:+ b) = String.prefix needle a.
Proof.
  revert a. induction needle as [|c needle IH]; intros a Hlen.
  - destruct a; [destruct b|]; reflexivity.
  - destruct a as [|x a]; [simpl in Hlen; lia|].
    rewrite append_cons. simpl. destruct (Ascii.ascii_dec c x); [|reflexivity].
    apply IH. simpl in Hlen. lia.
Qed.

(** [strstr] returns the first occurrence. *)
Lemma strstr_first_at (pre needle post : string) :
  first_at pre needle = true ->
  C.strstr (pre +:+ needle +:+ post) needle = Some (needle +:+ post).
Proof.
  unfold first_at. induction pre as [|c pre IH]; intros H.
  - rewrite !append_nil. destruct needle; simpl; [destruct post; reflexivity|].
    pose proof (prefix_append (String a needle) post) as Hp.
    rewrite append_cons in Hp. simpl in Hp. rewrite Hp. reflexivity.
  - rewrite append_cons in *. cbn [C.strstr] in *.
    destruct (String.prefix needle (String c (pre +:+ needle))) eqn:Hp.
    + apply String.eqb_eq in H. apply (f_equal String.length) in H.
      simpl in H. rewrite length_append in H. lia.
    + assert (Hq : String.prefix needle (String c (pre +:+ needle +:+ post)) = false).
      { rewrite <- Hp. rewrite <- (append_assoc pre needle post).
        rewrite <- (append_cons c (pre +:+ needle) post).
        apply prefix_extend. simpl. rewrite length_append. lia. }
      rewrite Hq.
      apply IH. exact H.
Qed.

Lemma advance_app (a b : string) : C.advance (String.length a) (a +:+ b) = b.
Proof. induction a as [|c a IH]; [destruct b; reflexivity|exact IH]. Qed.

Lemma skip_blank_pad (pad x : string) :
  blank pad = true -> skip_blank x = x -> skip_blank (pad +:+ x) = x.
Proof.
  induction pad as [|c pad IH]; intros Hp Hx; [exact Hx|].
  simpl in Hp. apply andb_true_iff in Hp as [Hc Hp].
  rewrite append_cons. simpl. rewrite Hc. apply IH; assumption.
Qed.

Lemma search_key_fits (key : string) :
  C.strlen key <= 60 -> search_key key = quoted key +:+ ":".
Proof.
  intros Hlen. unfold search_key, C.snprintf. apply truncate_all.
  unfold quoted. rewrite !strlen_app.
  change (C.strlen dq) with 1. change (C.strlen ":") with 1. lia.
Qed.

(** The copy loop undoes the escaping, up to the room it has. *)
Lemma copy_value_escape (v rest : string) (room : Z) :
  copy_value (escape v +:+ dq +:+ rest) room = C.truncate room v.
Proof.
  revert room. induction v as [|c v IH]; intros room.
  - reflexivity.
  - cbn [escape C.truncate].
    destruct (Ascii.eqb c C.DQUOTE) eqn:Hq; [|destruct (Ascii.eqb c C.BSLASH) eqn:Hb].
    + apply Ascii.eqb_eq in Hq. subst c. cbn [orb].
      rewrite !append_cons. cbn [copy_value].
      change (Ascii.eqb C.BSLASH C.DQUOTE) with false.
      change (Ascii.eqb C.BSLASH C.BSLASH) with true. cbn [orb].
      destruct (room <=? 0); [reflexivity|]. rewrite IH. reflexivity.
    + apply Ascii.eqb_eq in Hb. subst c. cbn [orb].
      rewrite !append_cons. cbn [copy_value].
      change (Ascii.eqb C.BSLASH C.DQUOTE) with false.
      change (Ascii.eqb C.BSLASH C.BSLASH) with true. cbn [orb].
      destruct (room <=? 0); [reflexivity|]. rewrite IH. reflexivity.
    + cbn [orb]. rewrite append_cons. cbn [copy_value]. rewrite Hq, Hb. cbn [orb].
      destruct (room <=? 0); [reflexivity|]. rewrite IH. reflexivity.
Qed.

(** The head of the extractors on a message that carries the field. *)
Lemma field_value_present (pre key pad x post : string) :
  C.strlen key <= 60 ->
  nul_free (pre +:+ key +:+ x) = true ->
  first_at pre (quoted key +:+ ":") = true ->
  blank pad = true ->
  skip_blank (x +:+ C.c_str post) = x +:+ C.c_str post ->
  field_value (pre +:+ quoted key +:+ ":" +:+ pad +:+ x +:+ post) key
  = Some (x +:+ C.c_str post).
Proof.
  intros Hlen Hnul Hfirst Hpad Hx. unfold field_value.
  rewrite search_key_fits by exact Hlen.
  rewrite !nul_free_app in Hnul.
  apply andb_true_iff in Hnul as [Hpre Hnul]. apply andb_true_iff in Hnul as [Hkey Hxn].
  assert (Hc : C.c_str (pre +:+ quoted key +:+ ":" +:+ pad +:+ x +:+ post)
               = pre +:+ (quoted key +:+ ":") +:+ (pad +:+ x +:+ C.c_str post)).
  { rewrite c_str_app by exact Hpre. f_equal. unfold quoted.
    rewrite !append_assoc.
    rewrite (c_str_app dq) by reflexivity. f_equal.
    rewrite c_str_app by exact Hkey. f_equal.
    rewrite (c_str_app dq) by reflexivity. f_equal.
    rewrite (c_str_app ":") by reflexivity. f_equal.
    rewrite c_str_app by (apply blank_nul_free, Hpad). f_equal.
    apply c_str_app, Hxn. }
  rewrite Hc, strstr_first_at by exact Hfirst.
  rewrite advance_app. f_equal. apply skip_blank_pad; assumption.
Qed.

Lemma ends_number_c_str (post : string) :
  ends_number post = true -> ends_number (C.c_str post) = true.
Proof.
  destruct post as [|c post]; [reflexivity|]. simpl.
  destruct (Ascii.eqb c C.NUL); [reflexivity|]. simpl. auto.
Qed.

Lemma truncate_length (room : Z) (x : string) :
  0 <= room -> C.strlen (C.truncate room x) <= room.
Proof.
  unfold C.strlen. revert room. induction x as [|c x IH]; intros room Hr; simpl; [lia|].
  destruct (Z.leb_spec room 0); simpl; [lia|].
  specialize (IH (room - 1) ltac:(lia)). lia.
Qed.

Lemma nul_free_c_str (x : string) : nul_free (C.c_str x) = true.
Proof.
  induction x as [|c x IH]; [reflexivity|]. simpl.
  destruct (Ascii.eqb c C.NUL) eqn:E; [reflexivity|]. simpl. rewrite E, IH. reflexivity.
Qed.

Lemma nul_free_truncate (room : Z) (x : string) :
  nul_free x = true -> nul_free (C.truncate room x) = true.
Proof.
  revert room. induction x as [|c x IH]; intros room Hx; [reflexivity|].
  simpl in Hx. apply andb_true_iff in Hx as [Hc Hx]. simpl.
  destruct (room <=? 0); [reflexivity|]. simpl. rewrite Hc, IH by exact Hx. reflexivity.
Qed.

Lemma strstr_nul_free (hay needle p : string) :
  nul_free hay = true -> C.strstr hay needle = Some p -> nul_free p = true.
Proof.
  induction hay as [|c hay IH]; intros Hh Hp.
  - cbn [C.strstr] in Hp. destruct (String.prefix needle ""); [|discriminate Hp].
    injection Hp as <-. reflexivity.
  - cbn [C.strstr] in Hp. destruct (String.prefix needle (String c hay)).
    + injection Hp as <-. exact Hh.
    + simpl in Hh. apply andb_true_iff in Hh as [_ Hh]. exact (IH Hh Hp).
Qed.

Lemma advance_nul_free (n : nat) (p : string) :
  nul_free p = true -> nul_free (C.advance n p) = true.
Proof.
  revert p. induction n as [|n IH]; intros p Hp; [exact Hp|].
  destruct p as [|c p]; [reflexivity|]. simpl in Hp.
  apply andb_true_iff in Hp as [_ Hp]. exact (IH p Hp).
Qed.

Lemma skip_blank_nul_free (p : string) :
  nul_free p = true -> nul_free (skip_blank p) = true.
Proof.
  induction p as [|c p IH]; intros Hp; [reflexivity|]. simpl.
  destruct (_ || _); [|exact Hp]. simpl in Hp.
  apply andb_true_iff in Hp as [_ Hp]. exact (IH Hp).
Qed.

Lemma copy_value_nul_free (p : string) (room : Z) :
  nul_free p = true -> nul_free (copy_value p room) = true.
Proof.
  remember (String.length p) as n eqn:Hn. revert p room Hn.
  induction (lt_wf n) as [n _ IH]; intros p room -> Hp.
  destruct p as [|c p]; [reflexivity|]. simpl in Hp.
  apply andb_true_iff in Hp as [Hc Hp]. cbn [copy_value].
  destruct (_ || _); [reflexivity|].
  destruct (Ascii.eqb c C.BSLASH).
  - destruct p as [|c' p]; [simpl; rewrite Hc; reflexivity|].
    simpl in Hp. apply andb_true_iff in Hp as [Hc' Hp].
    simpl. rewrite Hc'. simpl.
    apply (IH (String.length p)); simpl; auto with lia.
  - simpl. rewrite Hc. simpl. apply (IH (String.length p)); simpl; auto with lia.
Qed.

Lemma json_get_int_range (json key : string) (def : Z) :
  - 2 ^ 31 <= def < 2 ^ 31 -> - 2 ^ 31 <= json_get_int json key def < 2 ^ 31.
Proof.
  intros Hd. unfold json_get_int.
  destruct (field_value json key) as [p|]; [|exact Hd].
  destruct (first_is C.DQUOTE p); [exact Hd|apply to_int_range].
Qed.


(** X1.  [json_get_string] reads back a string value that a client wrote
    with a backslash before every double quote and backslash: for a
    message in which the field is the first occurrence of its pattern,
    with blanks or tabs after the colon or none, the buffer receives
    the value itself, cut to [bufsize - 1] characters when it is
    longer. *)
Theorem string_field_round_trip (pre key pad v post : string) (bufsize : Z) :
  C.strlen key <= 60 ->
  nul_free (pre +:+ key +:+ v) = true ->
  first_at pre (quoted key +:+ ":") = true ->
  blank pad = true ->
  json_get_string
    (pre +:+ quoted key +:+ ":" +:+ pad +:+ quoted (escape v) +:+ post) key bufsize
  = Some (C.truncate (bufsize - 1) v).
Proof.
  intros Hlen Hnul Hfirst Hpad. unfold json_get_string.
  rewrite !nul_free_app in Hnul.
  apply andb_true_iff in Hnul as [Hpre Hnul]. apply andb_true_iff in Hnul as [Hkey Hv].
  rewrite field_value_present; try assumption.
  - unfold quoted. rewrite !append_assoc.
    change (dq +:+ escape v +:+ dq +:+ C.c_str post)
      with (String C.DQUOTE (escape v +:+ dq +:+ C.c_str post)).
    cbn [first_is C.advance]. change (Ascii.eqb C.DQUOTE C.DQUOTE) with true. cbv iota.
    f_equal. apply copy_value_escape.
  - rewrite !nul_free_app, Hpre, Hkey. unfold quoted. rewrite !nul_free_app.
    rewrite nul_free_escape by exact Hv. reflexivity.
  - unfold quoted. rewrite !append_assoc. reflexivity.
Qed.

(** [string_field_round_trip] on a load request whose path holds a
    double quote and a backslash, with a blank after the colon. *)
Lemma string_field_round_trip_witness :
  let v := "a" +:+ dq +:+ "b" +:+ String C.BSLASH "c" in
  json_get_string
    ("{" +:+ quoted "cmd" +:+ ":" +:+ quoted "load" +:+ "," +:+ quoted "path" +:+ ":"
         +:+ " " +:+ quoted (escape v) +:+ "}") "path" 512
  = Some v.
Proof.
  intros v.
  refine (string_field_round_trip
            ("{" +:+ quoted "cmd" +:+ ":" +:+ quoted "load" +:+ ",")
            "path" " " v "}" 512 _ _ _ _).
  - vm_compute. discriminate.
  - reflexivity.
  - reflexivity.
  - reflexivity.
Defined.


(** X2.  Whatever the message, the value that [json_get_string] leaves
    in a buffer of [bufsize >= 1] bytes has at most [bufsize - 1]
    characters and no NUL among them: with its terminator it fits the
    buffer. *)
Theorem string_field_fits (json key : string) (bufsize : Z) (v : string) :
  1 <= bufsize ->
  json_get_string json key bufsize = Some v ->
  C.strlen v <= bufsize - 1 /\ nul_free v = true.
Proof.
  intros Hsize. unfold json_get_string, field_value.
  destruct (C.strstr (C.c_str json) (search_key key)) as [p|] eqn:Hp; [|discriminate].
  apply strstr_nul_free in Hp; [|apply nul_free_c_str].
  destruct (first_is _ _); [|discriminate]. intros Hv.
  assert (E : v = copy_value
                    (C.advance 1
                       (skip_blank (C.advance (String.length (search_key key)) p)))
                    (bufsize - 1)) by congruence.
  rewrite E. split.
  - apply copy_value_length. lia.
  - apply copy_value_nul_free, advance_nul_free, skip_blank_nul_free, advance_nul_free, Hp.
Qed.

(** [string_field_fits] on a command name of 40 characters read into
    the 32 bytes of [cmd_type]. *)
Lemma string_field_fits_witness :
  let name := "abcdefghijklmnopqrstuvwxyzabcdefghijklmn" in
  json_get_string (object [("cmd", quoted name)]) "cmd" 32
  = Some (C.truncate 31 name) /\
  C.strlen (C.truncate 31 name) <= 32 - 1 /\ nul_free (C.truncate 31 name) = true.
Proof.
  intros name. split; [reflexivity|].
  refine (string_field_fits (object [("cmd", quoted name)]) "cmd" 32
            (C.truncate 31 name) _ _).
  - lia.
  - reflexivity.
Defined.


(** X3.  [json_get_int] reads back a number that a client wrote in
    decimal: for an [int] value [n], in a message in which the field is
    the first occurrence of its pattern and the text after the digits
    does not go on with a digit, the result is [n], not the default. *)
Theorem int_field_round_trip (pre key pad post : string) (n def : Z) :
  C.strlen key <= 60 ->
  nul_free (pre +:+ key) = true ->
  first_at pre (quoted key +:+ ":") = true ->
  blank pad = true ->
  - 2 ^ 31 <= n < 2 ^ 31 ->
  ends_number post = true ->
  json_get_int (pre +:+ quoted key +:+ ":" +:+ pad +:+ C.dec n +:+ post) key def = n.
Proof.
  intros Hlen Hnul Hfirst Hpad Hn Hpost. unfold json_get_int.
  destruct (dec_head n) as (d & t & E & Hs & Ht & Hq).
  rewrite field_value_present; try assumption.
  - rewrite E at 1. rewrite append_cons. cbn [first_is]. rewrite Hq.
    apply atoi_dec; [exact Hn|apply ends_number_c_str, Hpost].
  - rewrite !nul_free_app in *. rewrite nul_free_dec, andb_true_r. exact Hnul.
  - rewrite E, append_cons. simpl. rewrite Hs, Ht. reflexivity.
Qed.

(** [int_field_round_trip] on a run request for -42 frames. *)
Lemma int_field_round_trip_witness :
  json_get_int
    ("{" +:+ quoted "cmd" +:+ ":" +:+ quoted "run" +:+ "," +:+ quoted "frames" +:+ ":"
         +:+ " " +:+ C.dec (-42) +:+ "}") "frames" 1
  = -42.
Proof.
  refine (int_field_round_trip
            ("{" +:+ quoted "cmd" +:+ ":" +:+ quoted "run" +:+ ",")
            "frames" " " "}" (-42) 1 _ _ _ _ _ _).
  - vm_compute. discriminate.
  - reflexivity.
  - reflexivity.
  - reflexivity.
  - lia.
  - reflexivity.
Defined.


(** X4.  [json_get_bool] reads back the literals true and false as 1
    and 0, whatever the default, in a message in which the field is the
    first occurrence of its pattern. *)
Theorem bool_field_round_trip (pre key pad post : string) (b : bool) (def : Z) :
  C.strlen key <= 60 ->
  nul_free (pre +:+ key) = true ->
  first_at pre (quoted key +:+ ":") = true ->
  blank pad = true ->
  json_get_bool
    (pre +:+ quoted key +:+ ":" +:+ pad +:+ (if b then "true" else "false") +:+ post)
    key def
  = (if b then 1 else 0).
Proof.
  intros Hlen Hnul Hfirst Hpad. unfold json_get_bool.
  rewrite field_value_present; try assumption.
  - destruct b.
    + change ("true" +:+ C.c_str post) with (String "t" (String "r" (String "u" (String "e" (C.c_str post))))).
      cbn. destruct (C.c_str post); reflexivity.
    + change ("false" +:+ C.c_str post)
        with (String "f" (String "a" (String "l" (String "s" (String "e" (C.c_str post)))))).
      cbn. destruct (C.c_str post); reflexivity.
  - rewrite !nul_free_app in *. destruct b; rewrite andb_true_r; exact Hnul.
  - destruct b; reflexivity.
Qed.

(** [bool_field_round_trip] on the fire field of a joystick request. *)
Lemma bool_field_round_trip_witness :
  json_get_bool (joystick_cmd "0" "up" "true") "fire" 0 = 1.
Proof.
  refine (bool_field_round_trip
            ("{" +:+ quoted "cmd" +:+ ":" +:+ quoted "joystick" +:+ ","
                 +:+ quoted "port" +:+ ":0," +:+ quoted "direction" +:+ ":"
                 +:+ quoted "up" +:+ ",")
            "fire" "" "}" true 0 _ _ _ _).
  - vm_compute. discriminate.
  - reflexivity.
  - reflexivity.
  - reflexivity.
Defined.

(* ===================================================================== *)
(** * Base64                                                             *)
(* ===================================================================== *)

Lemma land_63 (n : Z) : Z.land n 63 = n mod 64.
Proof. change 63 with (Z.ones 6). apply Z.land_ones. lia. Qed.

(** Every 6-bit value has its character, which is not the padding
    character and reads back as the value. *)
Lemma b64_char (n : Z) :
  exists c, b64 n = String c "" /\ b64_value c = Some (n mod 64) /\
            Ascii.eqb c "=" = false.
Proof.
  unfold b64. rewrite land_63.
  assert (Hr : 0 <= n mod 64 < 64) by (apply Z.mod_pos_bound; lia).
  assert (Hall : forallb (fun k =>
            match glyph k b64_table with
            | String c "" =>
                match b64_value c with
                | Some k' => (k' =? k) && negb (Ascii.eqb c "=")
                | None => false
                end
            | _ => false
            end) (seqZ 0 64) = true) by (vm_compute; reflexivity).
  rewrite forallb_forall in Hall.
  specialize (Hall (n mod 64)).
  assert (Hin : In (n mod 64) (seqZ 0 64)) by (apply list_elem_of_In, elem_of_seqZ; lia).
  specialize (Hall Hin).
  destruct (glyph (n mod 64) b64_table) as [|c [|? ?]]; try discriminate Hall.
  exists c. split; [reflexivity|].
  destruct (b64_value c) as [k'|]; [|discriminate Hall].
  apply andb_true_iff in Hall as [Hk Hc]. apply Z.eqb_eq in Hk.
  apply negb_true_iff in Hc. subst k'. split; [reflexivity|exact Hc].
Qed.

Lemma lor_shiftl (hi lo k : Z) :
  0 <= k -> 0 <= lo < 2 ^ k -> Z.lor (Z.shiftl hi k) lo = hi * 2 ^ k + lo.
Proof.
  intros Hk Hlo.
  assert (Hland : Z.land (Z.shiftl hi k) lo = 0).
  { apply Z.bits_inj'. intros i Hi. rewrite Z.land_spec, Z.bits_0.
    destruct (Z.lt_ge_cases i k).
    - rewrite Z.shiftl_spec_low by lia. reflexivity.
    - replace lo with (lo mod 2 ^ k) by (apply Z.mod_small; lia).
      rewrite Z.mod_pow2_bits_high by lia. apply andb_false_r. }
  rewrite <- Z.lxor_lor by exact Hland.
  rewrite <- Z.add_nocarry_lxor by exact Hland.
  rewrite Z.shiftl_mul_pow2 by lia. reflexivity.
Qed.

Lemma b64_word3 (a b c : Z) :
  0 <= a < 256 -> 0 <= b < 256 -> 0 <= c < 256 ->
  Z.lor (Z.lor (Z.shiftl a 16) (Z.shiftl b 8)) c = a * 65536 + b * 256 + c.
Proof.
  intros Ha Hb Hc.
  rewrite (Z.shiftl_mul_pow2 b 8) by lia.
  rewrite (lor_shiftl a (b * 2 ^ 8) 16) by lia.
  replace (a * 2 ^ 16 + b * 2 ^ 8) with ((a * 256 + b) * 2 ^ 8) by lia.
  rewrite <- (Z.shiftl_mul_pow2 (a * 256 + b) 8) by lia.
  rewrite lor_shiftl by lia. lia.
Qed.

Lemma b64_word2 (a b : Z) :
  0 <= a < 256 -> 0 <= b < 256 ->
  Z.lor (Z.shiftl a 16) (Z.shiftl b 8) = a * 65536 + b * 256.
Proof.
  intros Ha Hb.
  rewrite (Z.shiftl_mul_pow2 b 8) by lia.
  rewrite (lor_shiftl a (b * 2 ^ 8) 16) by lia. lia.
Qed.

Lemma shiftr_div (n k : Z) : 0 <= k -> Z.shiftr n k = n / 2 ^ k.
Proof. intros. apply Z.shiftr_div_pow2. lia. Qed.

Lemma b64_groups_3 (len : nat) : b64_groups (3 + len) = 1 + b64_groups len.
Proof.
  unfold b64_groups. rewrite Nat2Z.inj_add. change (Z.of_nat 3) with 3.
  Z.to_euclidean_division_equations; lia.
Qed.

Lemma strlen_cons (c : ascii) (t : string) : C.strlen (String c t) = 1 + C.strlen t.
Proof. unfold C.strlen. simpl String.length. lia. Qed.

(** The encoder with room for all of [data]: what it appends reads back
    as [data]. *)
Lemma base64_encode_reads_back (n : nat) (data : list Z) (outsize : Z) (acc : string) :
  (length data <= n)%nat ->
  Forall (fun b => 0 <= b < 256) data ->
  C.strlen acc + 4 * b64_groups (length data) < outsize ->
  exists text,
    base64_encode data outsize acc = acc +:+ text /\
    base64_decode text = Some data /\
    C.strlen text = 4 * b64_groups (length data).
Proof.
  revert data acc. induction n as [|n IH]; intros data acc Hn Hdata Hroom.
  { destruct data; [|simpl in Hn; lia]. exists "". rewrite append_nil_r. auto. }
  destruct data as [|a [|b [|c rest]]].
  - exists "". rewrite append_nil_r. auto.
  - apply Forall_cons in Hdata as [Ha _].
    change (b64_groups (length [a])) with 1 in *.
    cbn [base64_encode]. destruct (Z.ltb_spec (C.strlen acc) (outsize - 4)); [|lia].
    cbv zeta. rewrite !shiftr_div, Z.shiftl_mul_pow2 by lia.
    destruct (b64_char (a * 2 ^ 16 / 2 ^ 18)) as (x & -> & Hx & _).
    destruct (b64_char (a * 2 ^ 16 / 2 ^ 12)) as (y & -> & Hy & _).
    eexists. split; [reflexivity|]. split; [|reflexivity].
    rewrite !append_cons, !append_nil. cbn [base64_decode].
    rewrite Hx, Hy. cbn. f_equal. f_equal.
    Z.to_euclidean_division_equations; lia.
  - apply Forall_cons in Hdata as [Ha Hdata]. apply Forall_cons in Hdata as [Hb _].
    change (b64_groups (length [a; b])) with 1 in *.
    cbn [base64_encode]. destruct (Z.ltb_spec (C.strlen acc) (outsize - 4)); [|lia].
    cbv zeta. rewrite !shiftr_div by lia. rewrite b64_word2 by assumption.
    destruct (b64_char ((a * 65536 + b * 256) / 2 ^ 18)) as (x & -> & Hx & _).
    destruct (b64_char ((a * 65536 + b * 256) / 2 ^ 12)) as (y & -> & Hy & _).
    destruct (b64_char ((a * 65536 + b * 256) / 2 ^ 6)) as (z & -> & Hz & Nz).
    eexists. split; [reflexivity|]. split; [|reflexivity].
    rewrite !append_cons, !append_nil. cbn [base64_decode].
    rewrite Hx, Hy, Hz, Nz. cbn. f_equal. f_equal; [|f_equal];
      Z.to_euclidean_division_equations; lia.
  - apply Forall_cons in Hdata as [Ha Hdata]. apply Forall_cons in Hdata as [Hb Hdata].
    apply Forall_cons in Hdata as [Hc Hdata].
    change (length (a :: b :: c :: rest)) with (3 + length rest)%nat in *.
    rewrite b64_groups_3 in *.
    assert (Hg : 0 <= b64_groups (length rest)).
    { unfold b64_groups. Z.to_euclidean_division_equations; lia. }
    cbn [base64_encode]. destruct (Z.ltb_spec (C.strlen acc) (outsize - 4)); [|lia].
    cbv zeta. rewrite !shiftr_div by lia. rewrite b64_word3 by assumption.
    set (w3 := a * 65536 + b * 256 + c).
    destruct (b64_char (w3 / 2 ^ 18)) as (x & Ex & Hx & _).
    destruct (b64_char (w3 / 2 ^ 12)) as (y & Ey & Hy & _).
    destruct (b64_char (w3 / 2 ^ 6)) as (z & Ez & Hz & Nz).
    destruct (b64_char w3) as (w & Ew & Hw & Nw).
    rewrite Ex, Ey, Ez, Ew.
    destruct (IH rest (acc +:+ String x "" +:+ String y "" +:+ String z "" +:+ String w ""))
      as (text & -> & Hdec & Hlen).
    + simpl in Hn. lia.
    + exact Hdata.
    + rewrite !strlen_app, !strlen_cons. change (C.strlen "") with 0. lia.
    + exists (String x (String y (String z (String w text)))).
      split; [|split].
      * rewrite !append_assoc. reflexivity.
      * cbn [base64_decode]. rewrite Hx, Hy, Hz, Nz, Hw, Nw, Hdec.
        f_equal. unfold b64_group. cbn [app]. subst w3.
        f_equal; [|f_equal; [|f_equal]]; Z.to_euclidean_division_equations; lia.
      * rewrite !strlen_cons, Hlen. lia.
Qed.


(** X5.  [base64_encode] writes standard Base64: when the output buffer
    has room for all the groups, the text decodes back to the bytes it
    was given, and it has four characters for every three bytes, the
    last group padded. *)
Theorem base64_round_trip (data : list Z) (outsize : Z) :
  Forall (fun b => 0 <= b < 256) data ->
  4 * b64_groups (length data) < outsize ->
  base64_decode (base64_encode data outsize "") = Some data /\
  C.strlen (base64_encode data outsize "") = 4 * b64_groups (length data).
Proof.
  intros Hdata Hroom.
  destruct (base64_encode_reads_back (length data) data outsize "")
    as (text & -> & Hdec & Hlen); auto.
Qed.

(** [base64_round_trip] on two bytes, which need a padded group. *)
Lemma base64_round_trip_witness :
  base64_encode [77; 97] 16 "" = "TWE=" /\
  base64_decode (base64_encode [77; 97] 16 "") = Some [77; 97] /\
  C.strlen (base64_encode [77; 97] 16 "") = 4 * b64_groups 2.
Proof.
  split; [reflexivity|].
  refine (base64_round_trip [77; 97] 16 _ _).
  - repeat constructor; lia.
  - reflexivity.
Defined.

(** The encoder never writes past [outsize - 1] characters. *)
Lemma base64_encode_bounded (n : nat) (data : list Z) (outsize : Z) (acc : string) :
  (length data <= n)%nat ->
  C.strlen acc < outsize -> C.strlen acc mod 4 = 0 ->
  C.strlen (base64_encode data outsize acc) < outsize /\
  C.strlen (base64_encode data outsize acc) mod 4 = 0.
Proof.
  revert data acc. induction n as [|n IH]; intros data acc Hn Hacc Hmod.
  { destruct data; [|simpl in Hn; lia]. auto. }
  destruct data as [|a [|b [|c rest]]]; cbn [base64_encode]; [auto|..];
    (destruct (Z.ltb_spec (C.strlen acc) (outsize - 4)); [|auto]); cbv zeta.
  - destruct (b64_char (Z.shiftr (Z.shiftl a 16) 18)) as (x & -> & _).
    destruct (b64_char (Z.shiftr (Z.shiftl a 16) 12)) as (y & -> & _).
    rewrite !strlen_app, !strlen_cons. change (C.strlen "") with 0.
    split; [lia|]. Z.to_euclidean_division_equations; lia.
  - destruct (b64_char (Z.shiftr (Z.lor (Z.shiftl a 16) (Z.shiftl b 8)) 18)) as (x & -> & _).
    destruct (b64_char (Z.shiftr (Z.lor (Z.shiftl a 16) (Z.shiftl b 8)) 12)) as (y & -> & _).
    destruct (b64_char (Z.shiftr (Z.lor (Z.shiftl a 16) (Z.shiftl b 8)) 6)) as (z & -> & _).
    rewrite !strlen_app, !strlen_cons. change (C.strlen "") with 0.
    split; [lia|]. Z.to_euclidean_division_equations; lia.
  - set (w3 := Z.lor (Z.lor (Z.shiftl a 16) (Z.shiftl b 8)) c).
    destruct (b64_char (Z.shiftr w3 18)) as (x & -> & _).
    destruct (b64_char (Z.shiftr w3 12)) as (y & -> & _).
    destruct (b64_char (Z.shiftr w3 6)) as (z & -> & _).
    destruct (b64_char w3) as (w & -> & _).
    apply IH.
    + simpl in Hn. lia.
    + rewrite !strlen_app, !strlen_cons. change (C.strlen "") with 0. lia.
    + rewrite !strlen_app, !strlen_cons. change (C.strlen "") with 0.
      Z.to_euclidean_division_equations; lia.
Qed.


(** X6.  Whatever the data and the size of the output buffer,
    [base64_encode] writes whole groups of four characters and stops
    while the text and its terminator still fit: the length of the text
    is a multiple of 4 below [outsize]. *)
Theorem base64_output_fits (data : list Z) (outsize : Z) :
  0 < outsize ->
  C.strlen (base64_encode data outsize "") < outsize /\
  C.strlen (base64_encode data outsize "") mod 4 = 0.
Proof.
  intros Hout. apply (base64_encode_bounded (length data)); auto.
Qed.

(** [base64_output_fits] on six bytes and a buffer of 6 bytes, which
    holds one group only. *)
Lemma base64_output_fits_witness :
  base64_encode [77; 97; 110; 77; 97; 110] 6 "" = "TWFu" /\
  C.strlen (base64_encode [77; 97; 110; 77; 97; 110] 6 "") < 6 /\
  C.strlen (base64_encode [77; 97; 110; 77; 97; 110] 6 "") mod 4 = 0.
Proof.
  split; [reflexivity|].
  refine (base64_output_fits [77; 97; 110; 77; 97; 110] 6 _). lia.
Defined.

(* ===================================================================== *)
(** * Requests on the wire                                               *)
(* ===================================================================== *)

Lemma take_data_all (a : string) (rest : list sock_ev) :
  take_data (String.length a) (script_of a ++ rest) = (a, rest).
Proof.
  induction a as [|c a IH]; [destruct rest; reflexivity|].
  change (script_of (String c a)) with (Data c :: script_of a).
  simpl. rewrite IH. reflexivity.
Qed.

Lemma take_data_short (n : nat) (a : string) (rest : list sock_ev) :
  (String.length a <= n)%nat ->
  take_data n (script_of a ++ WouldBlock :: rest) = (a, WouldBlock :: rest).
Proof.
  revert n. induction a as [|c a IH]; intros n Hn; [destruct n; reflexivity|].
  destruct n as [|n]; [simpl in Hn; lia|].
  change (script_of (String c a)) with (Data c :: script_of a).
  simpl. rewrite IH by (simpl in Hn; lia). reflexivity.
Qed.

Lemma array_text_values (v : Z) (values : list Z) (post : string) :
  String.concat "," (map C.dec (v :: values)) +:+ "]" +:+ post
  = C.dec v +:+ more_values values post.
Proof.
  revert v. induction values as [|w values IH]; intros v; [reflexivity|].
  change (String.concat "," (map C.dec (v :: w :: values)))
    with (C.dec v +:+ "," +:+ String.concat "," (map C.dec (w :: values))).
  rewrite !append_assoc, IH. reflexivity.
Qed.

Lemma more_values_ends (values : list Z) (post : string) :
  ends_number (more_values values post) = true.
Proof. destruct values; reflexivity. Qed.

Lemma nul_free_concat_dec (values : list Z) :
  nul_free (String.concat "," (map C.dec values)) = true.
Proof.
  induction values as [|v [|w values] IH]; [reflexivity|apply nul_free_dec|].
  change (String.concat "," (map C.dec (v :: w :: values)))
    with (C.dec v +:+ "," +:+ String.concat "," (map C.dec (w :: values))).
  rewrite !nul_free_app, nul_free_dec, IH. reflexivity.
Qed.

(* ===================================================================== *)
(** * Further properties of the server                                   *)
(* ===================================================================== *)

Section Further.

Context {K : Collaborators}.
Implicit Types (s : state) (cmd json : string) (m : machine hw).

Ltac fields :=
  cbn [AI_enabled AI_debug_port AI_socket_path AI_joy_override AI_trig_override
       ai_server_fd ai_client_fd ai_paused ai_frames_to_run ai_steps_to_run
       ai_debug_buffer ai_debug_buffer_pos emu peer backlog open_fds sent
       set_enabled set_socket_path set_server_fd set_debug_port set_joy_override
       set_trig_override set_client_fd set_paused set_frames_to_run
       set_steps_to_run set_debug_buffer set_debug_buffer_pos set_emu set_peer
       set_backlog set_open_fds set_sent].

(** ** The text picture of the screen *)

Lemma land_15 (n : Z) : Z.land n 15 = n mod 16.
Proof. change 15 with (Z.ones 4). apply Z.land_ones. lia. Qed.

Lemma sample_length m (row col : Z) : C.strlen (sample m row col) = 1.
Proof.
  unfold sample. cbv zeta. rewrite land_15.
  match goal with |- context [?p mod 16] =>
    assert (Hr : 0 <= p mod 16 < 16) by (apply Z.mod_pos_bound; lia);
    generalize dependent (p mod 16) end.
  intros b Hb.
  assert (Hall : forallb (fun b =>
            C.strlen (glyph (Z.quot (b * (C.strlen ramp - 1)) 15) ramp) =? 1)
            (seqZ 0 16) = true) by (vm_compute; reflexivity).
  rewrite forallb_forall in Hall. apply Z.eqb_eq, Hall.
  apply list_elem_of_In, elem_of_seqZ. lia.
Qed.

Lemma samples_total m (row : Z) (cols : list Z) :
  total (map (sample m row) cols) = Z.of_nat (length cols).
Proof.
  induction cols as [|col cols IH]; [reflexivity|].
  simpl map. simpl total. rewrite sample_length, IH. simpl length. lia.
Qed.

Lemma ascii_line_length m (row : Z) : C.strlen (ascii_line m row) = 42.
Proof.
  unfold ascii_line, quoted. rewrite !strlen_app, strlen_join, samples_total.
  reflexivity.
Qed.

(** A row written with room to spare. *)
Lemma ascii_row_full m (row : Z) (acc : string) :
  C.strlen acc < 1948 ->
  ascii_row m 2048 row acc
  = acc +:+ ascii_line m row +:+ (if row <? 23 then "," else "").
Proof.
  intros Hacc. unfold ascii_row. cbv zeta.
  rewrite append_while_all.
  - unfold ascii_line, quoted. destruct (row <? 23);
      rewrite ?append_nil_r, !append_assoc; reflexivity.
  - rewrite strlen_app, samples_total. change (C.strlen dq) with 1.
    change (Z.of_nat (length (seqZ 0 40))) with 40. lia.
Qed.

Lemma ascii_rows_full m (rows : list Z) (acc : string) :
  C.strlen acc + 43 * Z.of_nat (length rows) < 1948 ->
  ascii_rows m 2048 rows acc
  = acc +:+ join (map (fun row => ascii_line m row +:+ (if row <? 23 then "," else ""))
                      rows).
Proof.
  revert acc. induction rows as [|row rows IH]; intros acc Hacc.
  - simpl. rewrite append_nil_r. reflexivity.
  - cbn [ascii_rows]. cbn [length] in Hacc. pose proof (strlen_nonneg acc).
    destruct (Z.ltb_spec (C.strlen acc) (2048 - 100)); [|lia].
    rewrite ascii_row_full by lia. rewrite IH.
    + cbn [map join foldr]. rewrite !append_assoc. reflexivity.
    + rewrite !strlen_app, ascii_line_length.
      assert (C.strlen (if row <? 23 then "," else "") <= 1)
        by (destruct (row <? 23); unfold C.strlen; simpl; lia).
      lia.
Qed.

Lemma rows_with_commas (f : Z -> string) :
  join (map (fun row => f row +:+ (if row <? 23 then "," else "")) (seqZ 0 24))
  = String.concat "," (map f (seqZ 0 24)).
Proof.
  change (seqZ 0 24)
    with [0; 1; 2; 3; 4; 5; 6; 7; 8; 9; 10; 11; 12; 13; 14; 15; 16; 17; 18; 19; 20;
          21; 22; 23].
  cbn [map join foldr String.concat Z.ltb Z.compare Pos.compare Pos.compare_cont].
  rewrite !append_nil_r. rewrite !append_assoc. reflexivity.
Qed.


(** X7.  With the 2048-byte buffer that the screen_ascii handler gives
    it, [screen_to_ascii] never stops early: whatever the screen shows,
    the text is a JSON array of 24 strings of 40 characters each, 1033
    characters in all. *)
Theorem screen_ascii_is_complete m :
  screen_to_ascii m 2048
  = "[" +:+ String.concat "," (map (ascii_line m) (seqZ 0 24)) +:+ "]" /\
  (forall row, C.strlen (ascii_line m row) = 42) /\
  C.strlen (screen_to_ascii m 2048) = 1033.
Proof.
  assert (E : screen_to_ascii m 2048
              = "[" +:+ String.concat "," (map (ascii_line m) (seqZ 0 24)) +:+ "]").
  { unfold screen_to_ascii. rewrite ascii_rows_full.
    - rewrite rows_with_commas, append_assoc. reflexivity.
    - change (C.strlen "[") with 1. change (Z.of_nat (length (seqZ 0 24))) with 24. lia. }
  split; [exact E|]. split; [apply ascii_line_length|].
  unfold screen_to_ascii. rewrite ascii_rows_full
    by (change (C.strlen "[") with 1; change (Z.of_nat (length (seqZ 0 24))) with 24; lia).
  rewrite !strlen_app, strlen_join.
  change (seqZ 0 24)
    with [0; 1; 2; 3; 4; 5; 6; 7; 8; 9; 10; 11; 12; 13; 14; 15; 16; 17; 18; 19; 20;
          21; 22; 23].
  cbn [map total foldr Z.ltb Z.compare Pos.compare Pos.compare_cont].
  rewrite !strlen_app, !ascii_line_length.
  change (C.strlen ",") with 1. change (C.strlen "") with 0.
  change (C.strlen "[") with 1. change (C.strlen "]") with 1. lia.
Qed.


(** X8.  The pixel that [screen_to_ascii] samples for a cell lies inside
    the screen buffer for every row and column, also outside the 24 by
    40 grid: the clamping keeps the offset at 0 or above and below
    [Screen_WIDTH * Screen_HEIGHT]. *)
Theorem sample_reads_inside_screen m (row col : Z) :
  0 < Screen_WIDTH -> 0 < Screen_HEIGHT ->
  0 <= pixel_offset row col < Screen_WIDTH * Screen_HEIGHT /\
  sample m row col
  = glyph (Z.quot (Z.land (C.UBYTE (Screen_atari m (pixel_offset row col))) 15
                   * (C.strlen ramp - 1)) 15) ramp.
Proof.
  intros Hw Hh. split; [|reflexivity].
  unfold pixel_offset. cbv zeta.
  repeat match goal with
         | |- context [if ?a <? ?b then _ else _] => destruct (Z.ltb_spec a b)
         | |- context [if ?a <=? ?b then _ else _] => destruct (Z.leb_spec a b)
         end; nia.
Qed.

Lemma format_response_fits (text : string) :
  C.strlen text < AI_MAX_RESPONSE -> format_response text = text.
Proof. intros H. unfold format_response, C.snprintf. apply truncate_all. lia. Qed.


(** X9.  The screen_raw handler answers with the whole screen: for a
    screen of 5 to 700000 pixels the data field is the Base64 text of
    every byte of the screen buffer, nothing cut short by the encoder's
    buffer or by the response buffer. *)
Theorem screen_raw_carries_the_screen s :
  0 < Screen_WIDTH -> 0 < Screen_HEIGHT ->
  5 <= Screen_WIDTH * Screen_HEIGHT <= 700000 ->
  exists b64,
    cmd_screen_raw s = AI_SendResponse (screen_raw_text b64) s /\
    base64_decode b64 = Some (screen_bytes (emu s)) /\
    C.strlen b64 = 4 * b64_groups (length (screen_bytes (emu s))).
Proof.
  intros Hw Hh Hsize. unfold cmd_screen_raw. cbv zeta.
  fold (screen_bytes (emu s)).
  assert (Hlen : Z.of_nat (length (screen_bytes (emu s))) = Screen_WIDTH * Screen_HEIGHT).
  { unfold screen_bytes. rewrite length_map, length_seqZ. lia. }
  assert (Hbytes : Forall (fun b => 0 <= b < 256) (screen_bytes (emu s))).
  { unfold screen_bytes. apply Forall_fmap, Forall_forall. intros k _. simpl.
    unfold C.UBYTE. apply Z.mod_pos_bound. lia. }
  assert (Hgroups : 4 * b64_groups (length (screen_bytes (emu s)))
                    < Screen_WIDTH * Screen_HEIGHT * 2
                    /\ 4 * b64_groups (length (screen_bytes (emu s))) <= 933340).
  { unfold b64_groups. rewrite Hlen. Z.to_euclidean_division_equations; lia. }
  destruct (base64_encode_reads_back (length (screen_bytes (emu s)))
              (screen_bytes (emu s)) (Screen_WIDTH * Screen_HEIGHT * 2) "")
    as (b64 & E & Hdec & Hb64); auto.
  { change (C.strlen "") with 0. lia. }
  rewrite E, append_nil. exists b64. split; [|split; assumption].
  fold (screen_raw_text b64). rewrite format_response_fits; [reflexivity|].
  unfold screen_raw_text, quoted. rewrite !strlen_app.
  assert (Hdw : C.strlen (C.dec Screen_WIDTH) <= 11) by (apply length_dec_int; nia).
  assert (Hdh : C.strlen (C.dec Screen_HEIGHT) <= 11) by (apply length_dec_int; nia).
  change (C.strlen "{") with 1. change (C.strlen status_ok) with 13.
  change (C.strlen ",") with 1. change (C.strlen dq) with 1.
  change (C.strlen "width") with 5. change (C.strlen "height") with 6.
  change (C.strlen "data") with 4. change (C.strlen ":") with 1.
  change (C.strlen "}") with 1. unfold AI_MAX_RESPONSE. lia.
Qed.

(** ** One response per command *)


Lemma AI_SendResponse_session json s : same_session s (AI_SendResponse json s).
Proof.
  unfold AI_SendResponse, same_session. destruct (_ <? _); fields; repeat split.
Qed.

Lemma cmd_joystick_unfold cmd s :
  exists joy trig,
    cmd_joystick cmd s = AI_SendResponse resp_ok (set_trig_override trig (set_joy_override joy s)).
Proof.
  unfold cmd_joystick.
  destruct (_ && _); [destruct (index 4 _)|].
  - eexists _, _. reflexivity.
  - exists (AI_joy_override s), (AI_trig_override s). destruct s; reflexivity.
  - exists (AI_joy_override s), (AI_trig_override s). destruct s; reflexivity.
Qed.

Lemma process_command_session cmd s : same_session s (process_command cmd s).
Proof.
  destruct (process_command_cases cmd s)
    as [[E ->]|[[E ->]|[[E ->]|[[E ->]|[[E ->]|[[E ->]|(_ & _ & _ & _ & _ & _ & Hem)]]]]]].
  - unfold same_session. fields. repeat split.
  - unfold same_session. fields. repeat split.
  - pose proof (AI_SendResponse_session resp_ok (set_paused true s)) as H.
    unfold same_session in *. revert H. fields. auto.
  - destruct (cmd_joystick_unfold cmd s) as (joy & trig & ->).
    pose proof (AI_SendResponse_session resp_ok
                  (set_trig_override trig (set_joy_override joy s))) as H.
    unfold same_session in *. revert H. fields. auto.
  - pose proof (AI_SendResponse_session resp_ok
                  (set_debug_port (json_get_int cmd "addr" 55295) s)) as H.
    unfold same_session in *. revert H. fields. auto.
  - unfold cmd_debug_read.
    match goal with |- same_session _ (AI_SendResponse ?j ?t) =>
      pose proof (AI_SendResponse_session j t) as H end.
    unfold same_session in *. revert H. fields. auto.
  - destruct Hem as (json & m & ->).
    pose proof (AI_SendResponse_session json (set_emu m s)) as H.
    unfold same_session in *. revert H. fields. auto.
Qed.





(** X11.  A request without a usable path (no path field, a value that
    is not a string, or the empty string) makes load, save_state,
    load_state and dump answer with an error status without calling the
    loader or opening a file, the emulator untouched; screenshot falls
    back to a path in /tmp made from the time and answers ok. *)
Theorem commands_without_path cmd s :
  get_string_into cmd "path" 512 = "" ->
  cmd_load cmd s = AI_SendResponse (resp_error "Failed to load ") s /\
  cmd_save_state cmd s = AI_SendResponse (resp_error "Failed to save state") s /\
  cmd_load_state cmd s = AI_SendResponse (resp_error "Failed to load state") s /\
  cmd_dump cmd s = AI_SendResponse (resp_error "No path specified") s /\
  cmd_screenshot cmd s
  = AI_SendResponse (resp_path (default_screenshot_path (emu s))) s.
Proof.
  intros Hpath.
  unfold cmd_load, cmd_save_state, cmd_load_state, cmd_dump, cmd_screenshot.
  rewrite Hpath. cbn [is_empty]. repeat split; try reflexivity.
  fold (default_screenshot_path (emu s)).
  rewrite format_response_fits; [reflexivity|].
  unfold resp_path, quoted. rewrite !strlen_app.
  assert (C.strlen (default_screenshot_path (emu s)) <= 511)
    by (apply truncate_length; lia).
  change (C.strlen "{") with 1. change (C.strlen status_ok) with 13.
  change (C.strlen ",") with 1. change (C.strlen dq) with 1.
  change (C.strlen "path") with 4. change (C.strlen ":") with 1.
  change (C.strlen "}") with 1. unfold AI_MAX_RESPONSE. lia.
Qed.

(** ** Memory access *)


(** X12.  The peek handler reads [len] bytes, at most 256 and none when
    [len] is not positive, from [addr] on, every address taken modulo
    65536, and answers with all of them: the response is never cut
    short, and nothing but the response changes. *)
Theorem peek_reads_at_most_256 cmd s :
  (forall a m, 0 <= MEMORY_SafeGetByte a m < 256) ->
  let addr := json_get_int cmd "addr" 0 in
  let len := Z.min 256 (json_get_int cmd "len" 1) in
  cmd_peek cmd s
  = AI_SendResponse
      (peek_text addr
         (map (fun k => MEMORY_SafeGetByte ((addr + k) mod 65536) (emu s)) (seqZ 0 len)))
      s.
Proof.
  intros Hbyte addr len. unfold cmd_peek. cbv zeta. fold addr.
  assert (Haddr : - 2 ^ 31 <= addr < 2 ^ 31) by (apply json_get_int_range; lia).
  replace (if 256 <? json_get_int cmd "len" 1 then 256 else json_get_int cmd "len" 1)
    with len by (unfold len; destruct (Z.ltb_spec 256 (json_get_int cmd "len" 1)); lia).
  set (head := "{" +:+ status_ok +:+ "," +:+ quoted "addr" +:+ ":" +:+ C.dec addr
                   +:+ "," +:+ quoted "data" +:+ ":[").
  assert (Hhead : C.strlen head <= 50).
  { unfold head. rewrite !strlen_app. pose proof (length_dec_int addr Haddr).
    change (C.strlen "{") with 1. change (C.strlen status_ok) with 13.
    change (C.strlen ",") with 1. change (C.strlen (quoted "addr")) with 6.
    change (C.strlen ":") with 1. change (C.strlen (quoted "data")) with 6.
    change (C.strlen ":[") with 2. lia. }
  assert (Hfit : format_response head = head).
  { unfold format_response, C.snprintf. apply truncate_all. unfold AI_MAX_RESPONSE. lia. }
  rewrite Hfit.
  set (items := imap _ _).
  assert (Hitems : items
            = imap nth_item
                (map (fun k => MEMORY_SafeGetByte ((addr + k) mod 65536) (emu s))
                     (seqZ 0 len))).
  { unfold items. rewrite imap_fmap. apply imap_ext. intros i k _. simpl.
    rewrite UWORD_to_int. reflexivity. }
  rewrite Hitems. clear items Hitems.
  set (data := map _ (seqZ 0 len)).
  assert (Hdata : Forall (fun b => 0 <= b < 256) data).
  { unfold data. apply Forall_fmap, Forall_forall. intros k _. apply Hbyte. }
  assert (Hlen : Z.of_nat (length data) <= 256).
  { unfold data. rewrite length_map, length_seqZ. unfold len. lia. }
  pose proof (total_bound 4 _ (imap_items_bound nth_item data nth_item_length Hdata))
    as Htotal.
  rewrite length_imap in Htotal.
  rewrite append_while_all by (unfold AI_MAX_RESPONSE; lia).
  unfold peek_text, head. rewrite !append_assoc. reflexivity.
Qed.

(** One iteration of the array loop on a value, with or without a
    comma in front. *)
Lemma poke_loop_value (fuel : nat) (lead : string) (v : Z) (more : string) (addr : Z) m :
  lead = "" \/ lead = "," ->
  0 <= v < 2 ^ 31 ->
  ends_number more = true ->
  poke_loop (S fuel) (lead +:+ C.dec v +:+ more) addr m
  = poke_loop fuel more (C.to_int (addr + 1))
      (MEMORY_PutByte (addr mod 65536) (v mod 256) m).
Proof.
  intros Hlead Hv Hmore.
  destruct (dec_nonneg_head v ltac:(lia)) as (d & t & E & Hd).
  destruct (digit_not_sep d Hd) as (N1 & N2 & N3).
  assert (Hstep : match C.dec v +:+ more with
                  | "" => m
                  | String c _ =>
                      if C.isdigit c
                      then poke_loop fuel (skip_digits (C.dec v +:+ more))
                             (C.to_int (addr + 1))
                             (MEMORY_PutByte (C.UWORD addr)
                                (C.UBYTE (C.atoi (C.dec v +:+ more))) m)
                      else m
                  end
                  = poke_loop fuel more (C.to_int (addr + 1))
                      (MEMORY_PutByte (addr mod 65536) (v mod 256) m)).
  { rewrite skip_digits_dec, atoi_dec by (auto with lia).
    rewrite E, append_cons, Hd. reflexivity. }
  destruct Hlead as [-> | ->].
  - rewrite append_nil. cbn [poke_loop].
    rewrite E, append_cons in *. rewrite N1. cbn [skip_sep]. rewrite N2, N3. cbn [orb].
    exact Hstep.
  - change ("," +:+ C.dec v +:+ more) with (String "," (C.dec v +:+ more)).
    cbn [poke_loop]. change (Ascii.eqb "," "]") with false. cbv iota.
    cbn [skip_sep]. change (Ascii.eqb "," " " || Ascii.eqb "," ",") with true. cbv iota.
    assert (Hsep : skip_sep (C.dec v +:+ more) = C.dec v +:+ more).
    { rewrite E, append_cons. simpl. rewrite N2, N3. reflexivity. }
    rewrite Hsep. exact Hstep.
Qed.

Lemma poke_loop_more (values : list Z) (fuel : nat) (post : string) (addr addr' : Z) m :
  (String.length (more_values values post) <= fuel)%nat ->
  addr mod 65536 = addr' mod 65536 ->
  Forall (fun v => 0 <= v < 2 ^ 31) values ->
  poke_loop fuel (more_values values post) addr m = put_bytes addr' values m.
Proof.
  revert fuel addr addr' m.
  induction values as [|v values IH]; intros fuel addr addr' m Hfuel Haddr Hall.
  - destruct fuel; reflexivity.
  - apply Forall_cons in Hall as [Hv Hall].
    cbn [more_values] in *.
    destruct fuel as [|fuel].
    { change ("," +:+ C.dec v +:+ more_values values post)
        with (String "," (C.dec v +:+ more_values values post)) in Hfuel.
      simpl in Hfuel. lia. }
    rewrite poke_loop_value by (auto using more_values_ends).
    cbn [put_bytes]. rewrite Haddr. apply IH; [|  |exact Hall].
    + change ("," +:+ C.dec v +:+ more_values values post)
        with (String "," (C.dec v +:+ more_values values post)) in Hfuel.
      simpl in Hfuel. rewrite length_append in Hfuel. lia.
    + unfold C.to_int. Z.to_euclidean_division_equations; lia.
Qed.

(** The array loop on an array as a client writes it. *)
Lemma poke_loop_array (values : list Z) (post : string) (addr : Z) m :
  Forall (fun v => 0 <= v < 2 ^ 31) values ->
  let data := String.concat "," (map C.dec values) +:+ "]" +:+ post in
  poke_loop (String.length data) data addr m = put_bytes addr values m.
Proof.
  intros Hall data. subst data. destruct values as [|v values].
  - change (String.concat "," (map C.dec []) +:+ "]" +:+ post)
      with (more_values [] post).
    apply poke_loop_more; auto.
  - rewrite array_text_values.
    apply Forall_cons in Hall as [Hv Hall].
    destruct (dec_nonneg_head v ltac:(lia)) as (d & t & E & Hd).
    destruct (String.length (C.dec v +:+ more_values values post)) as [|fuel] eqn:Hlen.
    { rewrite E, append_cons in Hlen. discriminate Hlen. }
    pose proof (poke_loop_value fuel "" v (more_values values post) addr m) as Hstep.
    rewrite append_nil in Hstep. rewrite Hstep by (auto using more_values_ends).
    cbn [put_bytes]. apply poke_loop_more; [|  |exact Hall].
    + rewrite E, append_cons in Hlen. simpl in Hlen.
      rewrite E, append_cons in *. clear Hstep.
      assert (String.length (C.dec v +:+ more_values values post)
              = S fuel) by (rewrite E, append_cons; simpl; exact Hlen).
      rewrite length_append in *. lia.
    + unfold C.to_int. Z.to_euclidean_division_equations; lia.
Qed.


(** X13.  The poke handler writes the array of a request as a client
    writes it: for values written in decimal and separated by commas,
    value number k (modulo 256) goes to address [addr + k] (modulo
    65536), in order, and the answer is the ok status. *)
Theorem poke_writes_the_array (pre post : string) (values : list Z) s :
  nul_free pre = true ->
  first_at pre (quoted "data" +:+ ":") = true ->
  Forall (fun v => 0 <= v < 2 ^ 31) values ->
  let cmd := pre +:+ quoted "data" +:+ ":" +:+ array_text values +:+ post in
  cmd_poke cmd s
  = AI_SendResponse resp_ok
      (set_emu (put_bytes (json_get_int cmd "addr" 0) values (emu s)) s).
Proof.
  intros Hpre Hfirst Hall cmd. unfold cmd_poke. cbv zeta.
  set (addr := json_get_int cmd "addr" 0).
  set (data := String.concat "," (map C.dec values) +:+ "]" +:+ C.c_str post).
  assert (Hc : C.c_str cmd = pre +:+ (quoted "data" +:+ ":") +:+ String "[" data).
  { unfold cmd, array_text. rewrite c_str_app by exact Hpre. f_equal.
    rewrite !append_assoc.
    rewrite (c_str_app (quoted "data")) by reflexivity. f_equal.
    rewrite (c_str_app ":") by reflexivity. f_equal.
    rewrite (c_str_app "[") by reflexivity.
    change ("[" +:+ ?x) with (String "[" x). f_equal.
    rewrite c_str_app by apply nul_free_concat_dec. f_equal. }
  rewrite Hc, strstr_first_at by exact Hfirst.
  change (C.strchr ((quoted "data" +:+ ":") +:+ String "[" data) "[")
    with (Some (String "[" data)).
  cbn [C.advance]. unfold data. rewrite poke_loop_array by exact Hall. reflexivity.
Qed.

(** ** Framing *)

(** The header loop and the length test on the length line of a
    request of [len] bytes. *)
Lemma read_command_header (len bufsize : Z) (q : list sock_ev) s :
  0 <= ai_client_fd s -> 0 < len < bufsize -> len < 2 ^ 31 ->
  peer s = script_of (C.dec len +:+ newline) ++ q ->
  read_command bufsize s
  = match read_body (Z.to_nat len) len q "" with
    | (None, q') => (0, "", set_peer q' s)
    | (Some buf, q') => (len, buf, set_peer q' s)
    end.
Proof.
  intros Hfd Hlen Hint Hpeer. unfold read_command.
  destruct (Z.ltb_spec (ai_client_fd s) 0); [lia|].
  rewrite Hpeer, script_of_app, <- app_assoc.
  change (script_of newline ++ q) with (Data C.LF :: q).
  rewrite read_header_line;
    [|apply one_line_dec|pose proof (length_dec len ltac:(lia)); lia].
  rewrite append_nil.
  pose proof (atoi_dec len "" ltac:(lia) eq_refl) as Hatoi.
  rewrite append_nil_r in Hatoi. rewrite Hatoi.
  destruct (Z.leb_spec len 0); [lia|]. destruct (Z.leb_spec bufsize len); [lia|].
  reflexivity.
Qed.

Lemma read_command_request (payload : string) (rest : list sock_ev) (bufsize : Z) s :
  0 <= ai_client_fd s ->
  0 < C.strlen payload < bufsize ->
  C.strlen payload < 2 ^ 31 ->
  peer s = request payload ++ rest ->
  read_command bufsize s = (C.strlen payload, payload, set_peer rest s).
Proof.
  intros Hfd Hlen Hint Hpeer.
  unfold request, wire in Hpeer. rewrite <- append_assoc, script_of_app, <- app_assoc in Hpeer.
  rewrite (read_command_header (C.strlen payload) bufsize _ s Hfd Hlen Hint Hpeer).
  destruct payload as [|c payload]; [unfold C.strlen in Hlen; simpl in Hlen; lia|].
  unfold C.strlen. rewrite Nat2Z.id.
  change (script_of (String c payload)) with (Data c :: script_of payload).
  cbn [String.length read_body app].
  destruct (Z.leb_spec (Z.of_nat (S (String.length payload))) 0); [lia|].
  cbn [sys_read].
  replace (Z.to_nat (Z.of_nat (S (String.length payload)) - 1))
    with (String.length payload) by lia.
  rewrite take_data_all.
  replace (Z.of_nat (S (String.length payload)) - 1 - C.strlen payload) with 0
    by (unfold C.strlen; lia).
  destruct (String.length payload); reflexivity.
Qed.

(** The body loop on a payload that is not all there. *)
Lemma read_command_partial (a b : string) (rest : list sock_ev) (bufsize : Z) s :
  0 <= ai_client_fd s ->
  b <> "" ->
  C.strlen (a +:+ b) < bufsize ->
  C.strlen (a +:+ b) < 2 ^ 31 ->
  peer s = script_of (C.dec (C.strlen (a +:+ b)) +:+ newline)
           ++ script_of a ++ WouldBlock :: rest ->
  read_command bufsize s = (0, "", set_peer rest s).
Proof.
  intros Hfd Hb Hlen Hint Hpeer.
  assert (Hpos : 0 < C.strlen b).
  { destruct b; [congruence|]. unfold C.strlen. simpl. lia. }
  pose proof (strlen_nonneg a) as Ha.
  rewrite strlen_app in *.
  assert (Hrange : 0 < C.strlen a + C.strlen b < bufsize) by lia.
  rewrite (read_command_header _ bufsize _ s Hfd Hrange Hint Hpeer).
  destruct a as [|c a].
  - change (script_of "" ++ WouldBlock :: rest) with (WouldBlock :: rest).
    destruct (Z.to_nat (C.strlen "" + C.strlen b)) as [|fuel] eqn:Hfuel;
      [change (C.strlen "") with 0 in Hfuel; lia|].
    cbn [read_body].
    destruct (Z.leb_spec (C.strlen "" + C.strlen b) 0);
      [change (C.strlen "") with 0 in *; lia|].
    reflexivity.
  - change (script_of (String c a)) with (Data c :: script_of a).
    assert (Hca : C.strlen (String c a) = C.strlen a + 1)
      by (unfold C.strlen; simpl String.length; lia).
    pose proof (strlen_nonneg a) as Ha'.
    destruct (Z.to_nat (C.strlen (String c a) + C.strlen b)) as [|[|fuel]] eqn:Hfuel;
      [lia|lia|].
    cbn [read_body app].
    destruct (Z.leb_spec (C.strlen (String c a) + C.strlen b) 0); [lia|].
    cbn [sys_read].
    rewrite take_data_short by (unfold C.strlen in *; lia).
    destruct (Z.leb_spec (C.strlen (String c a) + C.strlen b - 1 - C.strlen a) 0); [lia|].
    reflexivity.
Qed.


(** X14.  A request framed as [AI_SendResponse] frames a response, the
    decimal length, a line feed, the payload, is read back whole by
    [read_command] when all of it is there and the payload has between
    1 and 65535 bytes: the return value is the length, the buffer holds
    the payload, the bytes behind it stay pending, and the iteration of
    the paused loop processes that payload. *)
Theorem framing_round_trip (payload : string) (rest : list sock_ev) s :
  0 <= ai_client_fd s ->
  0 < C.strlen payload < AI_BUFFER_SIZE ->
  peer s = request payload ++ rest ->
  read_command AI_BUFFER_SIZE s = (C.strlen payload, payload, set_peer rest s) /\
  AI_Frame_poll s = check_connections (process_command payload (set_peer rest s)).
Proof.
  intros Hfd Hlen Hpeer.
  assert (Hread : read_command AI_BUFFER_SIZE s
                  = (C.strlen payload, payload, set_peer rest s)).
  { apply read_command_request; auto. unfold AI_BUFFER_SIZE in Hlen. lia. }
  split; [exact Hread|].
  unfold AI_Frame_poll. rewrite Hread.
  destruct (Z.ltb_spec 0 (C.strlen payload)); [reflexivity|lia].
Qed.


(** X15.  When the length line of a request is there but not all of the
    payload, [read_command] returns 0 and the request is lost: the
    length line and the part of the payload that had arrived are
    consumed, and the iteration of the paused loop processes no
    command. *)
Theorem partial_body_is_dropped (a b : string) (rest : list sock_ev) s :
  0 <= ai_client_fd s ->
  b <> "" ->
  C.strlen (a +:+ b) < AI_BUFFER_SIZE ->
  peer s = script_of (C.dec (C.strlen (a +:+ b)) +:+ newline)
           ++ script_of a ++ WouldBlock :: rest ->
  read_command AI_BUFFER_SIZE s = (0, "", set_peer rest s) /\
  AI_Frame_poll s = check_connections (set_peer rest s).
Proof.
  intros Hfd Hb Hlen Hpeer.
  assert (Hread : read_command AI_BUFFER_SIZE s = (0, "", set_peer rest s)).
  { apply (read_command_partial a b); auto. unfold AI_BUFFER_SIZE in Hlen. lia. }
  split; [exact Hread|].
  unfold AI_Frame_poll. rewrite Hread. reflexivity.
Qed.

(** ** Start-up *)

(** An induction principle that follows the argument loop. *)
Lemma parse_args_ind (P : list string -> state -> list string * state -> Prop) :
  (forall s, P [] s ([], s)) ->
  (forall a rest s, a = "-ai" ->
     P rest (set_enabled true s) (parse_args rest (set_enabled true s)) ->
     P (a :: rest) s (parse_args rest (set_enabled true s))) ->
  (forall a rest s, a <> "-ai" -> a = "-ai-run" ->
     P rest (set_paused false (set_enabled true s))
       (parse_args rest (set_paused false (set_enabled true s))) ->
     P (a :: rest) s (parse_args rest (set_paused false (set_enabled true s)))) ->
  (forall a v rest s, a = "-ai-socket" ->
     P rest (set_socket_path (C.truncate 255 (C.c_str v)) s)
       (parse_args rest (set_socket_path (C.truncate 255 (C.c_str v)) s)) ->
     P (a :: v :: rest) s
       (parse_args rest (set_socket_path (C.truncate 255 (C.c_str v)) s))) ->
  (forall a v rest s, a = "-ai-debug-port" ->
     P rest (set_debug_port (C.to_int (strtol0 v)) s)
       (parse_args rest (set_debug_port (C.to_int (strtol0 v)) s)) ->
     P (a :: v :: rest) s (parse_args rest (set_debug_port (C.to_int (strtol0 v)) s))) ->
  (forall a rest s, a ∉ ai_options ->
     P rest s (parse_args rest s) ->
     P (a :: rest) s (a :: (parse_args rest s).1, (parse_args rest s).2)) ->
  (forall a s, a <> "-ai" -> a <> "-ai-run" -> P [a] s ([a], s)) ->
  forall args s, P args s (parse_args args s).
Proof.
  intros Hnil Hai Hrun Hsock Hport Hkeep Hlast args.
  remember (length args) as n eqn:Hn. revert args Hn.
  induction (lt_wf n) as [n _ IH]; intros args -> s.
  destruct args as [|a rest]; [apply Hnil|]. cbn [parse_args].
  destruct (String.eqb_spec a "-ai") as [E1|N1].
  { apply Hai; [exact E1|]. apply (IH (length rest)); simpl; auto with lia. }
  destruct (String.eqb_spec a "-ai-run") as [E2|N2].
  { apply Hrun; [exact N1|exact E2|]. apply (IH (length rest)); simpl; auto with lia. }
  destruct rest as [|v rest']; [apply Hlast; assumption|].
  destruct (String.eqb_spec a "-ai-socket") as [E3|N3].
  { apply Hsock; [exact E3|]. apply (IH (length rest')); simpl; auto with lia. }
  destruct (String.eqb_spec a "-ai-debug-port") as [E4|N4].
  { apply Hport; [exact E4|]. apply (IH (length rest')); simpl; auto with lia. }
  pose proof (Hkeep a (v :: rest') s) as Hk.
  destruct (parse_args (v :: rest') s) as [kept s'] eqn:E.
  apply Hk.
  - unfold ai_options. rewrite !elem_of_cons, elem_of_nil. tauto.
  - rewrite <- E. apply (IH (length (v :: rest'))); simpl; auto with lia.
Qed.

Lemma parse_args_disabled (args : list string) s :
  Forall (fun a => a <> "-ai" /\ a <> "-ai-run") args ->
  AI_enabled (parse_args args s).2 = AI_enabled s.
Proof.
  apply (parse_args_ind
           (fun args s r => Forall (fun a => a <> "-ai" /\ a <> "-ai-run") args ->
                            AI_enabled r.2 = AI_enabled s)); clear args s.
  - reflexivity.
  - intros a rest s E _ H. apply Forall_cons in H as [[H _] _]. contradiction.
  - intros a rest s _ E _ H. apply Forall_cons in H as [[_ H] _]. contradiction.
  - intros a v rest s _ IH H. apply Forall_cons in H as [_ H].
    apply Forall_cons in H as [_ H]. rewrite IH by exact H. reflexivity.
  - intros a v rest s _ IH H. apply Forall_cons in H as [_ H].
    apply Forall_cons in H as [_ H]. rewrite IH by exact H. reflexivity.
  - intros a rest s _ IH H. apply Forall_cons in H as [_ H]. exact (IH H).
  - reflexivity.
Qed.

Lemma AI_Frame_loop_detached (fuel : nat) s :
  ai_client_fd s < 0 -> AI_Frame_loop fuel s = Some s.
Proof.
  intros Hfd.
  assert (Hw : waiting s = false).
  { unfold waiting. destruct (Z.leb_spec 0 (ai_client_fd s)); [lia|]. apply andb_false_r. }
  destruct fuel; simpl; rewrite Hw; reflexivity.
Qed.


(** X16.  Without -ai or -ai-run on the command line, [AI_Initialise]
    succeeds and leaves the interface disabled with no listening
    socket, and then [AI_Frame] and [AI_ApplyInput] do nothing and
    [AI_IsPaused] is false. *)
Theorem disabled_interface_is_inert (argv : list string) (listening : Z) m
    (attempts : list accept_ev) :
  Forall (fun a => a <> "-ai" /\ a <> "-ai-run") (tail argv) ->
  let r := AI_Initialise argv listening (boot m attempts) in
  r.1.1 = 1 /\ AI_enabled r.2 = false /\ ai_server_fd r.2 = -1 /\
  (forall fuel, AI_Frame fuel r.2 = Some r.2) /\
  AI_ApplyInput r.2 = r.2 /\ AI_IsPaused r.2 = false.
Proof.
  intros Hargs. unfold AI_Initialise.
  pose proof (parse_args_disabled (tail argv) (boot m attempts) Hargs) as He.
  pose proof (parse_args_preserves (fun s => ai_server_fd s = -1)
                ltac:(intros v t H; exact H) ltac:(intros v t H; exact H)
                ltac:(intros v t H; exact H) ltac:(intros v t H; exact H)
                (tail argv) (boot m attempts) eq_refl) as Hs.
  destruct (parse_args (tail argv) (boot m attempts)) as [kept s'].
  cbn [snd] in He, Hs. change (AI_enabled (boot m attempts)) with false in He.
  rewrite He. cbn [fst snd].
  unfold AI_Frame, AI_ApplyInput, AI_IsPaused. rewrite He. cbn [negb andb].
  repeat split; auto.
Qed.


(** X17.  A command line without the four options of the interface
    comes back from [AI_Initialise] as it went in. *)
Theorem foreign_arguments_pass_through (argv : list string) (listening : Z) s :
  Forall (fun a => a ∉ ai_options) (tail argv) ->
  (AI_Initialise argv listening s).1.2 = argv.
Proof.
  intros Hargs.
  assert (Hp : parse_args (tail argv) s = (tail argv, s)).
  { revert Hargs. generalize (tail argv) as args.
    intros args. revert s.
    apply (parse_args_ind
             (fun args s r => Forall (fun a => a ∉ ai_options) args -> r = (args, s)));
      clear args.
    - reflexivity.
    - intros a rest s -> _ H. apply Forall_cons in H as [H _].
      exfalso. apply H. unfold ai_options. rewrite !elem_of_cons. tauto.
    - intros a rest s _ -> _ H. apply Forall_cons in H as [H _].
      exfalso. apply H. unfold ai_options. rewrite !elem_of_cons. tauto.
    - intros a v rest s -> _ H. apply Forall_cons in H as [H _].
      exfalso. apply H. unfold ai_options. rewrite !elem_of_cons. tauto.
    - intros a v rest s -> _ H. apply Forall_cons in H as [H _].
      exfalso. apply H. unfold ai_options. rewrite !elem_of_cons. tauto.
    - intros a rest s _ IH H. apply Forall_cons in H as [_ H]. rewrite (IH H). reflexivity.
    - reflexivity. }
  unfold AI_Initialise. rewrite Hp.
  assert (Hargv : take 1 argv ++ tail argv = argv) by (destruct argv; reflexivity).
  destruct (AI_enabled s); [|exact Hargv].
  destruct (setup_server_socket listening s) as [ok s'].
  destruct (ok =? 0); exact Hargv.
Qed.

Lemma parse_args_filters (args : list string) s :
  sublist (parse_args args s).1 args /\
  ("-ai" ∉ (parse_args args s).1) /\ ("-ai-run" ∉ (parse_args args s).1).
Proof.
  apply (parse_args_ind
           (fun args s r => sublist r.1 args /\ ("-ai" ∉ r.1) /\ ("-ai-run" ∉ r.1)));
    clear args s.
  - cbn [fst]. repeat split; [constructor|apply not_elem_of_nil..].
  - intros a rest s _ (H1 & H2 & H3). repeat split; auto. apply sublist_cons, H1.
  - intros a rest s _ _ (H1 & H2 & H3). repeat split; auto. apply sublist_cons, H1.
  - intros a v rest s _ (H1 & H2 & H3). repeat split; auto.
    apply sublist_cons, sublist_cons, H1.
  - intros a v rest s _ (H1 & H2 & H3). repeat split; auto.
    apply sublist_cons, sublist_cons, H1.
  - intros a rest s Ha (H1 & H2 & H3). cbn [fst]. unfold ai_options in Ha.
    rewrite !elem_of_cons in Ha. repeat split.
    + apply sublist_skip, H1.
    + rewrite elem_of_cons. intros [E|E]; [|contradiction]. apply Ha. auto.
    + rewrite elem_of_cons. intros [E|E]; [|contradiction]. apply Ha. auto.
  - intros a s N1 N2. cbn [fst]. repeat split; [reflexivity|..];
      rewrite elem_of_cons, elem_of_nil; intros [E|[]]; congruence.
Qed.


(** X18.  [AI_Initialise] keeps the program name and hands on the other
    arguments in their order, without the ones it consumed: neither -ai
    nor -ai-run is ever left in the command line. *)
Theorem ai_arguments_are_removed (argv : list string) (listening : Z) s :
  exists kept,
    (AI_Initialise argv listening s).1.2 = take 1 argv ++ kept /\
    sublist kept (tail argv) /\ ("-ai" ∉ kept) /\ ("-ai-run" ∉ kept).
Proof.
  pose proof (parse_args_filters (tail argv) s) as H. unfold AI_Initialise.
  destruct (parse_args (tail argv) s) as [kept s']. cbn [fst] in H.
  exists kept. split; [|exact H].
  destruct (AI_enabled s'); [|reflexivity].
  destruct (setup_server_socket listening s') as [ok s''].
  destruct (ok =? 0); reflexivity.
Qed.


(** X19.  Whatever follows -ai-socket on the command line, the socket
    path after start-up has at most 255 characters and no NUL among
    them: it fits [char AI_socket_path[256]] with its terminator. *)
Theorem socket_path_fits (argv : list string) (listening : Z) m
    (attempts : list accept_ev) :
  let s := (AI_Initialise argv listening (boot m attempts)).2 in
  C.strlen (AI_socket_path s) <= 255 /\ nul_free (AI_socket_path s) = true.
Proof.
  set (P := fun s => C.strlen (AI_socket_path s) <= 255 /\
                     nul_free (AI_socket_path s) = true).
  assert (Hargs : forall args s, P s -> P (parse_args args s).2).
  { apply (parse_args_ind (fun args s r => P s -> P r.2)); auto.
    - intros a v rest s _ IH _. apply IH. unfold P. fields. split.
      + apply truncate_length. lia.
      + apply nul_free_truncate, nul_free_c_str. }
  cbv zeta. unfold AI_Initialise.
  specialize (Hargs (tail argv) (boot m attempts)).
  destruct (parse_args (tail argv) (boot m attempts)) as [kept s'].
  cbn [snd] in Hargs.
  assert (Hs' : P s') by (apply Hargs; unfold P, boot; fields; split; [vm_compute; discriminate|reflexivity]).
  destruct (AI_enabled s'); [|exact Hs'].
  unfold setup_server_socket. destruct (listening <? 0); exact Hs'.
Qed.

(** ** The debug buffer stays within its array *)

Lemma AI_DebugWrite_ok (byte : Z) s : debug_buffer_ok s -> debug_buffer_ok (AI_DebugWrite byte s).
Proof.
  intros (Hpos & Hlen & Hall). unfold AI_DebugWrite.
  destruct (Z.ltb_spec (ai_debug_buffer_pos s) AI_DEBUG_BUFFER_SIZE);
    [|repeat split; auto; lia].
  unfold debug_buffer_ok. fields. repeat split; try lia.
  - rewrite length_insert. exact Hlen.
  - apply Forall_insert; [exact Hall|]. unfold C.UBYTE.
    apply Z.mod_pos_bound. lia.
Qed.

Lemma AI_SendResponse_debug json s :
  ai_debug_buffer (AI_SendResponse json s) = ai_debug_buffer s /\
  ai_debug_buffer_pos (AI_SendResponse json s) = ai_debug_buffer_pos s.
Proof. unfold AI_SendResponse. destruct (_ <? _); fields; auto. Qed.

Lemma process_command_debug_ok cmd s :
  debug_buffer_ok s -> debug_buffer_ok (process_command cmd s).
Proof.
  intros (Hpos & Hlen & Hall). unfold debug_buffer_ok.
  destruct (process_command_cases cmd s)
    as [[E ->]|[[E ->]|[[E ->]|[[E ->]|[[E ->]|[[E ->]|(_ & _ & _ & _ & _ & _ & Hem)]]]]]].
  - fields. auto.
  - fields. auto.
  - destruct (AI_SendResponse_debug resp_ok (set_paused true s)) as [-> ->]. fields. auto.
  - destruct (cmd_joystick_unfold cmd s) as (joy & trig & ->).
    destruct (AI_SendResponse_debug resp_ok
                (set_trig_override trig (set_joy_override joy s))) as [-> ->].
    fields. auto.
  - destruct (AI_SendResponse_debug resp_ok
                (set_debug_port (json_get_int cmd "addr" 55295) s)) as [-> ->].
    fields. auto.
  - unfold cmd_debug_read.
    match goal with |- context [AI_SendResponse ?j ?t] =>
      destruct (AI_SendResponse_debug j t) as [-> ->] end.
    fields. unfold AI_DEBUG_BUFFER_SIZE in *. repeat split; auto; lia.
  - destruct Hem as (json & m & ->).
    destruct (AI_SendResponse_debug json (set_emu m s)) as [-> ->]. fields. auto.
Qed.

Lemma run_op_debug_ok (o : op) s : debug_buffer_ok s -> debug_buffer_ok (run_op o s).
Proof.
  intros Hok. destruct o; simpl.
  - destruct (check_connections_shape s) as (b & q & c & o & p & ->). exact Hok.
  - destruct (AI_Frame_countdown_shape s) as (n & p & out & ->). exact Hok.
  - destruct (waiting s); [|exact Hok]. rewrite AI_Frame_poll_unfold.
    assert (H1 : debug_buffer_ok (read_command AI_BUFFER_SIZE s).2).
    { destruct (read_command_shape AI_BUFFER_SIZE s) as (q & c & o & ->). exact Hok. }
    match goal with |- debug_buffer_ok (check_connections ?t) =>
      assert (H2 : debug_buffer_ok t) end.
    { destruct (_ <? _); [apply process_command_debug_ok|]; exact H1. }
    revert H2. generalize (if 0 <? (read_command AI_BUFFER_SIZE s).1.1
       then process_command (read_command AI_BUFFER_SIZE s).1.2
                            (read_command AI_BUFFER_SIZE s).2
       else (read_command AI_BUFFER_SIZE s).2).
    intros t Ht. destruct (check_connections_shape t) as (b & q & c & o & p & ->). exact Ht.
  - destruct (AI_ApplyInput_shape s) as [m ->]. exact Hok.
  - apply AI_DebugWrite_ok, Hok.
  - exact Hok.
  - exact Hok.
Qed.

Lemma boot_debug_ok m attempts : debug_buffer_ok (boot m attempts).
Proof.
  unfold debug_buffer_ok, boot. fields.
  repeat split;
    first [apply length_replicate | apply Forall_replicate; lia
          | unfold AI_DEBUG_BUFFER_SIZE; lia].
Qed.


(** X20.  In every state the program can reach, the write position of
    the debug buffer lies between 0 and 4096, the buffer has its 4096
    bytes and each of them is a byte: the hook never writes outside the
    array. *)
Theorem debug_buffer_in_bounds s : reachable s -> debug_buffer_ok s.
Proof.
  intros (m & attempts & argv & listening & ops & ->).
  apply exec_invariant; [apply run_op_debug_ok|].
  apply AI_Initialise_preserves; try (intros v t H; exact H).
  apply boot_debug_ok.
Qed.

(** ** Client descriptors *)

Lemma check_connections_fds_ok s : fds_ok s -> fds_ok (check_connections s).
Proof.
  intros (Hc & Hs & Ho). unfold check_connections.
  destruct (ai_server_fd s <? 0); [repeat split; auto|].
  destruct (backlog s) as [|[|client script] rest]; [repeat split; auto| |].
  - unfold fds_ok. fields. auto.
  - fields. destruct (Z.leb_spec 0 client); [|unfold fds_ok; fields; auto].
    unfold sys_close. fields.
    destruct (Z.leb_spec 0 (ai_client_fd s)); unfold fds_ok; fields.
    + split; [lia|]. split; [exact Hs|].
      destruct Ho as [->|[-> _]]; cbn [filter list_filter];
        repeat case_decide; auto; try congruence.
    + split; [lia|]. split; [exact Hs|].
      destruct Ho as [->|[_ ?]]; [|lia]. auto.
Qed.

Lemma read_command_fds_ok (bufsize : Z) s : fds_ok s -> fds_ok (read_command bufsize s).2.
Proof.
  intros (Hc & Hs & Ho). unfold read_command.
  destruct (ai_client_fd s <? 0); [repeat split; auto|].
  destruct (read_header 31 (peer s) "") as [[header| |] q].
  - destruct (_ || _); [unfold fds_ok; fields; auto|].
    destruct (read_body _ _ _ _) as [[buf|] q']; unfold fds_ok; fields; auto.
  - unfold fds_ok; fields; auto.
  - unfold sys_close, fds_ok. cbn [snd]. fields. split; [lia|]. split; [exact Hs|]. left.
    destruct Ho as [->|[-> _]]; cbn [filter list_filter]; [reflexivity|].
    case_decide; [congruence|reflexivity].
Qed.

Lemma same_session_fds_ok s s' : same_session s s' -> fds_ok s -> fds_ok s'.
Proof.
  intros (E1 & E2 & _ & _ & E3 & _) H. unfold fds_ok. rewrite E1, E2, E3. exact H.
Qed.

Lemma run_op_fds_ok (o : op) s : fds_ok s -> fds_ok (run_op o s).
Proof.
  intros Hok. destruct o; simpl.
  - apply check_connections_fds_ok, Hok.
  - destruct (AI_Frame_countdown_shape s) as (n & p & out & ->). exact Hok.
  - destruct (waiting s); [|exact Hok]. rewrite AI_Frame_poll_unfold.
    apply check_connections_fds_ok.
    pose proof (read_command_fds_ok AI_BUFFER_SIZE s Hok) as H1.
    destruct (_ <? _); [|exact H1].
    eapply same_session_fds_ok; [apply process_command_session|exact H1].
  - destruct (AI_ApplyInput_shape s) as [m ->]. exact Hok.
  - destruct (AI_DebugWrite_shape byte s) as (buf & pos & ->). exact Hok.
  - exact Hok.
  - exact Hok.
Qed.

Lemma start_fds_ok argv listening m attempts :
  fds_ok (AI_Initialise argv listening (boot m attempts)).2.
Proof.
  unfold AI_Initialise.
  pose proof (parse_args_preserves fds_ok) as Hargs.
  specialize (Hargs ltac:(intros v t H; exact H) ltac:(intros v t H; exact H)
                    ltac:(intros v t H; exact H) ltac:(intros v t H; exact H)
                    (tail argv) (boot m attempts)).
  destruct (parse_args (tail argv) (boot m attempts)) as [kept s'].
  simpl in Hargs.
  assert (Hs' : fds_ok s').
  { apply Hargs. unfold fds_ok, boot. fields. repeat split; auto; lia. }
  destruct (AI_enabled s'); [|exact Hs'].
  destruct Hs' as (Hc & Hs & Ho).
  unfold setup_server_socket. destruct (Z.ltb_spec listening 0); simpl;
    unfold fds_ok; fields; repeat split; auto; lia.
Qed.


(** X21.  In every state the program can reach, at most one client
    descriptor is open and it is the current client's; both descriptor
    variables are -1 or a descriptor.  Connections that were superseded
    or that ended are closed. *)
Theorem one_client_descriptor s : reachable s -> fds_ok s.
Proof.
  intros (m & attempts & argv & listening & ops & ->).
  apply exec_invariant; [apply run_op_fds_ok|apply start_fds_ok].
Qed.

Lemma AI_Exit_closed s : ai_client_fd s < 0 -> ai_server_fd s < 0 -> AI_Exit s = s.
Proof.
  intros Hc Hs. unfold AI_Exit.
  destruct (Z.leb_spec 0 (ai_client_fd s)); [lia|].
  destruct (Z.leb_spec 0 (ai_server_fd s)); [lia|]. reflexivity.
Qed.

Lemma AI_Exit_fds s :
  fds_ok s ->
  ai_client_fd (AI_Exit s) = -1 /\ ai_server_fd (AI_Exit s) = -1 /\
  open_fds (AI_Exit s) = [].
Proof.
  intros (Hc & Hs & Ho). unfold AI_Exit, sys_close.
  assert (Hf : filter (fun x => x ≠ ai_client_fd s) (open_fds s) = []).
  { destruct Ho as [->|[-> _]]; cbn [filter list_filter]; [reflexivity|].
    case_decide; [congruence|reflexivity]. }
  destruct (Z.leb_spec 0 (ai_client_fd s)) as [Hcl|Hcl]; fields;
    destruct (Z.leb_spec 0 (ai_server_fd s)) as [Hsv|Hsv]; fields.
  - auto.
  - repeat split; [lia|exact Hf].
  - repeat split; [lia|]. destruct Ho as [->|[_ ?]]; [reflexivity|lia].
  - repeat split; try lia. destruct Ho as [->|[_ ?]]; [reflexivity|lia].
Qed.


(** X22.  From every state the program can reach, [AI_Exit] leaves both
    descriptor variables at -1 and no client descriptor open, and a
    second call changes nothing. *)
Theorem exit_releases_descriptors s :
  reachable s ->
  ai_client_fd (AI_Exit s) = -1 /\ ai_server_fd (AI_Exit s) = -1 /\
  open_fds (AI_Exit s) = [] /\ AI_Exit (AI_Exit s) = AI_Exit s.
Proof.
  intros (m & attempts & argv & listening & ops & ->).
  match goal with |- context [AI_Exit ?t] => set (s := t) end.
  assert (Hok : fds_ok s).
  { apply exec_invariant; [apply run_op_fds_ok|apply start_fds_ok]. }
  destruct (AI_Exit_fds s Hok) as (H1 & H2 & H3).
  repeat split; try assumption.
  apply AI_Exit_closed; lia.
Qed.

(** ** The paused loop *)

Lemma AI_Frame_poll_idle s : idle_wait s -> AI_Frame_poll s = s.
Proof.
  intros (Hp & Hfd & Hq & Hb). unfold AI_Frame_poll, read_command.
  destruct (Z.ltb_spec (ai_client_fd s) 0); [lia|].
  rewrite Hq. cbn [read_header sys_read].
  rewrite check_connections_idle by (fields; exact Hb).
  destruct s; simpl in *; subst; reflexivity.
Qed.

Lemma AI_Frame_loop_idle (fuel : nat) s : idle_wait s -> AI_Frame_loop fuel s = None.
Proof.
  intros Hs.
  assert (Hw : waiting s = true).
  { destruct Hs as (Hp & Hfd & _). unfold waiting. rewrite Hp.
    destruct (Z.leb_spec 0 (ai_client_fd s)); [reflexivity|lia]. }
  induction fuel as [|fuel IH]; simpl; rewrite Hw; [reflexivity|].
  rewrite AI_Frame_poll_idle by exact Hs. exact IH.
Qed.

Lemma AI_Frame_countdown_idle s : idle_wait s -> idle_wait (AI_Frame_countdown s).
Proof.
  intros (Hp & Hfd & Hq & Hb). unfold AI_Frame_countdown.
  destruct (0 <? ai_frames_to_run s); [|repeat split; auto]. fields.
  destruct (_ =? 0); [|unfold idle_wait; fields; auto].
  rewrite AI_SendResponse_attached by (fields; exact Hfd).
  unfold idle_wait. fields. auto.
Qed.


(** X23.  While the scheduler is paused and a client is attached that
    sends nothing, with no connection attempt either, [AI_Frame] does
    not return: however many iterations the loop is given, it is still
    waiting. *)
Theorem paused_loop_waits (fuel : nat) s :
  AI_enabled s = true -> idle_wait s -> AI_Frame fuel s = None.
Proof.
  intros He Hs. unfold AI_Frame. rewrite He. cbn [negb].
  rewrite check_connections_idle by apply Hs.
  apply AI_Frame_loop_idle, AI_Frame_countdown_idle, Hs.
Qed.


(** X24.  Paused with no client attached, as after start-up with -ai,
    [AI_Frame] returns at once and changes nothing, although
    [AI_IsPaused] is true: the loop waits only for a client that is
    there. *)
Theorem paused_without_client_returns (fuel : nat) s :
  AI_enabled s = true -> ai_paused s = true -> ai_client_fd s < 0 ->
  ai_frames_to_run s <= 0 -> backlog s = [] ->
  AI_IsPaused s = true /\ AI_Frame fuel s = Some s.
Proof.
  intros He Hp Hfd Hn Hb. split; [unfold AI_IsPaused; rewrite He, Hp; reflexivity|].
  unfold AI_Frame. rewrite He. cbn [negb].
  rewrite check_connections_idle by exact Hb.
  unfold AI_Frame_countdown. destruct (Z.ltb_spec 0 (ai_frames_to_run s)); [lia|].
  apply AI_Frame_loop_detached, Hfd.
Qed.

Lemma set_peer_same s : set_peer (peer s) s = s.
Proof. destruct s; reflexivity. Qed.


(** X25.  When the attached client closes the connection while the
    scheduler is paused, the next iteration of the loop closes the
    descriptor and [AI_Frame] returns; the pause flag stays set. *)
Theorem disconnect_releases_the_loop (fuel : nat) (rest : list sock_ev) s :
  AI_enabled s = true -> ai_paused s = true -> 0 <= ai_client_fd s ->
  ai_frames_to_run s <= 0 -> backlog s = [] -> peer s = Eof :: rest ->
  let s' := set_client_fd (-1) (sys_close (ai_client_fd s) s) in
  AI_Frame (S fuel) s = Some s' /\ AI_IsPaused s' = true.
Proof.
  intros He Hp Hfd Hn Hb Hq s'. split; [|unfold AI_IsPaused, s', sys_close; fields;
                                        rewrite He, Hp; reflexivity].
  unfold AI_Frame. rewrite He. cbn [negb].
  rewrite check_connections_idle by exact Hb.
  unfold AI_Frame_countdown. destruct (Z.ltb_spec 0 (ai_frames_to_run s)); [lia|].
  cbn [AI_Frame_loop].
  assert (Hw : waiting s = true).
  { unfold waiting. rewrite Hp. destruct (Z.leb_spec 0 (ai_client_fd s)); [reflexivity|lia]. }
  rewrite Hw.
  assert (Hpoll : AI_Frame_poll s = s').
  { unfold AI_Frame_poll, read_command.
    destruct (Z.ltb_spec (ai_client_fd s) 0); [lia|].
    rewrite Hq. cbn [read_header sys_read]. rewrite <- Hq, set_peer_same.
    cbn [Z.ltb Z.compare]. apply check_connections_idle.
    unfold sys_close. fields. exact Hb. }
  rewrite Hpoll. apply AI_Frame_loop_detached. unfold s'. fields. lia.
Qed.









Lemma run_op_free_running out (o : op) s :
  calm o -> free_running out s -> free_running out (run_op o s).
Proof.
  intros Hcalm (Hp & Hf & Hs & Hq). destruct o; simpl.
  - destruct (check_connections_quiet s Hq) as (rest & -> & Hrest).
    unfold free_running. fields. repeat split; auto.
  - unfold AI_Frame_countdown. destruct (Z.ltb_spec 0 (ai_frames_to_run s)); [lia|].
    unfold free_running. repeat split; auto.
  - unfold waiting. rewrite Hp. cbn [andb]. unfold free_running. repeat split; auto.
  - destruct (AI_ApplyInput_shape s) as [m ->]. unfold free_running. fields.
    repeat split; auto.
  - destruct (AI_DebugWrite_shape byte s) as (buf & pos & ->).
    unfold free_running. fields. repeat split; auto.
  - unfold free_running. fields. repeat split; auto.
  - unfold free_running. fields. repeat split; auto.
Qed.

Lemma AI_Frame_free_running out (fuel : nat) s :
  free_running out s -> exists s', AI_Frame fuel s = Some s' /\ free_running out s'.
Proof.
  intros Hs. unfold AI_Frame. destruct (negb (AI_enabled s)); [eauto|].
  assert (Hs' : free_running out (AI_Frame_countdown (check_connections s))).
  { apply (run_op_free_running out Countdown); [exact I|].
    apply (run_op_free_running out Connections); [exact I|exact Hs]. }
  eexists. split; [|exact Hs'].
  apply AI_Frame_loop_running, Hs'.
Qed.

Lemma frames_free_running (k : nat) out (fuel : nat) s :
  free_running out s -> exists s', frames k fuel s = Some s' /\ free_running out s'.
Proof.
  revert s. induction k as [|k IH]; intros s Hs; [eauto|].
  destruct (AI_Frame_free_running out fuel s Hs) as (s1 & Hs1 & Hst1).
  destruct (IH s1 Hst1) as (s' & Hs' & Hst').
  exists s'. split; [|exact Hst']. simpl. rewrite Hs1. exact Hs'.
Qed.


(** X27.  A run command whose frame count is zero or negative clears
    the pause flag and gets no response, then or later: as long as no
    new connection arrives, nothing that can happen sets the pause flag
    again or sends anything. *)
Theorem run_without_frames_never_answers cmd s (ops : list op) (k fuel : nat) :
  command_name cmd = "run" ->
  json_get_int cmd "frames" 1 <= 0 ->
  quiet_attempts (backlog s) ->
  Forall calm ops ->
  let run := process_command cmd s in
  (ai_paused (exec ops run) = false /\ sent (exec ops run) = sent s) /\
  (exists sk, frames k fuel run = Some sk /\ ai_paused sk = false /\ sent sk = sent s).
Proof.
  intros Hname Hn Hq Hops run.
  assert (Hrun : free_running (sent s) run).
  { unfold run. rewrite (process_command_run _ _ Hname).
    unfold free_running. fields. repeat split; auto. }
  split.
  - assert (H : free_running (sent s) (exec ops run)).
    { clear -Hops Hrun. revert Hrun. generalize run. clear run.
      induction Hops as [|o ops Ho _ IH]; intros t Ht; [exact Ht|].
      unfold exec. simpl. apply IH, run_op_free_running; assumption. }
    destruct H as (Hp & _ & Hs & _). auto.
  - destruct (frames_free_running k _ fuel run Hrun) as (sk & Hsk & Hp & _ & Hs & _).
    eauto.
Qed.

End Further.

(** [sample_reads_inside_screen] on the bench, for a cell far outside
    the grid. *)
Lemma sample_reads_inside_screen_witness :
  0 <= pixel_offset (K := bench) 1000 1000 < 384 * 240 /\
  sample (K := bench) idle 1000 1000 = " ".
Proof.
  refine (sample_reads_inside_screen (K := bench) idle 1000 1000 _ _); reflexivity.
Defined.


(** [peek_reads_at_most_256] on the bench: two bytes from the last
    address on. *)
Lemma peek_reads_at_most_256_witness :
  cmd_peek (K := bench)
    (object [("cmd", quoted "peek"); ("addr", "65535"); ("len", "2")]) (attached [])
  = AI_SendResponse (peek_text 65535 [0; 0]) (attached []).
Proof.
  refine (peek_reads_at_most_256 (K := bench)
            (object [("cmd", quoted "peek"); ("addr", "65535"); ("len", "2")])
            (attached []) _).
  intros a m. simpl. lia.
Defined.

(** [poke_writes_the_array] on the bench: three values, the last one
    above 255. *)
Lemma poke_writes_the_array_witness :
  cmd_poke (K := bench)
    (object [("cmd", quoted "poke"); ("addr", "1536"); ("data", array_text [1; 2; 300])])
    (attached [])
  = AI_SendResponse resp_ok
      (set_emu (put_bytes 1536 [1; 2; 300] (emu (attached []))) (attached [])).
Proof.
  refine (poke_writes_the_array (K := bench)
            ("{" +:+ quoted "cmd" +:+ ":" +:+ quoted "poke" +:+ ","
                 +:+ quoted "addr" +:+ ":1536,")
            "}" [1; 2; 300] (attached []) _ _ _).
  - reflexivity.
  - reflexivity.
  - repeat constructor; lia.
Defined.

(** [framing_round_trip] on the bench: two pings in the pipe, the first
    one read. *)
Lemma framing_round_trip_witness :
  let ping := object [("cmd", quoted "ping")] in
  let s := attached (request ping ++ request ping) in
  read_command (K := bench) AI_BUFFER_SIZE s = (14, ping, set_peer (request ping) s) /\
  AI_Frame_poll s = check_connections (process_command ping (set_peer (request ping) s)).
Proof.
  intros ping s.
  refine (framing_round_trip (K := bench) ping (request ping) s _ _ _).
  - vm_compute. discriminate.
  - split; reflexivity.
  - reflexivity.
Defined.

(** [partial_body_is_dropped] on the bench: a ping whose last seven
    bytes arrive late. *)
Lemma partial_body_is_dropped_witness :
  let a := "{" +:+ quoted "cmd" +:+ ":" in
  let b := quoted "ping" +:+ "}" in
  let s := attached (script_of (C.dec 14 +:+ newline) ++ script_of a
                       ++ WouldBlock :: script_of b) in
  read_command (K := bench) AI_BUFFER_SIZE s = (0, "", set_peer (script_of b) s) /\
  AI_Frame_poll s = check_connections (set_peer (script_of b) s).
Proof.
  intros a b s.
  refine (partial_body_is_dropped (K := bench) a b (script_of b) s _ _ _ _).
  - vm_compute. discriminate.
  - discriminate.
  - reflexivity.
  - reflexivity.
Defined.

(** [disabled_interface_is_inert] on the bench, for a command line with
    emulator options only. *)
Lemma disabled_interface_is_inert_witness :
  let r := AI_Initialise (K := bench) ["atari800"; "-nobasic"; "game.xex"] 3
             (boot (K := bench) idle []) in
  r.1.1 = 1 /\ AI_enabled r.2 = false /\ ai_server_fd r.2 = -1 /\
  (forall fuel, AI_Frame fuel r.2 = Some r.2) /\
  AI_ApplyInput r.2 = r.2 /\ AI_IsPaused r.2 = false.
Proof.
  refine (disabled_interface_is_inert (K := bench) ["atari800"; "-nobasic"; "game.xex"]
            3 idle [] _).
  simpl. repeat constructor; discriminate.
Defined.

(** [foreign_arguments_pass_through] on the bench. *)
Lemma foreign_arguments_pass_through_witness :
  (AI_Initialise (K := bench) ["atari800"; "-nobasic"; "game.xex"] 3 (boot (K := bench) idle [])).1.2
  = ["atari800"; "-nobasic"; "game.xex"].
Proof.
  refine (foreign_arguments_pass_through (K := bench)
            ["atari800"; "-nobasic"; "game.xex"] 3 (boot (K := bench) idle []) _).
  simpl. repeat constructor;
    intros Hin; apply list_elem_of_In in Hin; vm_compute in Hin; intuition discriminate.
Defined.

(** [debug_buffer_in_bounds] on the bench, after the guest wrote two
    bytes. *)
Lemma debug_buffer_in_bounds_witness :
  let s := exec (K := bench) [DebugWrite 72; DebugWrite 105] (started []) in
  reachable s /\ debug_buffer_ok s.
Proof.
  intros s.
  assert (Hs : reachable s).
  { exists idle, [], ["atari800"; "-ai"], 3, [DebugWrite 72; DebugWrite 105].
    reflexivity. }
  split; [exact Hs|]. exact (debug_buffer_in_bounds s Hs).
Defined.

(** [one_client_descriptor] on the bench, after a second client took
    the place of the first. *)
Lemma one_client_descriptor_witness :
  let s := exec (K := bench) [Connections; Connections]
             (started [Incoming 5 []; Incoming 6 []]) in
  reachable s /\ open_fds s = [6] /\ fds_ok s.
Proof.
  intros s.
  assert (Hs : reachable s).
  { exists idle, [Incoming 5 []; Incoming 6 []], ["atari800"; "-ai"], 3,
      [Connections; Connections]. reflexivity. }
  split; [exact Hs|]. split; [reflexivity|]. exact (one_client_descriptor s Hs).
Defined.

(** [exit_releases_descriptors] on the bench, with a client attached. *)
Lemma exit_releases_descriptors_witness :
  let s := exec (K := bench) [Connections] (started [Incoming 5 []]) in
  reachable s /\ open_fds s = [5] /\
  ai_client_fd (AI_Exit s) = -1 /\ ai_server_fd (AI_Exit s) = -1 /\
  open_fds (AI_Exit s) = [] /\ AI_Exit (AI_Exit s) = AI_Exit s.
Proof.
  intros s.
  assert (Hs : reachable s).
  { exists idle, [Incoming 5 []], ["atari800"; "-ai"], 3, [Connections]. reflexivity. }
  split; [exact Hs|]. split; [reflexivity|]. exact (exit_releases_descriptors s Hs).
Defined.

(** [paused_loop_waits] on the bench, with a silent client attached. *)
Lemma paused_loop_waits_witness : AI_Frame (K := bench) 100 (attached []) = None.
Proof.
  refine (paused_loop_waits (K := bench) 100 (attached []) _ _).
  - reflexivity.
  - repeat split. vm_compute. discriminate.
Defined.

(** [paused_without_client_returns] on the bench, right after start-up. *)
Lemma paused_without_client_returns_witness :
  AI_IsPaused (K := bench) (started []) = true /\
  AI_Frame (K := bench) 0 (started []) = Some (started []).
Proof.
  refine (paused_without_client_returns (K := bench) 0 (started []) _ _ _ _ _).
  - reflexivity.
  - reflexivity.
  - reflexivity.
  - vm_compute. discriminate.
  - reflexivity.
Defined.

(** [disconnect_releases_the_loop] on the bench. *)
Lemma disconnect_releases_the_loop_witness :
  let s := attached [Eof] in
  let s' := set_client_fd (-1) (sys_close 5 s) in
  AI_Frame (K := bench) 1 s = Some s' /\ AI_IsPaused s' = true /\ open_fds s' = [].
Proof.
  intros s s'.
  destruct (disconnect_releases_the_loop (K := bench) 0 [] s) as [H1 H2].
  - reflexivity.
  - reflexivity.
  - vm_compute. discriminate.
  - vm_compute. discriminate.
  - reflexivity.
  - reflexivity.
  - split; [exact H1|]. split; [exact H2|reflexivity].
Defined.


(** [run_without_frames_never_answers] on the bench: a run of zero
    frames, then three frames with the input hooks in between. *)
Lemma run_without_frames_never_answers_witness :
  let run := process_command (K := bench) (run_cmd "0") (attached []) in
  let ops := [Connections; Countdown; Poll; Emulator (K := bench) idle; ApplyInput] in
  (ai_paused (exec ops run) = false /\ sent (exec ops run) = []) /\
  (exists sk, frames 3 0 run = Some sk /\ ai_paused sk = false /\ sent sk = []).
Proof.
  refine (run_without_frames_never_answers (K := bench) (run_cmd "0") (attached [])
            [Connections; Countdown; Poll; Emulator (K := bench) idle; ApplyInput]
            3 0 _ _ _ _).
  - reflexivity.
  - vm_compute. discriminate.
  - constructor.
  - repeat constructor.
Defined.

(** [commands_without_path] on the bench, for a request with no path
    field. *)
Lemma commands_without_path_witness :
  let cmd := object [("cmd", quoted "dump"); ("start", "0"); ("end", "255")] in
  cmd_load (K := bench) cmd (attached [])
  = AI_SendResponse (resp_error "Failed to load ") (attached []) /\
  cmd_save_state (K := bench) cmd (attached [])
  = AI_SendResponse (resp_error "Failed to save state") (attached []) /\
  cmd_load_state (K := bench) cmd (attached [])
  = AI_SendResponse (resp_error "Failed to load state") (attached []) /\
  cmd_dump (K := bench) cmd (attached [])
  = AI_SendResponse (resp_error "No path specified") (attached []) /\
  cmd_screenshot (K := bench) cmd (attached [])
  = AI_SendResponse (resp_path "/tmp/atari800_ai_0.png") (attached []).
Proof.
  intros cmd.
  refine (commands_without_path (K := bench) cmd (attached []) _). reflexivity.
Defined.

(** [screen_raw_carries_the_screen] on the bench, whose screen has 384
    by 240 pixels. *)
Lemma screen_raw_carries_the_screen_witness :
  exists b64,
    cmd_screen_raw (K := bench) (attached [])
    = AI_SendResponse (screen_raw_text (K := bench) b64) (attached []) /\
    base64_decode b64 = Some (screen_bytes (K := bench) idle) /\
    C.strlen b64 = 4 * b64_groups (length (screen_bytes (K := bench) idle)).
Proof.
  refine (screen_raw_carries_the_screen (K := bench) (attached []) _ _ _).
  - reflexivity.
  - reflexivity.
  - simpl. lia.
Defined.
